(** * Estrategia Downloader Pro: configuration, progress ledger, course queue
      and download orchestration

    A shallow embedding of [config_manager.py] and [downloader.py].

    - Python values read from JSON are the inductive type [value]; a [dict] is
      an association list in insertion order with unique keys.
    - Objects that own mutable state ([ConfigManager], [ProgressManager],
      [CourseUrlManager]) are records threaded through a state-and-exception
      monad; files, the OS keyring and the cipher are part of that state or of
      an explicit environment record.
    - Collaborators that live outside these two files (the PDF and video
      processors, login, the browser, the HTTP session) are oracles of an
      environment record; what the orchestrator does with them is recorded in
      a trace of events. *)

From Stdlib Require Import ZArith Ascii String List Bool Lia.
From stdpp Require Import base option list gmap strings.

Set Warnings "-register-all".
Local Open Scope string_scope.
Local Open Scope list_scope.

(** ** Text helpers (Python [str] methods used by the sources) *)

Module Text.

(** [needle in hay] *)
Fixpoint contains (needle hay : string) : bool :=
  String.prefix needle hay ||
  match hay with
  | EmptyString => false
  | String _ rest => contains needle rest
  end.

Definition to_list (s : string) : list ascii := list_ascii_of_string s.
Definition of_list (l : list ascii) : string := string_of_list_ascii l.

Definition reverse (s : string) : string := of_list (rev (to_list s)).

(** [s.endswith(suffix)] *)
Definition endswith (s suffix : string) : bool :=
  String.prefix (reverse suffix) (reverse s).

(** [c in s] for a single character *)
Fixpoint has_char (c : ascii) (s : string) : bool :=
  match s with
  | EmptyString => false
  | String a rest => Ascii.eqb a c || has_char c rest
  end.

(** [s.split(sep)] for a one-character separator: the pieces between
    separators, empty pieces included. *)
Fixpoint split_on (sep : ascii) (s : string) : list string :=
  match s with
  | EmptyString => [EmptyString]
  | String a rest =>
      if Ascii.eqb a sep then EmptyString :: split_on sep rest
      else match split_on sep rest with
           | [] => [String a EmptyString]
           | p :: ps => String a p :: ps
           end
  end.

Definition is_empty (s : string) : bool :=
  match s with EmptyString => true | _ => false end.

(** Character classes of ASCII text. Strings are byte strings: on text with
    non-ASCII characters Python's [str] methods see code points, these
    functions see UTF-8 bytes and treat them as caseless, non-blank symbols. *)
Definition code (c : ascii) : nat := nat_of_ascii c.

Definition is_lower (c : ascii) : bool := (97 <=? code c)%nat && (code c <=? 122)%nat.
Definition is_upper (c : ascii) : bool := (65 <=? code c)%nat && (code c <=? 90)%nat.
Definition is_digit (c : ascii) : bool := (48 <=? code c)%nat && (code c <=? 57)%nat.

(** A string is a sequence of bytes, the UTF-8 encoding of the Python [str].
    On ASCII text a byte is a character; the functions below that look at
    letters ([to_upper], [title_case], ...) are those of Python on ASCII
    text only. *)
Fixpoint is_ascii (s : string) : bool :=
  match s with
  | EmptyString => true
  | String c rest => (code c <? 128)%nat && is_ascii rest
  end.

(** A byte [10xxxxxx]: inside the encoding of a code point, never its first
    byte. *)
Definition is_continuation (c : ascii) : bool :=
  (128 <=? code c)%nat && (code c <? 192)%nat.

Definition starts_with_continuation (s : string) : bool :=
  match s with
  | EmptyString => false
  | String c _ => is_continuation c
  end.

(** [str.isspace] on ASCII: tab, LF, VT, FF, CR, FS, GS, RS, US and space. *)
Definition is_space (c : ascii) : bool :=
  ((9 <=? code c)%nat && (code c <=? 13)%nat)
  || ((28 <=? code c)%nat && (code c <=? 32)%nat).

Definition to_upper (c : ascii) : ascii :=
  if is_lower c then ascii_of_nat (code c - 32) else c.
Definition to_lower (c : ascii) : ascii :=
  if is_upper c then ascii_of_nat (code c + 32) else c.

Fixpoint map_chars (f : ascii -> ascii) (s : string) : string :=
  match s with
  | EmptyString => EmptyString
  | String a rest => String (f a) (map_chars f rest)
  end.

(** [s.lower()] *)
Definition lower (s : string) : string := map_chars to_lower s.

(** [s.replace(a, b)] for single characters *)
Definition replace_char (a b : ascii) (s : string) : string :=
  map_chars (fun c => if Ascii.eqb c a then b else c) s.

(** [s.title()]: a cased character is upper-cased when the one before it is
    not cased, lower-cased otherwise. *)
Fixpoint title_from (previous_is_cased : bool) (s : string) : string :=
  match s with
  | EmptyString => EmptyString
  | String a rest =>
      if is_lower a || is_upper a then
        String (if previous_is_cased then to_lower a else to_upper a)
               (title_from true rest)
      else String a (title_from false rest)
  end.
Definition title_case (s : string) : string := title_from false s.

(** [s.lstrip()] / [s.strip()] with no argument *)
Fixpoint lstrip (s : string) : string :=
  match s with
  | EmptyString => EmptyString
  | String a rest => if is_space a then lstrip rest else s
  end.
Definition strip (s : string) : string := reverse (lstrip (reverse (lstrip s))).

(** The text matched by [\d+$] at the start of [s], if [s] is one or more
    digits up to the end of the string or up to its final newline; the result
    is what follows the match (nothing, or that newline). *)
Fixpoint digits_to_end (seen_digit : bool) (s : string) : option string :=
  match s with
  | EmptyString => if seen_digit then Some EmptyString else None
  | String a rest =>
      if is_digit a then digits_to_end true rest
      else if seen_digit && Ascii.eqb a "010"%char && is_empty rest then Some s
      else None
  end.

(** [re.sub(r'\s\d+$', '', s)] *)
Fixpoint sub_trailing_id (s : string) : string :=
  match s with
  | EmptyString => EmptyString
  | String a rest =>
      match (if is_space a then digits_to_end false rest else None) with
      | Some after => after
      | None => String a (sub_trailing_id rest)
      end
  end.

(** [s[:n]] and [s[n:]] *)
Fixpoint take (n : nat) (s : string) : string :=
  match n, s with
  | S n', String a rest => String a (take n' rest)
  | _, _ => EmptyString
  end.
Fixpoint drop (n : nat) (s : string) : string :=
  match n, s with
  | S n', String _ rest => drop n' rest
  | _, _ => s
  end.

(** [s.find(c)]: the index of the first [c], if any *)
Fixpoint find_char (c : ascii) (s : string) : option nat :=
  match s with
  | EmptyString => None
  | String a rest =>
      if Ascii.eqb a c then Some O else option_map S (find_char c rest)
  end.

End Text.

(** ** Python values as read by [json.load] *)

Inductive value : Type :=
| VNone
| VBool (b : bool)
| VNum (n : Z)
| VStr (s : string)
| VList (items : list value)
| VDict (entries : list (string * value)).

Module Py.

(** Python truthiness: [if v:] / [not v]. *)
Definition truthy (v : value) : bool :=
  match v with
  | VNone => false
  | VBool b => b
  | VNum n => negb (n =? 0)%Z
  | VStr s => negb (Text.is_empty s)
  | VList items => match items with [] => false | _ => true end
  | VDict entries => match entries with [] => false | _ => true end
  end.

Definition is_dict (v : value) : bool :=
  match v with VDict _ => true | _ => false end.

(** [d.get(k)] as an option: [None] when the key is absent. *)
Fixpoint lookup (entries : list (string * value)) (k : string) : option value :=
  match entries with
  | [] => None
  | (k', v) :: rest => if String.eqb k' k then Some v else lookup rest k
  end.

(** [d.get(k, default)] *)
Definition dict_get (entries : list (string * value)) (k : string)
    (default : value) : value :=
  match lookup entries k with
  | Some v => v
  | None => default
  end.

(** [d[k] = v]: overwrite in place, or append a new key at the end. *)
Fixpoint dict_set (entries : list (string * value)) (k : string) (v : value)
    : list (string * value) :=
  match entries with
  | [] => [(k, v)]
  | (k', v') :: rest =>
      if String.eqb k' k then (k', v) :: rest
      else (k', v') :: dict_set rest k v
  end.

(** Equality of two values where both are strings, as used by
    [download_type == "pdf"] and [x in ["pdf", "video"]]. *)
Definition str_eq (v : value) (s : string) : bool :=
  match v with
  | VStr s' => String.eqb s' s
  | _ => false
  end.

End Py.

(** ** Exceptions

  Python 3.9+ (the annotations [tuple[bool, list[str]]] need it), so
  [asyncio.CancelledError] derives from [BaseException] and is *not* caught
  by [except Exception]. *)

Inductive exn : Type :=
| ExException          (* an ordinary [Exception] (ValueError, OSError, ...) *)
| ExPlaywright         (* [playwright.async_api.Error], an [Exception] *)
| ExCancelled.         (* [asyncio.CancelledError], a [BaseException] *)

Definition is_Exception (e : exn) : bool :=
match e with
| ExException | ExPlaywright => true
| ExCancelled => false
end.

(** The result of running a piece of Python: a value or a raised exception. *)
Inductive res (A : Type) : Type :=
| Ret (a : A)
| Raise (e : exn).
Arguments Ret {A} a.
Arguments Raise {A} e.

(** ** State-and-exception monad *)

Module SE.

Definition M (S A : Type) : Type := S -> res A * S.

Definition ret {S A} (a : A) : M S A := fun s => (Ret a, s).
Definition raise {S A} (e : exn) : M S A := fun s => (Raise e, s).
Definition bind {S A B} (m : M S A) (k : A -> M S B) : M S B :=
  fun s =>
    match m s with
    | (Ret a, s') => k a s'
    | (Raise e, s') => (Raise e, s')
    end.
Definition gets {S A} (f : S -> A) : M S A := fun s => (Ret (f s), s).
Definition modify {S} (f : S -> S) : M S unit := fun s => (Ret tt, f s).

(** [try: body except Exception: handler] ([CancelledError] passes through). *)
Definition try_except {S A} (body : M S A) (handler : M S A) : M S A :=
  fun s =>
    match body s with
    | (Ret a, s') => (Ret a, s')
    | (Raise e, s') => if is_Exception e then handler s' else (Raise e, s')
    end.

(** An operation is read-only when it hands back the state it was given. *)
Definition read_only {S A} (m : M S A) : Prop := forall s, snd (m s) = s.

(** A computation that raises nothing but [Exception]s: whatever it raises,
    an [except Exception] clause catches. *)
Definition mild {S A} (m : M S A) : Prop :=
  forall s e s', m s = (Raise e, s') -> is_Exception e = true.

End SE.

Declare Scope se_scope.
Delimit Scope se_scope with se.
Notation "x <- m ;; k" := (SE.bind m (fun x => k))
  (at level 100, m at next level, right associativity) : se_scope.
Notation "m ;;; k" := (SE.bind m (fun _ => k))
  (at level 100, right associativity) : se_scope.


(** ** ConfigManager ([config_manager.py], class [ConfigManager]) *)

Module ConfigManager.

Definition SERVICE_NAME : string := "EstrategiaDownloader".
Definition CONFIG_FILE : string := "config.json".
Definition CONFIG_BACKUP : string := "config.json.bak".

(** What a file on disk holds: JSON text (kept as the value it decodes to),
    text that is not a JSON document ([json.load] raises [JSONDecodeError]),
    or bytes that are not UTF-8 text (reading them raises
    [UnicodeDecodeError], which is no [JSONDecodeError] and no [OSError]). *)
Inductive file_content : Type :=
| FJson (v : value)
| FGarbage
| FNotText.

(** The part of the machine that [ConfigManager] reads but does not own. *)
Record env : Type := {
  home : string;                          (* [Path.home()] *)
  decrypt : string -> option string;      (* [cipher.decrypt]; [None]: it raised *)
  keyring_up : bool;                      (* [false]: the backend raises [KeyringError] *)
  path_parent : string -> string;         (* [Path(p).parent] *)
  dir_exists : string -> option bool;     (* [Path.exists()]; [None]: it raised *)
}.

(** The state [ConfigManager] works on: its [config] attribute, the files of
    the working directory and the OS secret store keyed by (service, user). *)
Record world : Type := {
  config : value;
  disk : gmap string file_content;
  keyring : gmap (string * string) string;
}.

Definition with_config (c : value) (w : world) : world :=
  {| config := c; disk := disk w; keyring := keyring w |}.
Definition with_disk (d : gmap string file_content) (w : world) : world :=
  {| config := config w; disk := d; keyring := keyring w |}.

(** [_get_default_config] (POSIX path separator). *)
Definition _get_default_config (E : env) : value :=
  VDict [
    ("email", VStr "");
    ("downloadType", VStr "pdf");
    ("headless", VBool false);
    ("pdfConfig", VDict [
       ("pastaDownloads", VStr (home E ++ "/Downloads/Estrategia_PDFs"));
       ("pdfType", VNum 2);
       ("baixarMateriaisDeVideo", VBool false) ]);
    ("videoConfig", VDict [
       ("pastaDownloads", VStr (home E ++ "/Downloads/Estrategia_Videos"));
       ("resolucaoEscolhida", VStr "720p");
       ("baixarExtras", VBool true) ])
  ].

(** The loop of [get]: walk [keys] from [v]; a missing key yields [default]
    and the walk goes on from there; a non-dict stops it with [default]. *)
Fixpoint get_from (v : value) (keys : list string) (default : value) : value :=
  match keys with
  | [] => v
  | k :: ks =>
      match v with
      | VDict entries => get_from (Py.dict_get entries k default) ks default
      | _ => default
      end
  end.

(** [get] (variadic keys, keyword [default]) *)
Definition get (keys : list string) (default : value) : SE.M world value :=
  SE.gets (fun w => get_from (config w) keys default).

(** [self.config.get(k, default)]: the [dict] method, an [AttributeError] when
    the loaded JSON document is not an object. *)
Definition config_get (k : string) (default : value) : SE.M world value :=
  fun w =>
    match config w with
    | VDict entries => (Ret (Py.dict_get entries k default), w)
    | _ => (Raise ExException, w)
    end.

(** The loop of [set] over [keys[:-1]], then the assignment to [keys[-1]]. *)
Fixpoint set_in (entries : list (string * value)) (path : list string)
    (last_key : string) (v : value) : list (string * value) :=
  match path with
  | [] => Py.dict_set entries last_key v
  | k :: ks =>
      let sub :=
        match Py.lookup entries k with
        | Some (VDict d) => d
        | _ => []
        end in
      Py.dict_set entries k (VDict (set_in sub ks last_key v))
  end.

(** [set] (variadic keys, keyword [value]) *)
Definition set (keys : list string) (v : value) : SE.M world unit :=
  match List.last (map Some keys) None with
  | None => SE.ret tt
  | Some last_key =>
      fun w =>
        match config w with
        | VDict entries =>
            (Ret tt,
             with_config (VDict (set_in entries (removelast keys) last_key v)) w)
        | _ => (Raise ExException, w)
        end
  end.

(** How [save_config] ends: which of its steps fails, if any. *)
Inductive io_outcome : Type :=
| IoOk
| IoFailRotate    (* [CONFIG_FILE.replace(backup)] raised: nothing renamed *)
| IoFailOpen      (* the file could not be opened: nothing written *)
| IoFailMidway.   (* opened and truncated, then the write failed *)

(** [save_config]: rotate [config.json] to [config.json.bak], then write.
    Every exception of the [try] block leaves [save_config] as an exception.
    [IoFailRotate] fails the rename; where there is no file to rename, no
    rename is attempted and the write goes through. *)
Definition save_config (io : io_outcome) : SE.M world unit :=
  fun w =>
    let rotated :=
      match disk w !! CONFIG_FILE with
      | Some old => <[CONFIG_BACKUP := old]> (delete CONFIG_FILE (disk w))
      | None => disk w
      end in
    match io with
    | IoOk => (Ret tt, with_disk (<[CONFIG_FILE := FJson (config w)]> rotated) w)
    | IoFailRotate =>
        match disk w !! CONFIG_FILE with
        | Some _ => (Raise ExException, w)
        | None => (Ret tt, with_disk (<[CONFIG_FILE := FJson (config w)]> (disk w)) w)
        end
    | IoFailOpen => (Raise ExException, with_disk rotated w)
    | IoFailMidway =>
        (Raise ExException, with_disk (<[CONFIG_FILE := FGarbage]> rotated) w)
    end.

(** [keyring.get_password(SERVICE_NAME, email)] *)
Definition keyring_get_password (E : env) (user : value)
    : SE.M world (option string) :=
  fun w =>
    match user with
    | VStr u =>
        if keyring_up E then (Ret (keyring w !! (SERVICE_NAME, u)), w)
        else (Raise ExException, w)
    | _ => (Raise ExException, w)
    end.

(** [get_password]: every exception of the keyring or the cipher is caught and
    turned into [None]. *)
Definition get_password (E : env) : SE.M world (option string) :=
  (email <- config_get "email" VNone ;;
   if negb (Py.truthy email) then SE.ret None
   else
     SE.try_except
       (encrypted <- keyring_get_password E email ;;
        match encrypted with
        | None => SE.ret None
        | Some c =>
            if Text.is_empty c then SE.ret None
            else match decrypt E c with
                 | Some plain => SE.ret (Some plain)
                 | None => SE.raise ExException
                 end
        end)
       (SE.ret None))%se.

(** The problems [validate] reports. *)
Inductive config_error : Type :=
| EmailNotConfigured
| EmailInvalid
| PasswordNotConfigured
| InvalidDownloadType (found : value)
| PdfParentMissing (parent : string)
| PdfPathInvalid
| VideoParentMissing (parent : string)
| VideoPathInvalid.

(** ["@" in email] for a truthy [email]. *)
Definition contains_at (email : value) : SE.M world bool :=
  match email with
  | VStr s => SE.ret (Text.contains "@" s)
  | VList items => SE.ret (existsb (fun v => Py.str_eq v "@") items)
  | VDict entries => SE.ret (bool_decide (is_Some (Py.lookup entries "@")))
  | _ => SE.raise ExException
  end.

(** The folder checks of [validate]: [Path(folder)] raises on a non-string,
    which the surrounding [try] reports as an invalid path. *)
Definition check_folder (E : env) (folder : value)
    (missing : string -> config_error) (invalid : config_error)
    : list config_error :=
  if Py.truthy folder then
    match folder with
    | VStr p =>
        match dir_exists E (path_parent E p) with
        | Some true => []
        | Some false => [missing (path_parent E p)]
        | None => [invalid]
        end
    | _ => [invalid]
    end
  else [].

Definition password_missing (pw : option string) : bool :=
  match pw with
  | Some p => Text.is_empty p
  | None => true
  end.

(** [validate] *)
Definition validate (E : env) : SE.M world (bool * list config_error) :=
  (email <- config_get "email" VNone ;;
   e_email <-
     (if negb (Py.truthy email) then SE.ret [EmailNotConfigured]
      else (has_at <- contains_at email ;;
            SE.ret (if has_at : bool then [] else [EmailInvalid]))) ;;
   pw <- get_password E ;;
   download_type <- config_get "downloadType" VNone ;;
   pdf_folder <- get ["pdfConfig"; "pastaDownloads"] VNone ;;
   video_folder <- get ["videoConfig"; "pastaDownloads"] VNone ;;
   let errors :=
     e_email
     ++ (if password_missing pw then [PasswordNotConfigured] else [])
     ++ (if Py.str_eq download_type "pdf" || Py.str_eq download_type "video"
         then [] else [InvalidDownloadType download_type])
     ++ check_folder E pdf_folder PdfParentMissing PdfPathInvalid
     ++ check_folder E video_folder VideoParentMissing VideoPathInvalid in
   SE.ret (match errors with [] => true | _ => false end, errors))%se.

(** [validate] called [n] times in a row; the last result is kept. *)
Fixpoint validate_times (E : env) (n : nat) : SE.M world unit :=
  match n with
  | O => SE.ret tt
  | S n' => fun w => validate_times E n' (snd (validate E w))
  end.

(** The strict walk that [get] performs while every key is present: follow
    [keys] through nested dicts, [None] as soon as one is missing or the value
    at hand is not a dict. *)
Fixpoint descend (v : value) (keys : list string) : option value :=
  match keys with
  | [] => Some v
  | k :: ks =>
      match v with
      | VDict entries =>
          match Py.lookup entries k with
          | Some v' => descend v' ks
          | None => None
          end
      | _ => None
      end
  end.


(** [keyring.set_password(SERVICE_NAME, email, token)] *)
Definition keyring_set_password (E : env) (user : value) (token : string)
    : SE.M world unit :=
  fun w =>
    match user with
    | VStr u =>
        if keyring_up E then
          (Ret tt,
           {| config := config w; disk := disk w;
              keyring := <[(SERVICE_NAME, u) := token]> (keyring w) |})
        else (Raise ExException, w)
    | _ => (Raise ExException, w)
    end.

(** [set_password]; [encrypt] is [cipher.encrypt] ([None]: it raised). The
    two [ValueError]s and the exceptions of the [try] block all leave as an
    [Exception]. *)
Definition set_password (E : env) (encrypt : string -> option string)
    (password : string) : SE.M world unit :=
  (email <- config_get "email" VNone ;;
   if negb (Py.truthy email) then SE.raise ExException
   else if Text.is_empty password then SE.raise ExException
   else
     match encrypt password with
     | Some token => keyring_set_password E email token
     | None => SE.raise ExException
     end)%se.

(** [keyring.delete_password(SERVICE_NAME, email)]: a [KeyringError] when the
    backend is down or holds no such entry; with [refused] the backend is up
    and holds the entry, but the deletion itself raises (a locked store, a
    denied prompt) and the entry stays. *)
Definition keyring_delete_password (E : env) (refused : bool) (user : value)
    : SE.M world unit :=
  fun w =>
    match user with
    | VStr u =>
        if keyring_up E then
          match keyring w !! (SERVICE_NAME, u) with
          | Some _ =>
              if refused then (Raise ExException, w)
              else
                (Ret tt,
                 {| config := config w; disk := disk w;
                    keyring := delete (SERVICE_NAME, u) (keyring w) |})
          | None => (Raise ExException, w)
          end
        else (Raise ExException, w)
    | _ => (Raise ExException, w)
    end.

(** [delete_password]: nothing to do without an e-mail; errors of the keyring
    are passed over or logged. *)
Definition delete_password (E : env) (refused : bool) : SE.M world unit :=
  (email <- config_get "email" VNone ;;
   if negb (Py.truthy email) then SE.ret tt
   else SE.try_except (keyring_delete_password E refused email) (SE.ret tt))%se.

(** [CONFIG_FILE.with_suffix(f'.json.{timestamp}.bak')]; [stamp] is the
    decimal text of [int(time.time())]. *)
Definition backup_path (stamp : string) : string :=
  ("config.json." ++ stamp ++ ".bak")%string.

(** [CONFIG_FILE.rename(backup_path)] when the file exists. *)
Definition rename_to_backup (stamp : string) (rename_ok : bool) : SE.M world unit :=
  fun w =>
    match disk w !! CONFIG_FILE with
    | Some old =>
        if rename_ok then
          (Ret tt, with_disk (<[backup_path stamp := old]> (delete CONFIG_FILE (disk w))) w)
        else (Raise ExException, w)
    | None => (Ret tt, w)
    end.

(** [_backup_and_repair_config]: every exception is caught and logged. *)
Definition _backup_and_repair_config (E : env) (stamp : string) (rename_ok : bool)
    (io : io_outcome) : SE.M world unit :=
  SE.try_except
    (rename_to_backup stamp rename_ok ;;;
     SE.modify (with_config (_get_default_config E)) ;;;
     save_config io)%se
    (SE.ret tt).

(** [_load_config]: [readable = false] stands for an [OSError] while opening
    or reading the file. Only a [JSONDecodeError] starts the repair; a file
    that is not text ends in [except Exception], which logs and falls through
    to the default configuration. *)
Definition _load_config (E : env) (readable : bool) (stamp : string)
    (rename_ok : bool) (io : io_outcome) : SE.M world value :=
  fun w =>
    match disk w !! CONFIG_FILE with
    | Some content =>
        if readable then
          match content with
          | FJson v => (Ret v, w)
          | FGarbage =>
              (Ret (_get_default_config E),
               snd (_backup_and_repair_config E stamp rename_ok io w))
          | FNotText => (Ret (_get_default_config E), w)
          end
        else (Ret (_get_default_config E), w)
    | None => (Ret (_get_default_config E), w)
    end.

(** [self.config = self._load_config()], as in [__init__]. *)
Definition load (E : env) (readable : bool) (stamp : string)
    (rename_ok : bool) (io : io_outcome) : SE.M world unit :=
  (loaded <- _load_config E readable stamp rename_ok io ;;
   SE.modify (with_config loaded))%se.

End ConfigManager.

(** ** ProgressManager ([config_manager.py], class [ProgressManager]) *)

Module ProgressManager.

Definition PROGRESS_FILE : string := "progress.json".
Definition TEMP_FILE : string := "progress.tmp".

Inductive ledger_file : Type :=
| LJson (m : gmap string bool)
| LGarbage.

(** The ledger in memory and the files of the working directory. *)
Record world : Type := {
  progress : gmap string bool;
  disk : gmap string ledger_file;
}.

(** How one call of [save_progress] ends. Every failure is logged and
    swallowed by its [except] clauses. *)
Inductive save_outcome : Type :=
| SaveOk
| SaveFailOpen      (* the temporary file could not be opened *)
| SaveFailWrite     (* the temporary file was left half written *)
| SaveFailRename.   (* the temporary file is complete, the rename failed *)

(** [save_progress]: write [progress.tmp], then rename it over
    [progress.json]. *)
Definition save_progress (io : save_outcome) (w : world) : world :=
  {| progress := progress w;
     disk :=
       match io with
       | SaveOk => <[PROGRESS_FILE := LJson (progress w)]> (delete TEMP_FILE (disk w))
       | SaveFailOpen => disk w
       | SaveFailWrite => <[TEMP_FILE := LGarbage]> (disk w)
       | SaveFailRename => <[TEMP_FILE := LJson (progress w)]> (disk w)
       end |}.

(** [_load_progress]: an unreadable or corrupt file gives the empty ledger. *)
Definition _load_progress (readable : bool) (d : gmap string ledger_file)
    : gmap string bool :=
  match d !! PROGRESS_FILE with
  | Some (LJson m) => if readable then m else ∅
  | Some LGarbage => ∅
  | None => ∅
  end.

(** A new process: [ProgressManager()] over the files the old one left. *)
Definition restart (readable : bool) (w : world) : world :=
  {| progress := _load_progress readable (disk w); disk := disk w |}.

Definition is_completed (k : string) (w : world) : bool :=
  default false (progress w !! k).

Definition mark_completed (io : save_outcome) (k : string) (w : world) : world :=
  save_progress io {| progress := <[k := true]> (progress w); disk := disk w |}.

Definition clear (io : save_outcome) (w : world) : world :=
  save_progress io {| progress := ∅; disk := disk w |}.

(** [get_stats]: (total_items, completed) *)
Definition get_stats (w : world) : nat * nat :=
  (size (progress w), size (filter (fun kv => kv.2 = true) (progress w))).

(** The mutating calls a client can make, each with the fate of its write. *)
Inductive op : Type :=
| MarkCompleted (k : string) (io : save_outcome)
| Clear (io : save_outcome).

Definition step (o : op) (w : world) : world :=
  match o with
  | MarkCompleted k io => mark_completed io k w
  | Clear io => clear io w
  end.

Definition run (ops : list op) (w : world) : world :=
  fold_left (fun acc o => step o acc) ops w.




(** [progress.json] is absent or holds a whole ledger. *)
Definition file_intact (w : world) : Prop :=
  disk w !! PROGRESS_FILE <> Some LGarbage.

End ProgressManager.

(** ** CourseUrlManager ([config_manager.py], class [CourseUrlManager])

    Queue entries are the [{'url': ..., 'title': ...}] dicts that [add_url]
    and the migration of [_load_urls] build. *)

Record course : Type := {
  url : string;
  title : string;
}.

(** What the sources use of Python's library: [str.strip] and
    [urllib.parse.urlparse]. *)
Record parse_result : Type := {
  scheme : string;
  netloc : string;
  path : string;
  params : string;
  query : string;
  fragment : string;
}.

Record pylib : Type := {
  strip : string -> string;
  urlparse : string -> option parse_result;   (* [None]: it raised *)
}.

Module CourseUrlManager.

Definition URLS_FILE : string := "course-urls.json".
Definition DOMAIN : string := "estrategiaconcursos.com.br".

Inductive urls_file : Type :=
| UJson (entries : list course)
| UGarbage.

(** [urls], the files of the working directory, and the log of the lists
    handed to [_save_raw] (one item per attempted write). *)
Record world : Type := {
  urls : list course;
  disk : gmap string urls_file;
  writes : list (list course);
}.

Inductive io_outcome : Type :=
| IoOk
| IoFailOpen
| IoFailMidway.

(** [_save_raw]: failures are logged and swallowed. *)
Definition _save_raw (io : io_outcome) (data : list course) (w : world) : world :=
  {| urls := urls w;
     disk :=
       match io with
       | IoOk => <[URLS_FILE := UJson data]> (disk w)
       | IoFailOpen => disk w
       | IoFailMidway => <[URLS_FILE := UGarbage]> (disk w)
       end;
     writes := writes w ++ [data] |}.

Definition save_urls (io : io_outcome) (w : world) : world :=
  _save_raw io (urls w) w.

(** [_validate_url]; an exception of [urlparse] is caught and gives [False]. *)
Definition _validate_url (L : pylib) (u : string) : bool :=
  match urlparse L u with
  | None => false
  | Some result =>
      if negb (String.eqb (scheme result) "http" || String.eqb (scheme result) "https")
      then false
      else if negb (Text.contains DOMAIN (netloc result)) then false
      else if negb (Text.contains "/cursos/" (path result)) then false
      else if negb (Text.endswith (path result) "/aulas") then false
      else true
  end.

(** The slug search of [_extract_title_from_url] when no segment is ['aulas']:
    the last segment with a hyphen and more than five characters. *)
Definition looks_like_slug (p : string) : bool :=
  Text.has_char "-"%char p && (5 <? String.length p)%nat.

Fixpoint index_of (x : string) (l : list string) : option nat :=
  match l with
  | [] => None
  | y :: rest => if String.eqb y x then Some O else option_map S (index_of x rest)
  end.

Definition pick_slug (parts : list string) : string :=
  let unknown := "Curso Desconhecido" in
  match index_of "aulas" parts with
  | Some idx =>
      match idx with
      | O => unknown
      | S before => nth before parts unknown
      end
  | None =>
      match List.find looks_like_slug (rev parts) with
      | Some p => p
      | None => unknown
      end
  end.

(** [_extract_title_from_url] (its [except] branch is not reachable on a
    [str] argument). [str.title] and [len] are those of Python on ASCII text:
    what is proved about a title is proved for ASCII URLs. *)
Definition _extract_title_from_url (u : string) : string :=
  let parts :=
    List.filter (fun p => negb (Text.is_empty p)) (Text.split_on "/"%char u) in
  let slug := pick_slug parts in
  Text.sub_trailing_id (Text.title_case (Text.replace_char "-"%char " "%char slug)).

(** [any(c['url'] == url for c in self.urls)] *)
Definition has_url (u : string) (cs : list course) : bool :=
  existsb (fun c => String.eqb (url c) u) cs.

(** [add_url] *)
Definition add_url (L : pylib) (io : io_outcome) (u : string) (w : world)
    : bool * world :=
  let u := strip L u in
  if negb (_validate_url L u) then (false, w)
  else if has_url u (urls w) then (false, w)
  else
    let t := _extract_title_from_url u in
    let w' := {| urls := urls w ++ [{| url := u; title := t |}];
                 disk := disk w; writes := writes w |} in
    (true, save_urls io w').

(** [remove_url] *)
Definition remove_url (io : io_outcome) (u : string) (w : world) : bool * world :=
  let initial_len := length (urls w) in
  let w' := {| urls := List.filter (fun c => negb (String.eqb (url c) u)) (urls w);
               disk := disk w; writes := writes w |} in
  if (length (urls w') <? initial_len)%nat then (true, save_urls io w')
  else (false, w').

(** [get_all], on values *)
Definition get_all (w : world) : list course := urls w.

(** [clear] *)
Definition clear (io : io_outcome) (w : world) : world :=
  save_urls io {| urls := []; disk := disk w; writes := writes w |}.

Definition keeps (u : string) (c : course) : bool := negb (String.eqb (url c) u).

(** What [_validate_url] demands of a parsed URL. *)
Definition acceptable (r : parse_result) : Prop :=
  (scheme r = "http" \/ scheme r = "https")
  /\ (exists a b, netloc r = (a ++ DOMAIN ++ b)%string)
  /\ (exists a b, path r = (a ++ "/cursos/" ++ b)%string)
  /\ (exists a, path r = (a ++ "/aulas")%string).


(** What [json.load] can hand to [_load_urls]. An item of an array is a
    string (the old format), an entry dict (of the shape [{url, title}] that
    [add_url] and the migration write), or something else. *)
Inductive raw_item : Type :=
| RawStr (s : string)
| RawDict (c : course)
| RawOther.

Inductive raw_file : Type :=
| RawList (items : list raw_item)     (* a JSON array *)
| RawObject (keys : list string)      (* a JSON object: iterating gives its keys *)
| RawString (s : string)              (* a JSON string: iterating gives its code points *)
| RawScalar                           (* number, boolean or null: not iterable *)
| RawGarbage.                         (* not JSON *)

(** [for c in s] on a [str]: its code points, one string each. In UTF-8 a
    code point is a first byte followed by its continuation bytes. *)
Fixpoint chars_of (s : string) : list string :=
  match s with
  | EmptyString => []
  | String a rest =>
      match chars_of rest with
      | point :: points =>
          if Text.starts_with_continuation rest then String a point :: points
          else String a EmptyString :: point :: points
      | [] => [String a EmptyString]
      end
  end.

(** [for item in data]: the items, or [None] when the loop cannot start. *)
Definition iterate (f : raw_file) : option (list raw_item) :=
  match f with
  | RawList items => Some items
  | RawObject keys => Some (map RawStr keys)
  | RawString s => Some (map RawStr (chars_of s))
  | RawScalar => None
  | RawGarbage => None
  end.

(** The migration loop of [_load_urls]: the entries, and [has_changes]. *)
Fixpoint migrate (items : list raw_item) : list course * bool :=
  match items with
  | [] => ([], false)
  | item :: rest =>
      let '(cs, changed) := migrate rest in
      match item with
      | RawStr s => ({| url := s; title := _extract_title_from_url s |} :: cs, true)
      | RawDict c => (c :: cs, changed)
      | RawOther => (cs, changed)
      end
  end.

(** [_load_urls] on the decoded content [file] of [course-urls.json] ([None]:
    no such file); [readable = false] stands for an [OSError]. *)
Definition _load_urls (io : io_outcome) (readable : bool) (file : option raw_file)
    (w : world) : list course * world :=
  match file with
  | None => ([], w)
  | Some f =>
      if readable then
        match iterate f with
        | Some items =>
            let '(cs, has_changes) := migrate items in
            (cs, if has_changes then _save_raw io cs w else w)
        | None => ([], w)
        end
      else ([], w)
  end.

(** What [json.load] gives for a file that [_save_raw] wrote. *)
Definition decode (f : urls_file) : raw_file :=
  match f with
  | UJson entries => RawList (map RawDict entries)
  | UGarbage => RawGarbage
  end.

(** [self.urls = self._load_urls()], as in [__init__], on the file at hand. *)
Definition load (io : io_outcome) (readable : bool) (w : world) : world :=
  let '(cs, w') := _load_urls io readable (decode <$> disk w !! URLS_FILE) w in
  {| urls := cs; disk := disk w'; writes := writes w' |}.

(** The invariant of the queue: no URL twice. *)
Definition unique_urls (cs : list course) : Prop := NoDup (map url cs).


(** The URL an item of the file stands for, if it is usable. *)
Definition item_url (item : raw_item) : option string :=
  match item with
  | RawStr s => Some s
  | RawDict c => Some (url c)
  | RawOther => None
  end.

Definition is_legacy (item : raw_item) : bool :=
  match item with
  | RawStr _ => true
  | _ => false
  end.



(** The mutating calls a client can make, each with the fate of its write. *)
Inductive op : Type :=
| AddUrl (u : string) (io : io_outcome)
| RemoveUrl (u : string) (io : io_outcome)
| ClearAll (io : io_outcome).

Definition step (L : pylib) (o : op) (w : world) : world :=
  match o with
  | AddUrl u io => snd (add_url L io u w)
  | RemoveUrl u io => snd (remove_url io u w)
  | ClearAll io => clear io w
  end.

Definition run (L : pylib) (ops : list op) (w : world) : world :=
  fold_left (fun acc o => step L o acc) ops w.

End CourseUrlManager.

(** ** [get_all] on the object graph

    [self.urls] names a list object whose items name the entry dicts; this is
    the level at which a caller can try to reach the manager's state through
    what [get_all] returned. *)

Module Heap.

Definition loc : Type := positive.

Record heap : Type := {
  dicts : gmap loc course;          (* the entry objects *)
  lists : gmap loc (list loc);      (* the list objects and their items *)
}.

(** The [CourseUrlManager] object: [urls_ref] is what [self.urls] names. *)
Record manager : Type := {
  urls_ref : loc;
}.

Definition items_of (h : heap) (l : loc) : list loc := default [] (lists h !! l).

(** What the manager holds, read through its own reference. *)
Definition snapshot (h : heap) (m : manager) : list course :=
  omap (fun l => dicts h !! l) (items_of h (urls_ref m)).

(** [get_all]: [self.urls.copy()] allocates a new list object with the same
    items. *)
Definition get_all (m : manager) (h : heap) : loc * heap :=
  let r := fresh (dom (lists h)) in
  (r, {| dicts := dicts h; lists := <[r := items_of h (urls_ref m)]> (lists h) |}).

(** What a caller can do with the returned list [r]. *)
Inductive mutation : Type :=
| ListSetContents (items : list loc)
    (* any in-place change of the list itself (append, pop, del, sort, slice
       assignment, ...), given by the contents it leaves *)
| EntrySetUrl (i : nat) (s : string)      (* [r[i]['url'] = s] *)
| EntrySetTitle (i : nat) (s : string).   (* [r[i]['title'] = s] *)

Definition is_list_mutation (mu : mutation) : bool :=
  match mu with
  | ListSetContents _ => true
  | _ => false
  end.

Definition set_url (s : string) (c : course) : course :=
  {| url := s; title := title c |}.
Definition set_title (s : string) (c : course) : course :=
  {| url := url c; title := s |}.

Definition update_entry (r : loc) (i : nat) (f : course -> course) (h : heap) : heap :=
  match items_of h r !! i with
  | Some l => {| dicts := alter f l (dicts h); lists := lists h |}
  | None => h   (* IndexError *)
  end.

Definition mutate (r : loc) (mu : mutation) (h : heap) : heap :=
  match mu with
  | ListSetContents items => {| dicts := dicts h; lists := <[r := items]> (lists h) |}
  | EntrySetUrl i s => update_entry r i (set_url s) h
  | EntrySetTitle i s => update_entry r i (set_title s) h
  end.

Definition mutate_all (r : loc) (mus : list mutation) (h : heap) : heap :=
  fold_left (fun acc mu => mutate r mu acc) mus h.

End Heap.

(** ** A model of CPython's [str.strip] and [urllib.parse.urlparse]

    Used to evaluate the queue operations on concrete URLs; the general
    results below hold for every [pylib]. [netloc_ok] stands for the
    validation of bracketed (IPv6) hosts and of non-ASCII hosts. *)

Module CPython.

Definition is_alpha (c : ascii) : bool := Text.is_lower c || Text.is_upper c.

Definition is_scheme_char (c : ascii) : bool :=
  is_alpha c || Text.is_digit c
  || Ascii.eqb c "+"%char || Ascii.eqb c "-"%char || Ascii.eqb c "."%char.

Fixpoint all_chars (p : ascii -> bool) (s : string) : bool :=
  match s with
  | EmptyString => true
  | String a rest => p a && all_chars p rest
  end.

Fixpoint filter_chars (p : ascii -> bool) (s : string) : string :=
  match s with
  | EmptyString => EmptyString
  | String a rest => if p a then String a (filter_chars p rest) else filter_chars p rest
  end.

(** [url.lstrip(_WHATWG_C0_CONTROL_OR_SPACE)] *)
Fixpoint lstrip_c0 (s : string) : string :=
  match s with
  | EmptyString => EmptyString
  | String a rest => if (Text.code a <=? 32)%nat then lstrip_c0 rest else s
  end.

Definition is_unsafe (c : ascii) : bool :=
  Ascii.eqb c "009"%char || Ascii.eqb c "013"%char || Ascii.eqb c "010"%char.

(** The scheme, lower-cased, and what follows its colon. *)
Definition split_scheme (u : string) : string * string :=
  match Text.find_char ":"%char u with
  | Some (S i) =>
      match u with
      | String first _ =>
          if is_alpha first && all_chars is_scheme_char (Text.take (S i) u)
          then (Text.lower (Text.take (S i) u), Text.drop (S (S i)) u)
          else (EmptyString, u)
      | EmptyString => (EmptyString, u)
      end
  | _ => (EmptyString, u)
  end.

(** The index of the first character of [s] that satisfies [p], else the
    length of [s]. *)
Fixpoint first_index (p : ascii -> bool) (s : string) : nat :=
  match s with
  | EmptyString => O
  | String a rest => if p a then O else S (first_index p rest)
  end.

Definition is_netloc_delim (c : ascii) : bool :=
  Ascii.eqb c "/"%char || Ascii.eqb c "?"%char || Ascii.eqb c "#"%char.

(** [_splitnetloc(url, 2)] when [url] starts with two slashes *)
Definition split_netloc (u : string) : string * string :=
  if String.prefix "//" u then
    let body := Text.drop 2 u in
    let n := first_index is_netloc_delim body in
    (Text.take n body, Text.drop n body)
  else (EmptyString, u).

(** [a, b = s.split(c, 1)] when [c] occurs in [s] *)
Definition split_once (c : ascii) (s : string) : string * string :=
  match Text.find_char c s with
  | Some i => (Text.take i s, Text.drop (S i) s)
  | None => (s, EmptyString)
  end.

Definition needs_check (netloc : string) : bool :=
  Text.has_char "["%char netloc || Text.has_char "]"%char netloc
  || negb (all_chars (fun c => (Text.code c <? 128)%nat) netloc).

Definition brackets_unbalanced (netloc : string) : bool :=
  xorb (Text.has_char "["%char netloc) (Text.has_char "]"%char netloc).

Definition uses_params : list string :=
  [""; "ftp"; "hdl"; "prospero"; "http"; "imap"; "https"; "shttp"; "rtsp";
   "rtsps"; "rtspu"; "sip"; "sips"; "mms"; "sftp"; "tel"].

(** The index of the last [c] in [s], if any *)
Fixpoint rfind_char (c : ascii) (s : string) : option nat :=
  match s with
  | EmptyString => None
  | String a rest =>
      match rfind_char c rest with
      | Some i => Some (S i)
      | None => if Ascii.eqb a c then Some O else None
      end
  end.

(** [_splitparams] *)
Definition split_params (u : string) : string * string :=
  let from := default O (rfind_char "/"%char u) in
  match Text.find_char ";"%char (Text.drop from u) with
  | Some i => (Text.take (from + i) u, Text.drop (S (from + i)) u)
  | None => (u, EmptyString)
  end.

Definition urlparse (netloc_ok : string -> bool) (u : string) : option parse_result :=
  let u := filter_chars (fun c => negb (is_unsafe c)) (lstrip_c0 u) in
  let '(sch, u) := split_scheme u in
  let '(net, u) := split_netloc u in
  if brackets_unbalanced net then None
  else if needs_check net && negb (netloc_ok net) then None
  else
    let '(u, frag) := split_once "#"%char u in
    let '(u, qry) := split_once "?"%char u in
    let '(p, prm) :=
      if bool_decide (sch ∈ uses_params) && Text.has_char ";"%char u
      then split_params u else (u, EmptyString) in
    Some {| scheme := sch; netloc := net; path := p;
            params := prm; query := qry; fragment := frag |}.

Definition lib (netloc_ok : string -> bool) : pylib :=
  Build_pylib Text.strip (urlparse netloc_ok).

(** The host of a network location without brackets, as [urlparse(...).hostname]
    computes it: what follows the last [@], up to the first colon. *)
Definition host_of (netloc : string) : string :=
  let after_at :=
    match rfind_char "@"%char netloc with
    | Some i => Text.drop (S i) netloc
    | None => netloc
    end in
  match Text.find_char ":"%char after_at with
  | Some i => Text.take i after_at
  | None => after_at
  end.

End CPython.


(** ** DownloadManager ([downloader.py]) *)

Module DownloadManager.

(** A processor, as the arguments its constructor was given. A [Path] is
    kept as the string it was built from. *)
Inductive processor : Type :=
| PDFProcessor (base_dir : string) (pdf_type : value)
| VideoProcessor (base_dir : string) (preferred_resolution : value)
    (download_extras : value) (skip_video : bool).

(** The calls the orchestrator makes on its collaborators, in order. An event
    records that the call was made, whatever its outcome. *)
Inductive event : Type :=
| OpenSession                                   (* [aiohttp.ClientSession(...)] *)
| StartPlaywright                               (* [async_playwright().start()] *)
| LaunchBrowser (headless : value)              (* [playwright.chromium.launch] *)
| NewContext                                    (* [browser.new_context] *)
| NewPage                                       (* [context.new_page()] *)
| Login (email : value)                         (* [auth.ensure_logged_in(page)] *)
| CourseStarted (i : nat) (c : course)          (* the banner of course [i] *)
| Construct (p : processor)                     (* a processor constructor *)
| RequestCancel (p : processor)                 (* [processor.request_cancel()] *)
| ProcessCourse (p : processor) (course_url : string)
| ProgressCallback (i total : nat)              (* [progress_callback(i / total)] *)
| FinalReport (succeeded failed total : nat)
| CloseSession                                  (* [session.close()] *)
| CloseContext                                  (* [context.close()] *)
| StopPlaywright.                               (* [playwright.stop()] *)

(** The collaborators: [None] means the call returned, [Some e] that it
    raised [e]. *)
Record env : Type := {
  config_env : ConfigManager.env;
  url_manager : CourseUrlManager.world;
  open_session : option exn;
  start_playwright : option exn;
  launch_browser : option exn;
  new_context : option exn;
  new_page : option exn;
  ensure_logged_in : option exn;
  (* is the cancel flag set when course [i] reaches checkpoint [k]?
     0: top of the loop, 1: before the primary processor, 2: before extras *)
  cancel_requested : nat -> nat -> bool;
  construct : nat -> processor -> option exn;
  run_processor : nat -> processor -> string -> res bool;
  progress_callback : option (nat -> nat -> option exn);
  close_session : option exn;
  close_context : option exn;
  stop_playwright : option exn;
}.

(** [self.config] and the local variables of [start_downloads]. *)
Record state : Type := {
  cfg : ConfigManager.world;
  trace : list event;
  session : bool;       (* is [session] set? *)
  playwright : bool;    (* is [playwright] set? *)
  context : bool;       (* is [context] set? *)
  success_count : nat;
  failed_count : nat;
}.

Definition init (w : ConfigManager.world) : state :=
  {| cfg := w; trace := []; session := false; playwright := false;
     context := false; success_count := 0; failed_count := 0 |}.

Definition M : Type -> Type := SE.M state.

Definition lift_cfg {A} (m : SE.M ConfigManager.world A) : M A :=
  fun s =>
    let '(r, w) := m (cfg s) in
    (r, {| cfg := w; trace := trace s; session := session s;
           playwright := playwright s; context := context s;
           success_count := success_count s; failed_count := failed_count s |}).

Definition emit (ev : event) : M unit :=
  SE.modify (fun s =>
    {| cfg := cfg s; trace := trace s ++ [ev]; session := session s;
       playwright := playwright s; context := context s;
       success_count := success_count s; failed_count := failed_count s |}).

Definition outcome (o : option exn) : M unit :=
  match o with
  | None => SE.ret tt
  | Some e => SE.raise e
  end.

(** A call on a collaborator: recorded, then it returns or raises. *)
Definition call (ev : event) (o : option exn) : M unit :=
  (emit ev ;;; outcome o)%se.

Definition set_session : M unit :=
  SE.modify (fun s =>
    {| cfg := cfg s; trace := trace s; session := true;
       playwright := playwright s; context := context s;
       success_count := success_count s; failed_count := failed_count s |}).
Definition set_playwright : M unit :=
  SE.modify (fun s =>
    {| cfg := cfg s; trace := trace s; session := session s;
       playwright := true; context := context s;
       success_count := success_count s; failed_count := failed_count s |}).
Definition set_context : M unit :=
  SE.modify (fun s =>
    {| cfg := cfg s; trace := trace s; session := session s;
       playwright := playwright s; context := true;
       success_count := success_count s; failed_count := failed_count s |}).
Definition count_success : M unit :=
  SE.modify (fun s =>
    {| cfg := cfg s; trace := trace s; session := session s;
       playwright := playwright s; context := context s;
       success_count := S (success_count s); failed_count := failed_count s |}).
Definition count_failure : M unit :=
  SE.modify (fun s =>
    {| cfg := cfg s; trace := trace s; session := session s;
       playwright := playwright s; context := context s;
       success_count := success_count s; failed_count := S (failed_count s) |}).

(** [Path(v)]: a [TypeError] unless [v] is a string. *)
Definition as_path (v : value) : M string :=
  match v with
  | VStr p => SE.ret p
  | _ => SE.raise ExException
  end.

(** [_health_check] *)
Definition _health_check (E : env) : M bool :=
  SE.try_except
    (r <- lift_cfg (ConfigManager.validate (config_env E)) ;;
     SE.ret (fst r))%se
    (SE.ret false).

(** [_launch_browser] *)
Definition _launch_browser (E : env) : M unit :=
  (headless <- lift_cfg (ConfigManager.config_get "headless" (VBool false)) ;;
   call (LaunchBrowser headless) (launch_browser E) ;;;
   call NewContext (new_context E))%se.

(** [_perform_authentication] *)
Definition _perform_authentication (E : env) : M unit :=
  (email <- lift_cfg (ConfigManager.config_get "email" VNone) ;;
   password <- lift_cfg (ConfigManager.get_password (config_env E)) ;;
   if negb (Py.truthy email) || ConfigManager.password_missing password
   then SE.raise ExException
   else call (Login email) (ensure_logged_in E))%se.

(** [_create_pdf_processor] *)
Definition _create_pdf_processor (E : env) (i : nat) : M processor :=
  (folder <- lift_cfg (ConfigManager.get ["pdfConfig"; "pastaDownloads"] VNone) ;;
   base_dir <- as_path folder ;;
   pdf_type <- lift_cfg (ConfigManager.get ["pdfConfig"; "pdfType"] (VNum 2)) ;;
   let p := PDFProcessor base_dir pdf_type in
   call (Construct p) (construct E i p) ;;;
   SE.ret p)%se.

(** [_create_video_processor] *)
Definition _create_video_processor (E : env) (i : nat) : M processor :=
  (folder <- lift_cfg (ConfigManager.get ["videoConfig"; "pastaDownloads"] VNone) ;;
   base_dir <- as_path folder ;;
   resolution <-
     lift_cfg (ConfigManager.get ["videoConfig"; "resolucaoEscolhida"] (VStr "720p")) ;;
   download_extras <-
     lift_cfg (ConfigManager.get ["videoConfig"; "baixarExtras"] (VBool true)) ;;
   let p := VideoProcessor base_dir resolution download_extras false in
   call (Construct p) (construct E i p) ;;;
   SE.ret p)%se.

(** [_create_video_processor_for_extras] *)
Definition _create_video_processor_for_extras (E : env) (i : nat) : M processor :=
  (folder <- lift_cfg (ConfigManager.get ["pdfConfig"; "pastaDownloads"] VNone) ;;
   base_dir <- as_path folder ;;
   let p := VideoProcessor base_dir (VStr "360p") (VBool true) true in
   call (Construct p) (construct E i p) ;;;
   SE.ret p)%se.

(** [await processor.process_course(page, course_url)] *)
Definition process_with (E : env) (i : nat) (p : processor) (course_url : string)
    : M bool :=
  (emit (ProcessCourse p course_url) ;;;
   match run_processor E i p course_url with
   | Ret b => SE.ret b
   | Raise e => SE.raise e
   end)%se.

Definition propagate_cancel (E : env) (i k : nat) (p : processor) : M unit :=
  if cancel_requested E i k then emit (RequestCancel p) else SE.ret tt.

(** The [try] block of [_process_course]. *)
Definition process_course_body (E : env) (i : nat) (course_url : string)
    (download_type : value) : M bool :=
  (processor <-
     (if Py.str_eq download_type "pdf" then _create_pdf_processor E i
      else _create_video_processor E i) ;;
   propagate_cancel E i 1 processor ;;;
   success <- process_with E i processor course_url ;;
   (if success && Py.str_eq download_type "pdf" then
      (baixar_extras <-
         lift_cfg (ConfigManager.get ["pdfConfig"; "baixarExtrasComPdf"] (VBool false)) ;;
       if Py.truthy baixar_extras then
         (video_processor <- _create_video_processor_for_extras E i ;;
          propagate_cancel E i 2 video_processor ;;;
          _ <- process_with E i video_processor course_url ;;
          SE.ret tt)
       else SE.ret tt)
    else SE.ret tt) ;;;
   SE.ret success)%se.

(** [except asyncio.CancelledError: return False] and
    [except Exception: return False]. *)
Definition returning_false_on_error (body : M bool) : M bool :=
  fun s =>
    match body s with
    | (Ret b, s') => (Ret b, s')
    | (Raise _, s') => (Ret false, s')
    end.

(** [_process_course] *)
Definition _process_course (E : env) (i : nat) (course_url : string) : M bool :=
  (download_type <- lift_cfg (ConfigManager.config_get "downloadType" (VStr "pdf")) ;;
   returning_false_on_error (process_course_body E i course_url download_type))%se.

(** Run [m] and hand its result, returned or raised, to the caller. *)
Definition attempt {A} (m : M A) : M (res A) :=
  fun s => let '(r, s') := m s in (Ret r, s').

(** The progress callback of one iteration: [except Exception] logs, a
    [CancelledError] leaves the loop as an exception. *)
Definition report_progress (E : env) (i total : nat) : M unit :=
  match progress_callback E with
  | None => SE.ret tt
  | Some callback =>
      SE.try_except (call (ProgressCallback i total) (callback i total)) (SE.ret tt)
  end.

(** The [for] loop of [start_downloads] from course [i] on. *)
Fixpoint process_queue (E : env) (total i : nat) (courses : list course) : M unit :=
  match courses with
  | [] => SE.ret tt
  | c :: rest =>
      if cancel_requested E i 0 then SE.ret tt                  (* break *)
      else
        (emit (CourseStarted i c) ;;;
         r <- attempt (_process_course E i (url c)) ;;
         match r with
         | Ret true =>
             count_success ;;;
             report_progress E i total ;;;
             process_queue E total (S i) rest
         | Ret false =>
             count_failure ;;;
             report_progress E i total ;;;
             process_queue E total (S i) rest
         | Raise e =>
             if is_Exception e then
               (count_failure ;;;
                report_progress E i total ;;;
                process_queue E total (S i) rest)
             else SE.ret tt                                      (* break *)
         end)%se
  end.

(** Lines 102-113: the shared session, the browser, the page and the login. *)
Definition acquire_and_login (E : env) : M unit :=
  (call OpenSession (open_session E) ;;;
   set_session ;;;
   call StartPlaywright (start_playwright E) ;;;
   set_playwright ;;;
   _launch_browser E ;;;
   set_context ;;;
   call NewPage (new_page E) ;;;
   _perform_authentication E)%se.

(** The final report and [return failed_count == 0]. *)
Definition report_and_return (total : nat) : M bool :=
  fun s =>
    (Ret (failed_count s =? 0)%nat,
     snd (emit (FinalReport (success_count s) (failed_count s) total) s)).

(** The [try] block of [start_downloads]. *)
Definition run_body (E : env) (courses : list course) : M bool :=
  (acquire_and_login E ;;;
   process_queue E (length courses) 1 courses ;;;
   report_and_return (length courses))%se.

(** The three [except] clauses of [start_downloads]: each returns [False]. *)
Definition returning_false_on_any (body : M bool) : M bool :=
  fun s =>
    match body s with
    | (Ret b, s') => (Ret b, s')
    | (Raise ExCancelled, s') => (Ret false, s')
    | (Raise ExPlaywright, s') => (Ret false, s')
    | (Raise ExException, s') => (Ret false, s')
    end.

(** The [finally] block. *)
Definition cleanup (E : env) : M unit :=
  (has_session <- SE.gets session ;;
   (if has_session : bool then call CloseSession (close_session E) else SE.ret tt) ;;;
   has_context <- SE.gets context ;;
   (if has_context : bool then
      SE.try_except (call CloseContext (close_context E)) (SE.ret tt)
    else SE.ret tt) ;;;
   has_playwright <- SE.gets playwright ;;
   (if has_playwright : bool then
      SE.try_except (call StopPlaywright (stop_playwright E)) (SE.ret tt)
    else SE.ret tt))%se.

(** [try: body finally: fin]: [fin] always runs; if it raises, its exception
    replaces the outcome of [body]. *)
Definition try_finally {A} (body : M A) (fin : M unit) : M A :=
  fun s =>
    let '(r, s') := body s in
    match fin s' with
    | (Ret _, s'') => (r, s'')
    | (Raise e, s'') => (Raise e, s'')
    end.

(** [start_downloads] *)
Definition start_downloads (E : env) : M bool :=
  (healthy <- _health_check E ;;
   if negb healthy then SE.ret false
   else
     let course_urls := CourseUrlManager.get_all (url_manager E) in
     match course_urls with
     | [] => SE.ret false
     | _ :: _ =>
         try_finally (returning_false_on_any (run_body E course_urls)) (cleanup E)
     end)%se.

(** Observations on a trace. *)
Definition is_acquisition (ev : event) : bool :=
  match ev with
  | OpenSession | StartPlaywright | LaunchBrowser _ | NewContext | NewPage => true
  | _ => false
  end.

Definition started_index (ev : event) : option nat :=
  match ev with
  | CourseStarted i _ => Some i
  | _ => None
  end.

(** The courses that were attempted, by their 1-based position. *)
Definition attempted (tr : list event) : list nat := omap started_index tr.

Definition is_video_event (ev : event) : bool :=
  match ev with
  | Construct (VideoProcessor _ _ _ _) => true
  | ProcessCourse (VideoProcessor _ _ _ _) _ => true
  | _ => false
  end.

Definition is_cleanup (ev : event) : bool :=
  match ev with
  | CloseSession | CloseContext | StopPlaywright => true
  | _ => false
  end.

(** Does [_process_course] fail for course [i] (return [False] or raise)? *)
Definition course_fails (E : env) (w : ConfigManager.world) (i : nat) (c : course)
    : bool :=
  match fst (_process_course E i (url c) (init w)) with
  | Ret true => false
  | _ => true
  end.

(** The 1-based positions, from [i] on, of the courses that fail. *)
Fixpoint failing_from (E : env) (w : ConfigManager.world) (i : nat)
    (courses : list course) : list nat :=
  match courses with
  | [] => []
  | c :: rest =>
      (if course_fails E w i c then [i] else []) ++ failing_from E w (S i) rest
  end.

(** Processing course [i] throws: [process_course] raises, whichever
    processor was built for it. *)
Definition processor_raises (E : env) (i : nat) (c : course) : Prop :=
  forall p, exists e, run_processor E i p (url c) = Raise e.

(** No cancellation: the flag is never seen set at the top of the loop, and
    the progress callback raises no [CancelledError]. *)
Definition no_cancellation (E : env) : Prop :=
  (forall i, cancel_requested E i 0 = false)
  /\ (forall callback i total e,
        progress_callback E = Some callback ->
        callback i total = Some e -> is_Exception e = true).

(** The state with more events on its trace and nothing else changed. *)
Definition add_trace (tr : list event) (s : state) : state :=
  {| cfg := cfg s; trace := trace s ++ tr; session := session s;
     playwright := playwright s; context := context s;
     success_count := success_count s; failed_count := failed_count s |}.

(** What a computation does from a fresh state over configuration [w]: its
    result and the events it records. *)
Definition effect {A} (m : M A) (w : ConfigManager.world) : res A * list event :=
  (fst (m (init w)), trace (snd (m (init w)))).

(** A step of the run that only reads the configuration and calls
    collaborators: its result and the events it records are a function of the
    configuration, none of the events starts a course, and the rest of the
    state is untouched. *)
Definition is_step {A} (m : M A) : Prop :=
  (forall s, m s = (fst (effect m (cfg s)), add_trace (snd (effect m (cfg s))) s))
  /\ (forall w, attempted (snd (effect m w)) = []).

(** A computation that leaves the configuration and the two counters alone
    and starts no course. *)
Definition quiet {A} (m : M A) : Prop :=
  forall s, exists tr,
    cfg (snd (m s)) = cfg s
    /\ success_count (snd (m s)) = success_count s
    /\ failed_count (snd (m s)) = failed_count s
    /\ trace (snd (m s)) = trace s ++ tr
    /\ attempted tr = [].

(** The [finally] block returns when none of its steps raises something its
    own handler lets through. *)
Definition cleanup_returns (E : env) : Prop :=
  close_session E = None
  /\ (forall e, close_context E = Some e -> is_Exception e = true)
  /\ (forall e, stop_playwright E = Some e -> is_Exception e = true).

(** The calls the [finally] block makes from state [s]. *)
Definition closing (s : state) : list event :=
  (if session s then [CloseSession] else [])
  ++ (if context s then [CloseContext] else [])
  ++ (if playwright s then [StopPlaywright] else []).

(** The progress callback raises nothing but [Exception]s. *)
Definition callback_is_benign (E : env) : Prop :=
  forall callback i total e,
    progress_callback E = Some callback ->
    callback i total = Some e -> is_Exception e = true.

(** The section of the configuration a kind takes its folder from. *)
Definition folder_section (download_type : value) : string :=
  if Py.str_eq download_type "pdf" then "pdfConfig" else "videoConfig".

End DownloadManager.

(** ** Sample data for concrete runs *)

Module Sample.

Definition email : string := "ana@example.org".

Definition cfg_env : ConfigManager.env :=
  {| ConfigManager.home := "/home/ana";
     ConfigManager.decrypt := fun token => Some ("plain:" ++ token)%string;
     ConfigManager.keyring_up := true;
     ConfigManager.path_parent := fun _ => "/home/ana/Downloads";
     ConfigManager.dir_exists := fun _ => Some true |}.

Definition configure (keys : list string) (v : value) (w : ConfigManager.world)
    : ConfigManager.world :=
  snd (ConfigManager.set keys v w).

(** The default configuration, a stored credential, and the e-mail set. *)
Definition ready : ConfigManager.world :=
  configure ["email"] (VStr email)
    {| ConfigManager.config := ConfigManager._get_default_config cfg_env;
       ConfigManager.disk := ∅;
       ConfigManager.keyring := {[ (ConfigManager.SERVICE_NAME, email) := "token" ]} |}.

(** [ready] with the extras flag of the default configuration switched on. *)
Definition flagged : ConfigManager.world :=
  configure ["pdfConfig"; "baixarMateriaisDeVideo"] (VBool true) ready.

(** [ready] with the key that [_process_course] reads switched on. *)
Definition code_key : ConfigManager.world :=
  configure ["pdfConfig"; "baixarExtrasComPdf"] (VBool true) ready.

Definition course_at (slug : string) : course :=
  {| url := ("https://www.estrategiaconcursos.com.br/cursos/" ++ slug ++ "/aulas")%string;
     title := slug |}.

Definition three_courses : list course :=
  [course_at "penal"; course_at "civil"; course_at "tributario"].

Definition queue_of (courses : list course) : CourseUrlManager.world :=
  {| CourseUrlManager.urls := courses; CourseUrlManager.disk := ∅;
     CourseUrlManager.writes := [] |}.

(** Collaborators that all succeed, except as [run] and [close] say. *)
Definition env_with (courses : list course)
    (run : nat -> DownloadManager.processor -> string -> res bool)
    (close : option exn) : DownloadManager.env :=
  {| DownloadManager.config_env := cfg_env;
     DownloadManager.url_manager := queue_of courses;
     DownloadManager.open_session := None;
     DownloadManager.start_playwright := None;
     DownloadManager.launch_browser := None;
     DownloadManager.new_context := None;
     DownloadManager.new_page := None;
     DownloadManager.ensure_logged_in := None;
     DownloadManager.cancel_requested := fun _ _ => false;
     DownloadManager.construct := fun _ _ => None;
     DownloadManager.run_processor := run;
     DownloadManager.progress_callback := None;
     DownloadManager.close_session := close;
     DownloadManager.close_context := None;
     DownloadManager.stop_playwright := None |}.

Definition all_succeed : nat -> DownloadManager.processor -> string -> res bool :=
  fun _ _ _ => Ret true.

(** Only the second course throws. *)
Definition second_throws : nat -> DownloadManager.processor -> string -> res bool :=
  fun i _ _ => if (i =? 2)%nat then Raise ExException else Ret true.

(** A URL whose host is foreign but whose network location carries the
    platform domain in its user-info part. *)
Definition foreign_host_url : string :=
  "https://estrategiaconcursos.com.br@evil.example/cursos/direito-penal/aulas".

Definition platform_url : string :=
  "  https://www.estrategiaconcursos.com.br/app/dashboard/cursos/direito-penal-4521/aulas ".

Definition empty_queue : CourseUrlManager.world :=
  {| CourseUrlManager.urls := []; CourseUrlManager.disk := ∅;
     CourseUrlManager.writes := [] |}.

Definition penal : course :=
  {| url := "https://www.estrategiaconcursos.com.br/cursos/direito-penal/aulas";
     title := "Direito Penal" |}.

(** A manager whose queue holds one entry: entry object 1, list object 2. *)
Definition one_entry_heap : Heap.heap :=
  {| Heap.dicts := {[ 1%positive := penal ]};
     Heap.lists := {[ 2%positive := [1%positive] ]} |}.
Definition the_manager : Heap.manager := {| Heap.urls_ref := 2%positive |}.

(** A first start: the default configuration, no file, no credential. *)
Definition blank : ConfigManager.world :=
  {| ConfigManager.config := ConfigManager._get_default_config cfg_env;
     ConfigManager.disk := ∅;
     ConfigManager.keyring := ∅ |}.

(** [ready] switched to video downloads. *)
Definition video_kind : ConfigManager.world :=
  configure ["downloadType"] (VStr "video") ready.

(** [ready] with the PDF folder set to [null]. *)
Definition no_folder : ConfigManager.world :=
  configure ["pdfConfig"; "pastaDownloads"] VNone ready.

(** Collaborators that all succeed, except that the login raises. *)
Definition env_login_fails (courses : list course) : DownloadManager.env :=
  {| DownloadManager.config_env := cfg_env;
     DownloadManager.url_manager := queue_of courses;
     DownloadManager.open_session := None;
     DownloadManager.start_playwright := None;
     DownloadManager.launch_browser := None;
     DownloadManager.new_context := None;
     DownloadManager.new_page := None;
     DownloadManager.ensure_logged_in := Some ExException;
     DownloadManager.cancel_requested := fun _ _ => false;
     DownloadManager.construct := fun _ _ => None;
     DownloadManager.run_processor := all_succeed;
     DownloadManager.progress_callback := None;
     DownloadManager.close_session := None;
     DownloadManager.close_context := None;
     DownloadManager.stop_playwright := None |}.

(** Collaborators that all succeed, with the cancel flag seen set when
    course [k] is about to start. *)
Definition env_cancelled_at (k : nat) (courses : list course) : DownloadManager.env :=
  {| DownloadManager.config_env := cfg_env;
     DownloadManager.url_manager := queue_of courses;
     DownloadManager.open_session := None;
     DownloadManager.start_playwright := None;
     DownloadManager.launch_browser := None;
     DownloadManager.new_context := None;
     DownloadManager.new_page := None;
     DownloadManager.ensure_logged_in := None;
     DownloadManager.cancel_requested := fun i checkpoint => (i =? k)%nat && (checkpoint =? 0)%nat;
     DownloadManager.construct := fun _ _ => None;
     DownloadManager.run_processor := all_succeed;
     DownloadManager.progress_callback := None;
     DownloadManager.close_session := None;
     DownloadManager.close_context := None;
     DownloadManager.stop_playwright := None |}.

(** A ledger with nothing marked and nothing on disk. *)
Definition fresh_ledger : ProgressManager.world :=
  {| ProgressManager.progress := ∅; ProgressManager.disk := ∅ |}.

End Sample.


(** * Properties *)

(** ** The monad: read-only computations *)

Lemma read_only_ret {S A} (a : A) : SE.read_only (@SE.ret S A a).
Proof. intros s. reflexivity. Qed.

Lemma read_only_raise {S A} (e : exn) : SE.read_only (@SE.raise S A e).
Proof. intros s. reflexivity. Qed.

Lemma read_only_gets {S A} (f : S -> A) : SE.read_only (SE.gets f).
Proof. intros s. reflexivity. Qed.

Lemma read_only_bind {S A B} (m : SE.M S A) (k : A -> SE.M S B) :
  SE.read_only m -> (forall a, SE.read_only (k a)) -> SE.read_only (SE.bind m k).
Proof.
  intros Hm Hk s. unfold SE.bind. specialize (Hm s).
  destruct (m s) as [[a|e] s']; simpl in *; subst s'.
  - apply Hk.
  - reflexivity.
Qed.

Lemma read_only_try_except {S A} (body handler : SE.M S A) :
  SE.read_only body -> SE.read_only handler -> SE.read_only (SE.try_except body handler).
Proof.
  intros Hb Hh s. unfold SE.try_except. specialize (Hb s).
  destruct (body s) as [[a|e] s']; simpl in *; subst s'.
  - reflexivity.
  - destruct (is_Exception e); [apply Hh | reflexivity].
Qed.

Create HintDb ro discriminated.
#[export] Hint Resolve read_only_ret read_only_raise read_only_gets
  read_only_try_except : ro.

(** ** ConfigManager *)

Section ConfigFacts.

Import ConfigManager.
Variable E : env.

Lemma read_only_config_get k d : SE.read_only (config_get k d).
Proof. intros w. unfold config_get. destruct (config w); reflexivity. Qed.

Lemma read_only_get keys d : SE.read_only (get keys d).
Proof. apply read_only_gets. Qed.

Lemma read_only_keyring_get_password user : SE.read_only (keyring_get_password E user).
Proof.
  intros w. unfold keyring_get_password.
  destruct user; try reflexivity. destruct (keyring_up E); reflexivity.
Qed.

Lemma read_only_get_password : SE.read_only (get_password E).
Proof.
  unfold get_password.
  apply read_only_bind; [apply read_only_config_get | intros email].
  destruct (negb (Py.truthy email)); [apply read_only_ret |].
  apply read_only_try_except; [| apply read_only_ret].
  apply read_only_bind; [apply read_only_keyring_get_password | intros [c|]].
  - destruct (Text.is_empty c); [apply read_only_ret |].
    destruct (decrypt E c); auto with ro.
  - apply read_only_ret.
Qed.

Lemma read_only_contains_at email : SE.read_only (contains_at email).
Proof. destruct email; simpl; auto with ro. Qed.

Lemma read_only_validate : SE.read_only (validate E).
Proof.
  unfold validate.
  apply read_only_bind; [apply read_only_config_get | intros email].
  apply read_only_bind.
  { destruct (negb (Py.truthy email)); [apply read_only_ret |].
    apply read_only_bind; [apply read_only_contains_at | intros b].
    apply read_only_ret. }
  intros e_email.
  apply read_only_bind; [apply read_only_get_password | intros pw].
  apply read_only_bind; [apply read_only_config_get | intros dt].
  apply read_only_bind; [apply read_only_get | intros pdf].
  apply read_only_bind; [apply read_only_get | intros video].
  apply read_only_ret.
Qed.

Lemma get_from_descend v pre v' rest d :
  descend v pre = Some v' ->
  get_from v (pre ++ rest) d = get_from v' rest d.
Proof.
  revert v. induction pre as [|k pre IH]; intros v H; simpl in *.
  - congruence.
  - destruct v; try discriminate.
    unfold Py.dict_get. destruct (Py.lookup entries k) as [x|]; [|discriminate].
    apply IH, H.
Qed.

Lemma get_from_default_not_dict d ks :
  Py.is_dict d = false -> get_from d ks d = d.
Proof. intros H. destruct ks; [reflexivity|]. destruct d; try reflexivity; discriminate. Qed.

(** C8: when [get] reaches a mapping that lacks the next key it puts the
    default [d] in its place and keeps walking the remaining keys through [d]:
    with a [d] that is not a mapping the result is [d]; with a [d] that is a
    mapping holding the key after the missing one, the result is read from
    inside [d]; and [get] returns (never raises) for every path, default and
    state. *)
Theorem get_substitutes_default_and_continues
    (w : world) (pre : list string) (entries : list (string * value))
    (k : string) (ks : list string) (d : value) :
  descend (config w) pre = Some (VDict entries) ->
  Py.lookup entries k = None ->
  fst (get (pre ++ k :: ks) d w) = Ret (get_from d ks d)
  /\ (Py.is_dict d = false -> fst (get (pre ++ k :: ks) d w) = Ret d)
  /\ (forall sub k' ks' v,
        d = VDict sub -> ks = k' :: ks' -> Py.lookup sub k' = Some v ->
        fst (get (pre ++ k :: ks) d w) = Ret (get_from v ks' d))
  /\ (forall keys' d' w', exists v, get keys' d' w' = (Ret v, w')).
Proof.
  intros Hwalk Hmiss.
  assert (Hcont : fst (get (pre ++ k :: ks) d w) = Ret (get_from d ks d)).
  { unfold get, SE.gets. simpl. f_equal.
    rewrite (get_from_descend _ _ _ _ _ Hwalk). simpl.
    unfold Py.dict_get. rewrite Hmiss. reflexivity. }
  split; [exact Hcont|]. split; [|split].
  - intros Hd. rewrite Hcont. f_equal. apply get_from_default_not_dict, Hd.
  - intros sub k' ks' v -> -> Hin. rewrite Hcont. simpl.
    unfold Py.dict_get. rewrite Hin. reflexivity.
  - intros keys' d' w'. eexists. reflexivity.
Qed.

(** C10: [validate] is a read-only check: whatever the state (valid or not,
    even one on which it raises), the configuration mapping, the files on disk
    and the keyring are the same after it as before, however many times it is
    called. *)
Theorem validate_leaves_state_unchanged (w : world) (n : nat) :
  snd (validate E w) = w
  /\ config (snd (validate E w)) = config w
  /\ disk (snd (validate E w)) !! CONFIG_FILE = disk w !! CONFIG_FILE
  /\ snd (validate_times E n w) = w.
Proof.
  pose proof (read_only_validate w) as Hv.
  repeat split; try (rewrite Hv; reflexivity).
  revert w Hv. induction n as [|n IH]; intros w Hv; simpl.
  - reflexivity.
  - rewrite (read_only_validate w). apply IH, read_only_validate.
Qed.

(** [set] and [save_config] are the operations that do change the state. *)
Example set_changes_the_configuration :
  let w := {| config := VDict []; disk := ∅; keyring := ∅ |} in
  config (snd (set ["pdfConfig"; "pdfType"] (VNum 3) w))
  = VDict [("pdfConfig", VDict [("pdfType", VNum 3)])].
Proof. reflexivity. Qed.

End ConfigFacts.

(** A path on which the default is a mapping: the result comes from inside
    the default. *)
Lemma get_substitutes_default_and_continues_witness :
  let w := {| ConfigManager.config := VDict [("email", VStr "ana@example.org")];
              ConfigManager.disk := ∅; ConfigManager.keyring := ∅ |} in
  let d := VDict [("pastaDownloads", VStr "inside-default")] in
  ConfigManager.descend (ConfigManager.config w) [] = Some (VDict [("email", VStr "ana@example.org")])
  /\ Py.lookup [("email", VStr "ana@example.org")] "pdfConfig" = None
  /\ fst (ConfigManager.get ([] ++ ["pdfConfig"; "pastaDownloads"]) d w)
     = Ret (VStr "inside-default").
Proof.
  intros w d.
  split; [reflexivity|]. split; [reflexivity|].
  exact (proj1 (get_substitutes_default_and_continues w []
                  [("email", VStr "ana@example.org")] "pdfConfig"
                  ["pastaDownloads"] d eq_refl eq_refl)).
Defined.

(** ** ProgressManager *)

Section ProgressFacts.

Import ProgressManager.










End ProgressFacts.



(** ** Text: what the tests on strings mean *)

Section TextFacts.

Local Open Scope string_scope.

Lemma prefix_spec (n h : string) :
  String.prefix n h = true <-> exists b, h = n ++ b.
Proof.
  revert h. induction n as [|c n IH]; intros h.
  - split; [intros _; exists h; reflexivity | intros _; destruct h; reflexivity].
  - destruct h as [|c' h]; simpl.
    + split; [discriminate | intros [b Hb]; discriminate].
    + destruct (Ascii.ascii_dec c c') as [->|Hne].
      * rewrite IH. split; intros [b Hb]; exists b; [rewrite Hb; reflexivity|].
        simpl in Hb. injection Hb as Hb. exact Hb.
      * split; [discriminate | intros [b Hb]; simpl in Hb].
        injection Hb as Hc _. exfalso. apply Hne. symmetry. exact Hc.
Qed.

Lemma contains_spec (n h : string) :
  Text.contains n h = true <-> exists a b, h = a ++ n ++ b.
Proof.
  induction h as [|c h IH].
  - cbn [Text.contains]. rewrite orb_false_r, prefix_spec. split.
    + intros [b Hb]. exists EmptyString, b. exact Hb.
    + intros [a [b Hab]]. destruct a; simpl in Hab; [exists b; exact Hab | discriminate].
  - cbn [Text.contains]. rewrite orb_true_iff, prefix_spec, IH. split.
    + intros [[b Hb] | [a [b Hab]]].
      * exists EmptyString, b. exact Hb.
      * exists (String c a), b. simpl. rewrite Hab. reflexivity.
    + intros [a [b Hab]]. destruct a as [|c' a]; simpl in Hab.
      * left. exists b. exact Hab.
      * right. injection Hab as _ Hab. exists a, b. exact Hab.
Qed.

Lemma to_list_app (a b : string) :
  Text.to_list (a ++ b) = (Text.to_list a ++ Text.to_list b)%list.
Proof. induction a as [|c a IH]; simpl; [reflexivity | rewrite IH; reflexivity]. Qed.

Lemma of_list_app (l1 l2 : list ascii) :
  Text.of_list (l1 ++ l2)%list = Text.of_list l1 ++ Text.of_list l2.
Proof. induction l1 as [|c l1 IH]; simpl; [reflexivity | rewrite IH; reflexivity]. Qed.

Lemma reverse_app (a b : string) :
  Text.reverse (a ++ b) = Text.reverse b ++ Text.reverse a.
Proof.
  unfold Text.reverse. rewrite to_list_app, rev_app_distr, of_list_app. reflexivity.
Qed.

Lemma reverse_involutive (s : string) : Text.reverse (Text.reverse s) = s.
Proof.
  unfold Text.reverse, Text.to_list, Text.of_list.
  rewrite list_ascii_of_string_of_list_ascii, rev_involutive.
  apply string_of_list_ascii_of_string.
Qed.

Lemma endswith_spec (s suffix : string) :
  Text.endswith s suffix = true <-> exists a, s = a ++ suffix.
Proof.
  unfold Text.endswith. rewrite prefix_spec. split.
  - intros [b Hb]. exists (Text.reverse b).
    rewrite <- (reverse_involutive s), Hb, reverse_app, reverse_involutive.
    reflexivity.
  - intros [a ->]. exists (Text.reverse a). apply reverse_app.
Qed.

End TextFacts.

(** ** CourseUrlManager *)

Section QueueFacts.

Import CourseUrlManager.

Lemma filter_shorter_iff {A} (f : A -> bool) (l : list A) :
  (length (List.filter f l) <? length l)%nat = existsb (fun x => negb (f x)) l.
Proof.
  induction l as [|x l IH]; simpl; [reflexivity|].
  destruct (f x); simpl.
  - exact IH.
  - pose proof (List.filter_length_le f l) as Hle.
    apply Nat.ltb_lt. lia.
Qed.

Lemma filter_all_kept {A} (f : A -> bool) (l : list A) :
  existsb (fun x => negb (f x)) l = false -> List.filter f l = l.
Proof.
  induction l as [|x l IH]; simpl; [reflexivity|].
  intros H. apply orb_false_elim in H as [Hx Hl].
  apply negb_false_iff in Hx. rewrite Hx, IH; [reflexivity | exact Hl].
Qed.

Lemma filter_is_sublist {A} (f : A -> bool) (l : list A) :
  sublist (List.filter f l) l.
Proof.
  induction l as [|x l IH]; simpl; [constructor|].
  destruct (f x); [apply sublist_skip | apply sublist_cons]; exact IH.
Qed.

Lemma has_url_iff u cs : has_url u cs = true <-> exists c, c ∈ cs /\ url c = u.
Proof.
  unfold has_url. rewrite existsb_exists. split.
  - intros [c [Hin Heq]]. exists c. split; [apply list_elem_of_In, Hin|].
    apply String.eqb_eq, Heq.
  - intros [c [Hin Heq]]. exists c. split; [apply list_elem_of_In, Hin|].
    apply String.eqb_eq, Heq.
Qed.

Lemma removed_flag io u w :
  fst (remove_url io u w) = has_url u (urls w).
Proof.
  unfold remove_url. cbn [urls]. rewrite filter_shorter_iff.
  assert (Heq : existsb (fun x => negb (negb (String.eqb (url x) u))) (urls w)
                = has_url u (urls w)).
  { unfold has_url. induction (urls w) as [|c cs IH]; simpl; [reflexivity|].
    rewrite negb_involutive, IH. reflexivity. }
  rewrite Heq. destruct (has_url u (urls w)); reflexivity.
Qed.

(** C9: [remove_url u] drops every entry whose [url] is [u] and no other,
    keeps the others in their order, answers [True] exactly when some entry
    had that [url], and when none had it nothing changes: no write is
    attempted and the file is as it was. *)
Theorem remove_url_removes_every_match (io : io_outcome) (u : string) (w : world) :
  urls (snd (remove_url io u w)) = List.filter (keeps u) (urls w)
  /\ (forall c, c ∈ urls (snd (remove_url io u w)) <-> c ∈ urls w /\ url c <> u)
  /\ sublist (urls (snd (remove_url io u w))) (urls w)
  /\ (fst (remove_url io u w) = true <-> exists c, c ∈ urls w /\ url c = u)
  /\ (fst (remove_url io u w) = false -> snd (remove_url io u w) = w)
  /\ (fst (remove_url io u w) = true ->
      writes (snd (remove_url io u w)) = writes w ++ [List.filter (keeps u) (urls w)]).
Proof.
  assert (Hurls : urls (snd (remove_url io u w)) = List.filter (keeps u) (urls w)).
  { unfold remove_url. cbn [urls].
    destruct (_ <? _)%nat; reflexivity. }
  split; [exact Hurls|]. split; [|split; [|split; [|split]]].
  - intros c. rewrite Hurls, !list_elem_of_In, filter_In. unfold keeps.
    rewrite negb_true_iff, String.eqb_neq. reflexivity.
  - rewrite Hurls. apply filter_is_sublist.
  - rewrite removed_flag. apply has_url_iff.
  - intros Hflag. pose proof Hflag as Hnone. rewrite removed_flag in Hnone.
    unfold remove_url in *. cbn [urls] in *.
    rewrite filter_shorter_iff in *.
    destruct (existsb _ (urls w)) eqn:Hex; [discriminate|].
    cbn [snd]. rewrite (filter_all_kept _ _ Hex). destruct w; reflexivity.
  - intros Hflag. unfold remove_url in *. cbn [urls] in *.
    destruct (_ <? _)%nat; [|discriminate]. reflexivity.
Qed.

Lemma _validate_url_spec (L : pylib) (u : string) :
  _validate_url L u = true <-> exists r, urlparse L u = Some r /\ acceptable r.
Proof.
  unfold _validate_url, acceptable. split.
  - destruct (urlparse L u) as [r|]; [|discriminate].
    destruct (String.eqb (scheme r) "http" || String.eqb (scheme r) "https")
      eqn:Hs; simpl; [|discriminate].
    destruct (Text.contains DOMAIN (netloc r)) eqn:Hn; simpl; [|discriminate].
    destruct (Text.contains "/cursos/" (path r)) eqn:Hp; simpl; [|discriminate].
    destruct (Text.endswith (path r) "/aulas") eqn:He; simpl; [|discriminate].
    intros _. exists r. split; [reflexivity|].
    apply orb_true_iff in Hs. rewrite !String.eqb_eq in Hs.
    apply contains_spec in Hn, Hp. apply endswith_spec in He.
    repeat split; assumption.
  - intros [r [-> [Hs [Hn [Hp He]]]]].
    rewrite <- !String.eqb_eq, <- orb_true_iff in Hs.
    apply contains_spec in Hn, Hp. apply endswith_spec in He.
    rewrite Hs, Hn, Hp, He. reflexivity.
Qed.

(** The gate of [add_url]: it answers [True] only for an input whose trimmed
    text parses to a URL with scheme http or https, a network location in
    which the platform domain occurs, a path in which [/cursos/] occurs and
    which ends in [/aulas]; on every input that misses one of these it
    answers [False] and the manager is exactly as before: same queue, same
    file, no write. *)
Theorem add_url_is_gated (L : pylib) (io : io_outcome) (u : string) (w : world) :
  (fst (add_url L io u w) = true ->
     exists r, urlparse L (strip L u) = Some r /\ acceptable r)
  /\ ((forall r, urlparse L (strip L u) = Some r -> ~ acceptable r) ->
      add_url L io u w = (false, w)).
Proof.
  unfold add_url. split.
  - destruct (_validate_url L (strip L u)) eqn:Hv; simpl; [|discriminate].
    intros _. apply _validate_url_spec, Hv.
  - intros Hbad.
    destruct (_validate_url L (strip L u)) eqn:Hv; simpl; [|reflexivity].
    apply _validate_url_spec in Hv as [r [Hr Hacc]].
    exfalso. exact (Hbad r Hr Hacc).
Qed.

(** C5, evaluated on the code: the domain test of [_validate_url] is a
    substring test on the whole network location, so [add_url] queues every
    URL not queued yet whose network location carries the platform domain
    anywhere (in its user-info part, for instance), with a path through
    [/cursos/] that ends in [/aulas], whatever host the URL names. *)
Theorem add_url_tests_the_netloc_not_the_host (L : pylib) (io : io_outcome)
    (u : string) (w : world) (r : parse_result) :
  urlparse L (strip L u) = Some r ->
  acceptable r ->
  has_url (strip L u) (urls w) = false ->
  fst (add_url L io u w) = true
  /\ has_url (strip L u) (urls (snd (add_url L io u w))) = true.
Proof.
  intros Hr Hacc Hfresh.
  assert (Hv : _validate_url L (strip L u) = true).
  { apply _validate_url_spec. exists r. split; assumption. }
  unfold add_url. rewrite Hv, Hfresh. simpl. split; [reflexivity|].
  unfold has_url. rewrite existsb_app. simpl.
  rewrite String.eqb_refl, orb_true_r. reflexivity.
Qed.

End QueueFacts.

Lemma add_url_is_gated_witness :
  let L := CPython.lib (fun _ => true) in
  fst (CourseUrlManager.add_url L CourseUrlManager.IoOk Sample.platform_url Sample.empty_queue) = true
  /\ exists r, urlparse L (strip L Sample.platform_url) = Some r
                /\ CourseUrlManager.acceptable r.
Proof.
  intros L. split; [vm_compute; reflexivity|].
  exact (proj1 (add_url_is_gated L CourseUrlManager.IoOk Sample.platform_url Sample.empty_queue)
               eq_refl).
Defined.

(** The failing input of C5: a URL whose host is [evil.example], with the
    platform domain in its user-info part, is queued. *)
Lemma add_url_tests_the_netloc_not_the_host_witness :
  let L := CPython.lib (fun _ => true) in
  let final := CourseUrlManager.add_url L CourseUrlManager.IoOk
                 Sample.foreign_host_url Sample.empty_queue in
  (exists r, urlparse L (strip L Sample.foreign_host_url) = Some r
             /\ CPython.host_of (netloc r) = "evil.example"
             /\ Text.contains CourseUrlManager.DOMAIN (CPython.host_of (netloc r)) = false)
  /\ fst final = true
  /\ CourseUrlManager.has_url Sample.foreign_host_url
       (CourseUrlManager.urls (snd final)) = true.
Proof.
  intros L final.
  pose (r := {| scheme := "https";
                netloc := "estrategiaconcursos.com.br@evil.example";
                path := "/cursos/direito-penal/aulas";
                params := ""; query := ""; fragment := "" |}).
  assert (Hparse : urlparse L (strip L Sample.foreign_host_url) = Some r)
    by (vm_compute; reflexivity).
  split.
  { exists r. split; [exact Hparse|]. split; vm_compute; reflexivity. }
  assert (Hacc : CourseUrlManager.acceptable r).
  { split; [right; reflexivity|]. split; [|split].
    - exists "", "@evil.example". reflexivity.
    - exists "", "direito-penal/aulas". reflexivity.
    - exists "/cursos/direito-penal". reflexivity. }
  exact (add_url_tests_the_netloc_not_the_host L CourseUrlManager.IoOk
           Sample.foreign_host_url Sample.empty_queue r Hparse Hacc eq_refl).
Defined.

(** The same run, evaluated: [add_url] accepts a URL whose host is
    [evil.example], because the test looks for the domain anywhere in the
    network location. *)
Lemma add_url_accepts_foreign_host :
  let L := CPython.lib (fun _ => true) in
  fst (CourseUrlManager.add_url L CourseUrlManager.IoOk Sample.foreign_host_url Sample.empty_queue) = true
  /\ (exists r, urlparse L (strip L Sample.foreign_host_url) = Some r
                /\ netloc r = "estrategiaconcursos.com.br@evil.example"
                /\ CPython.host_of (netloc r) = "evil.example"
                /\ Text.contains CourseUrlManager.DOMAIN (CPython.host_of (netloc r)) = false).
Proof.
  intros L. split; [vm_compute; reflexivity|].
  eexists. split; [vm_compute; reflexivity|].
  repeat split; vm_compute; reflexivity.
Qed.

(** ** [get_all] and aliasing *)

Section HeapFacts.

Import Heap.

Lemma get_all_is_fresh (m : manager) (h : heap) :
  is_Some (lists h !! urls_ref m) -> fst (get_all m h) <> urls_ref m.
Proof.
  intros Hsome Heq. simpl in Heq.
  apply elem_of_dom in Hsome. rewrite <- Heq in Hsome.
  exact (is_fresh (dom (lists h)) Hsome).
Qed.

Lemma get_all_copies_items (m : manager) (h : heap) :
  items_of (snd (get_all m h)) (fst (get_all m h)) = items_of h (urls_ref m).
Proof. unfold items_of at 1. simpl. rewrite lookup_insert_eq. reflexivity. Qed.

(** A change of the list [r] leaves every other list object and every entry
    object as they were. *)
Lemma list_mutation_frame (r : loc) (mu : mutation) (h : heap) (l : loc) :
  is_list_mutation mu = true -> l <> r ->
  lists (mutate r mu h) !! l = lists h !! l /\ dicts (mutate r mu h) = dicts h.
Proof.
  intros Hmu Hne. destruct mu; try discriminate. simpl.
  split; [apply lookup_insert_ne; congruence | reflexivity].
Qed.

Lemma list_mutations_frame (r : loc) (mus : list mutation) (l : loc) :
  forallb is_list_mutation mus = true -> l <> r ->
  forall h, lists (mutate_all r mus h) !! l = lists h !! l
            /\ dicts (mutate_all r mus h) = dicts h.
Proof.
  intros Hmus Hne. induction mus as [|mu mus IH]; intros h; simpl in *.
  - split; reflexivity.
  - apply andb_prop in Hmus as [Hmu Hmus].
    destruct (IH Hmus (mutate r mu h)) as [Hl Hd].
    destruct (list_mutation_frame r mu h l Hmu Hne) as [Hl' Hd'].
    split; congruence.
Qed.

Lemma snapshot_depends (h h' : heap) (m : manager) :
  lists h' !! urls_ref m = lists h !! urls_ref m -> dicts h' = dicts h ->
  snapshot h' m = snapshot h m.
Proof. intros Hl Hd. unfold snapshot, items_of. rewrite Hl, Hd. reflexivity. Qed.

(** C4, as the code has it: [get_all] returns a new list object holding the
    same entry objects. Whatever the caller does to that list (append, delete,
    reorder, replace items), the manager's own list and what it holds are as
    before. *)
Theorem get_all_returns_a_separate_list (h : heap) (m : manager)
    (mus : list mutation) :
  is_Some (lists h !! urls_ref m) ->
  forallb is_list_mutation mus = true ->
  fst (get_all m h) <> urls_ref m
  /\ items_of (snd (get_all m h)) (fst (get_all m h)) = items_of h (urls_ref m)
  /\ items_of (mutate_all (fst (get_all m h)) mus (snd (get_all m h))) (urls_ref m)
     = items_of h (urls_ref m)
  /\ snapshot (mutate_all (fst (get_all m h)) mus (snd (get_all m h))) m
     = snapshot h m.
Proof.
  intros Hsome Hmus.
  pose proof (get_all_is_fresh m h Hsome) as Hfresh.
  assert (Hne : urls_ref m <> fst (get_all m h)) by congruence.
  destruct (list_mutations_frame (fst (get_all m h)) mus (urls_ref m) Hmus Hne
              (snd (get_all m h))) as [Hl Hd].
  assert (Hl0 : lists (snd (get_all m h)) !! urls_ref m = lists h !! urls_ref m).
  { simpl. apply lookup_insert_ne. exact Hfresh. }
  split; [exact Hfresh|]. split; [apply get_all_copies_items|]. split.
  - unfold items_of. rewrite Hl, Hl0. reflexivity.
  - apply snapshot_depends; [congruence | rewrite Hd; reflexivity].
Qed.

End HeapFacts.

Lemma get_all_returns_a_separate_list_witness :
  let r := fst (Heap.get_all Sample.the_manager Sample.one_entry_heap) in
  let h1 := snd (Heap.get_all Sample.the_manager Sample.one_entry_heap) in
  let mus := [Heap.ListSetContents []; Heap.ListSetContents [1%positive; 1%positive]] in
  is_Some (Heap.lists Sample.one_entry_heap !! Heap.urls_ref Sample.the_manager)
  /\ forallb Heap.is_list_mutation mus = true
  /\ Heap.snapshot (Heap.mutate_all r mus h1) Sample.the_manager
     = Heap.snapshot Sample.one_entry_heap Sample.the_manager.
Proof.
  intros r h1 mus.
  assert (Hsome : is_Some (Heap.lists Sample.one_entry_heap !! Heap.urls_ref Sample.the_manager)).
  { exists [1%positive]. reflexivity. }
  split; [exact Hsome|]. split; [reflexivity|].
  exact (proj2 (proj2 (proj2
           (get_all_returns_a_separate_list Sample.one_entry_heap Sample.the_manager mus
              Hsome eq_refl)))).
Defined.

(** C4 as stated fails for the entry objects: the returned list holds the
    manager's own dicts, so assigning to a field of one of them changes what
    the manager holds, and a later [remove_url] of the original URL no longer
    finds it. *)
Lemma get_all_shares_entries :
  let r := fst (Heap.get_all Sample.the_manager Sample.one_entry_heap) in
  let h1 := snd (Heap.get_all Sample.the_manager Sample.one_entry_heap) in
  let h2 := Heap.mutate r (Heap.EntrySetUrl 0 "changed-by-caller") h1 in
  let queue_of h :=
    {| CourseUrlManager.urls := Heap.snapshot h Sample.the_manager;
       CourseUrlManager.disk := ∅; CourseUrlManager.writes := [] |} in
  Heap.snapshot Sample.one_entry_heap Sample.the_manager = [Sample.penal]
  /\ Heap.snapshot h2 Sample.the_manager
     = [{| url := "changed-by-caller"; title := "Direito Penal" |}]
  /\ fst (CourseUrlManager.remove_url CourseUrlManager.IoOk (url Sample.penal)
            (queue_of Sample.one_entry_heap)) = true
  /\ fst (CourseUrlManager.remove_url CourseUrlManager.IoOk (url Sample.penal)
            (queue_of h2)) = false.
Proof.
  intros r h1 h2 queue_of.
  assert (H0 : Heap.snapshot Sample.one_entry_heap Sample.the_manager = [Sample.penal]) by reflexivity.
  assert (H2 : Heap.snapshot h2 Sample.the_manager
               = [{| url := "changed-by-caller"; title := "Direito Penal" |}]).
  { vm_compute. reflexivity. }
  split; [exact H0|]. split; [exact H2|]. split.
  - unfold queue_of. rewrite removed_flag. cbn [CourseUrlManager.urls].
    rewrite H0. vm_compute. reflexivity.
  - unfold queue_of. rewrite removed_flag. cbn [CourseUrlManager.urls].
    rewrite H2. vm_compute. reflexivity.
Qed.

(** ** DownloadManager *)

Section RunFacts.

Import DownloadManager.

Lemma add_trace_nil s : add_trace [] s = s.
Proof. destruct s. unfold add_trace. simpl. rewrite app_nil_r. reflexivity. Qed.

Lemma add_trace_app tr1 tr2 s :
  add_trace tr2 (add_trace tr1 s) = add_trace (tr1 ++ tr2) s.
Proof. unfold add_trace. simpl. rewrite app_assoc. reflexivity. Qed.

Lemma attempted_app tr1 tr2 :
  attempted (tr1 ++ tr2) = attempted tr1 ++ attempted tr2.
Proof. unfold attempted. apply omap_app. Qed.

Lemma is_step_intro {A} (m : M A) (f : ConfigManager.world -> res A * list event) :
  (forall s, m s = (fst (f (cfg s)), add_trace (snd (f (cfg s))) s)) ->
  (forall w, attempted (snd (f w)) = []) ->
  is_step m.
Proof.
  intros Hf Hfa.
  assert (He : forall w, effect m w = f w).
  { intros w. unfold effect. rewrite Hf. simpl. destruct (f w); reflexivity. }
  split.
  - intros s. rewrite He. apply Hf.
  - intros w. rewrite He. apply Hfa.
Qed.

Lemma is_step_ret {A} (a : A) : is_step (SE.ret a).
Proof.
  apply (is_step_intro _ (fun _ => (Ret a, []))); [|reflexivity].
  intros s. unfold SE.ret. simpl. rewrite add_trace_nil. reflexivity.
Qed.

Lemma is_step_raise {A} (e : exn) : is_step (@SE.raise state A e).
Proof.
  apply (is_step_intro _ (fun _ => (Raise e, []))); [|reflexivity].
  intros s. unfold SE.raise. simpl. rewrite add_trace_nil. reflexivity.
Qed.

Lemma is_step_emit (ev : event) : started_index ev = None -> is_step (emit ev).
Proof.
  intros Hev. apply (is_step_intro _ (fun _ => (Ret tt, [ev]))).
  - intros s. reflexivity.
  - intros w. unfold attempted. simpl. rewrite Hev. reflexivity.
Qed.

Lemma is_step_lift {A} (m : SE.M ConfigManager.world A) :
  SE.read_only m -> is_step (lift_cfg m).
Proof.
  intros Hro. apply (is_step_intro _ (fun w => (fst (m w), []))); [|reflexivity].
  intros s. unfold lift_cfg. specialize (Hro (cfg s)).
  destruct (m (cfg s)) as [r w']. simpl in *. subst w'.
  rewrite add_trace_nil. destruct s; reflexivity.
Qed.

Lemma is_step_bind {A B} (m : M A) (k : A -> M B) :
  is_step m -> (forall a, is_step (k a)) -> is_step (SE.bind m k).
Proof.
  intros [Hm Hma] Hk.
  apply (is_step_intro _
           (fun w =>
              match fst (effect m w) with
              | Ret a => (fst (effect (k a) w),
                          snd (effect m w) ++ snd (effect (k a) w))
              | Raise e => (Raise e, snd (effect m w))
              end)).
  - intros s. unfold SE.bind. rewrite Hm.
    destruct (fst (effect m (cfg s))) as [a|e]; [|reflexivity].
    destruct (Hk a) as [Hka _]. rewrite Hka. simpl.
    rewrite add_trace_app. reflexivity.
  - intros w. destruct (fst (effect m w)) as [a|e]; cbn [snd]; [|apply Hma].
    destruct (Hk a) as [_ Hkb].
    rewrite attempted_app, Hma, Hkb. reflexivity.
Qed.

Lemma is_step_try_except {A} (body handler : M A) :
  is_step body -> is_step handler -> is_step (SE.try_except body handler).
Proof.
  intros [Hb Hba] [Hh Hha].
  apply (is_step_intro _
           (fun w =>
              match fst (effect body w) with
              | Ret a => (Ret a, snd (effect body w))
              | Raise e =>
                  if is_Exception e
                  then (fst (effect handler w),
                        snd (effect body w) ++ snd (effect handler w))
                  else (Raise e, snd (effect body w))
              end)).
  - intros s. unfold SE.try_except. rewrite Hb.
    destruct (fst (effect body (cfg s))) as [a|e]; [reflexivity|].
    destruct (is_Exception e); [|reflexivity].
    rewrite Hh. simpl. rewrite add_trace_app. reflexivity.
  - intros w. destruct (fst (effect body w)) as [a|e]; cbn [snd]; [apply Hba|].
    destruct (is_Exception e); cbn [snd]; [|apply Hba].
    rewrite attempted_app, Hba, Hha. reflexivity.
Qed.

Lemma is_step_returning_false (body : M bool) :
  is_step body -> is_step (returning_false_on_error body).
Proof.
  intros [Hb Hba].
  apply (is_step_intro _
           (fun w =>
              match fst (effect body w) with
              | Ret b => (Ret b, snd (effect body w))
              | Raise _ => (Ret false, snd (effect body w))
              end)).
  - intros s. unfold returning_false_on_error. rewrite Hb.
    destruct (fst (effect body (cfg s))); reflexivity.
  - intros w. destruct (fst (effect body w)); apply Hba.
Qed.

Lemma is_step_outcome (o : option exn) : is_step (outcome o).
Proof. destruct o; [apply is_step_raise | apply is_step_ret]. Qed.

Lemma is_step_call (ev : event) (o : option exn) :
  started_index ev = None -> is_step (call ev o).
Proof.
  intros Hev. unfold call.
  apply is_step_bind; [apply is_step_emit, Hev | intros _; apply is_step_outcome].
Qed.

Lemma is_step_as_path (v : value) : is_step (as_path v).
Proof. destruct v; simpl; first [apply is_step_ret | apply is_step_raise]. Qed.

Lemma is_step_get keys d : is_step (lift_cfg (ConfigManager.get keys d)).
Proof. apply is_step_lift, read_only_get. Qed.

Lemma is_step_config_get k d : is_step (lift_cfg (ConfigManager.config_get k d)).
Proof. apply is_step_lift, read_only_config_get. Qed.

Lemma is_step_propagate_cancel E i k p : is_step (propagate_cancel E i k p).
Proof.
  unfold propagate_cancel.
  destruct (cancel_requested E i k); [apply is_step_emit; reflexivity | apply is_step_ret].
Qed.

Lemma is_step_process_with E i p u : is_step (process_with E i p u).
Proof.
  unfold process_with.
  apply is_step_bind; [apply is_step_emit; reflexivity | intros _].
  destruct (run_processor E i p u); [apply is_step_ret | apply is_step_raise].
Qed.

Create HintDb step discriminated.
#[local] Hint Resolve is_step_ret is_step_raise is_step_outcome is_step_as_path
  is_step_get is_step_config_get is_step_propagate_cancel is_step_process_with
  is_step_returning_false : step.

Ltac step_auto :=
  repeat first
    [ apply is_step_bind; [ | intros ? ]
    | apply is_step_call; reflexivity
    | apply is_step_emit; reflexivity
    | progress auto with step ].

Lemma is_step_create_pdf E i : is_step (_create_pdf_processor E i).
Proof. unfold _create_pdf_processor. step_auto. Qed.

Lemma is_step_create_video E i : is_step (_create_video_processor E i).
Proof. unfold _create_video_processor. step_auto. Qed.

Lemma is_step_create_extras E i : is_step (_create_video_processor_for_extras E i).
Proof. unfold _create_video_processor_for_extras. step_auto. Qed.

Lemma is_step_extras E i u (success : bool) dt :
  is_step
    (if success && Py.str_eq dt "pdf" then
       SE.bind (lift_cfg (ConfigManager.get ["pdfConfig"; "baixarExtrasComPdf"] (VBool false)))
         (fun baixar_extras =>
            if Py.truthy baixar_extras then
              SE.bind (_create_video_processor_for_extras E i)
                (fun video_processor =>
                   SE.bind (propagate_cancel E i 2 video_processor)
                     (fun _ =>
                        SE.bind (process_with E i video_processor u)
                          (fun _ => SE.ret tt)))
            else SE.ret tt)
     else SE.ret tt).
Proof.
  destruct (success && Py.str_eq dt "pdf"); [|apply is_step_ret].
  apply is_step_bind; [apply is_step_get | intros extras].
  destruct (Py.truthy extras); [|apply is_step_ret].
  apply is_step_bind; [apply is_step_create_extras | intros vp].
  apply is_step_bind; [apply is_step_propagate_cancel | intros _].
  apply is_step_bind; [apply is_step_process_with | intros _].
  apply is_step_ret.
Qed.

Lemma is_step_body E i u dt : is_step (process_course_body E i u dt).
Proof.
  unfold process_course_body.
  apply is_step_bind.
  { destruct (Py.str_eq dt "pdf"); [apply is_step_create_pdf | apply is_step_create_video]. }
  intros p.
  apply is_step_bind; [apply is_step_propagate_cancel | intros _].
  apply is_step_bind; [apply is_step_process_with | intros success].
  apply is_step_bind; [apply is_step_extras | intros _].
  apply is_step_ret.
Qed.

Lemma is_step_process_course E i u : is_step (_process_course E i u).
Proof.
  unfold _process_course.
  apply is_step_bind; [apply is_step_config_get | intros dt].
  apply is_step_returning_false, is_step_body.
Qed.

Lemma is_step_report_progress E i total : is_step (report_progress E i total).
Proof.
  unfold report_progress. destruct (progress_callback E) as [cb|]; [|apply is_step_ret].
  apply is_step_try_except; [apply is_step_call; reflexivity | apply is_step_ret].
Qed.

Lemma process_course_raises E i u s e :
  fst (_process_course E i u s) = Raise e -> is_Exception e = true.
Proof.
  unfold _process_course, SE.bind, lift_cfg, ConfigManager.config_get.
  destruct (ConfigManager.config (cfg s)); simpl;
    try (intros H; injection H as <-; reflexivity).
  unfold returning_false_on_error.
  destruct (process_course_body _ _ _ _ _) as [[b|e'] s']; simpl; discriminate.
Qed.

Lemma report_progress_returns E i total s :
  no_cancellation E -> fst (report_progress E i total s) = Ret tt.
Proof.
  intros [_ Hcb]. unfold report_progress.
  destruct (progress_callback E) as [cb|] eqn:Hp; [|reflexivity].
  unfold SE.try_except, call, SE.bind, emit, SE.modify, outcome. simpl.
  destruct (cb i total) as [e|] eqn:Hc; simpl; [|reflexivity].
  rewrite (Hcb cb i total e eq_refl Hc). reflexivity.
Qed.

Lemma failing_from_length E w i courses :
  length (failing_from E w i courses) <= length courses.
Proof.
  revert i. induction courses as [|c rest IH]; intros i; simpl; [lia|].
  rewrite length_app. specialize (IH (S i)).
  destruct (course_fails E w i c); simpl; lia.
Qed.

(** The loop, absent cancellation: every course from [i] on is started, in
    order; each failing course adds one to [failed_count], each other course
    one to [success_count]; the loop ends normally. *)
Lemma process_queue_spec E total :
  no_cancellation E ->
  forall courses i s,
    exists tr,
      process_queue E total i courses s
      = (Ret tt,
         {| cfg := cfg s; trace := trace s ++ tr; session := session s;
            playwright := playwright s; context := context s;
            success_count :=
              success_count s
              + (length courses - length (failing_from E (cfg s) i courses));
            failed_count :=
              failed_count s + length (failing_from E (cfg s) i courses) |})
      /\ attempted tr = seq i (length courses).
Proof.
  intros Hnc. induction courses as [|c rest IH]; intros i s.
  - exists []. simpl. split; [|reflexivity].
    unfold SE.ret. rewrite app_nil_r, !Nat.add_0_r. destruct s; reflexivity.
  - destruct (Hnc) as [Hflag _].
    cbn [process_queue]. rewrite Hflag.
    destruct (is_step_process_course E i (url c)) as [Hpc Hpca].
    destruct (is_step_report_progress E i total) as [Hrp Hrpa].
    pose proof (failing_from_length E (cfg s) (S i) rest) as Hlen.
    unfold SE.bind at 1. cbn [emit SE.modify].
    unfold SE.bind at 1. unfold attempt at 1. rewrite Hpc. cbn [cfg].
    set (tr0 := snd (effect (_process_course E i (url c)) (cfg s))).
    assert (Hr : fst (effect (_process_course E i (url c)) (cfg s))
                 = fst (_process_course E i (url c) (init (cfg s)))) by reflexivity.
    assert (Hfail : course_fails E (cfg s) i c
                    = match fst (_process_course E i (url c) (init (cfg s))) with
                      | Ret true => false
                      | _ => true
                      end) by reflexivity.
    assert (Hprog : forall s', fst (effect (report_progress E i total) (cfg s')) = Ret tt).
    { intros s'. apply report_progress_returns, Hnc. }
    set (trp := snd (effect (report_progress E i total) (cfg s))).
    assert (Hatt : attempted ([CourseStarted i c] ++ tr0 ++ trp) = [i]).
    { rewrite !attempted_app. unfold tr0, trp. rewrite Hpca, Hrpa. reflexivity. }
    cbn [failing_from length]. rewrite length_app.
    rewrite Hr. rewrite Hfail.
    destruct (fst (_process_course E i (url c) (init (cfg s)))) as [[|]|e] eqn:Hres.
    + unfold SE.bind at 1. cbn [count_success SE.modify].
      unfold SE.bind at 1. rewrite Hrp, Hprog. cbn [fst cfg add_trace].
      destruct (IH (S i)
                  {| cfg := cfg s;
                     trace := ((trace s ++ [CourseStarted i c]) ++ tr0) ++ trp;
                     session := session s; playwright := playwright s;
                     context := context s;
                     success_count := S (success_count s);
                     failed_count := failed_count s |}) as [tr [Heq Htr]].
      exists ([CourseStarted i c] ++ tr0 ++ trp ++ tr).
      split.
      * unfold add_trace.
        cbn [cfg trace session playwright context success_count failed_count] in *.
        fold tr0 trp. rewrite Heq. f_equal. f_equal.
        all: try (rewrite <- !app_assoc; reflexivity); simpl; lia.
      * rewrite !app_assoc, attempted_app, <- !app_assoc, Hatt, Htr. reflexivity.
    + unfold SE.bind at 1. cbn [count_failure SE.modify].
      unfold SE.bind at 1. rewrite Hrp, Hprog. cbn [fst cfg add_trace].
      destruct (IH (S i)
                  {| cfg := cfg s;
                     trace := ((trace s ++ [CourseStarted i c]) ++ tr0) ++ trp;
                     session := session s; playwright := playwright s;
                     context := context s;
                     success_count := success_count s;
                     failed_count := S (failed_count s) |}) as [tr [Heq Htr]].
      exists ([CourseStarted i c] ++ tr0 ++ trp ++ tr).
      split.
      * unfold add_trace.
        cbn [cfg trace session playwright context success_count failed_count] in *.
        fold tr0 trp. rewrite Heq. f_equal. f_equal.
        all: try (rewrite <- !app_assoc; reflexivity); simpl; lia.
      * rewrite !app_assoc, attempted_app, <- !app_assoc, Hatt, Htr. reflexivity.
    + rewrite (process_course_raises E i (url c) (init (cfg s)) e Hres).
      unfold SE.bind at 1. cbn [count_failure SE.modify].
      unfold SE.bind at 1. rewrite Hrp, Hprog. cbn [fst cfg add_trace].
      destruct (IH (S i)
                  {| cfg := cfg s;
                     trace := ((trace s ++ [CourseStarted i c]) ++ tr0) ++ trp;
                     session := session s; playwright := playwright s;
                     context := context s;
                     success_count := success_count s;
                     failed_count := S (failed_count s) |}) as [tr [Heq Htr]].
      exists ([CourseStarted i c] ++ tr0 ++ trp ++ tr).
      split.
      * unfold add_trace.
        cbn [cfg trace session playwright context success_count failed_count] in *.
        fold tr0 trp. rewrite Heq. f_equal. f_equal.
        all: try (rewrite <- !app_assoc; reflexivity); simpl; lia.
      * rewrite !app_assoc, attempted_app, <- !app_assoc, Hatt, Htr. reflexivity.
Qed.

Lemma quiet_of_step {A} (m : M A) : is_step m -> quiet m.
Proof.
  intros [Hm Hma] s. exists (snd (effect m (cfg s))).
  rewrite Hm. simpl. repeat split; try reflexivity. apply Hma.
Qed.

Lemma quiet_bind {A B} (m : M A) (k : A -> M B) :
  quiet m -> (forall a, quiet (k a)) -> quiet (SE.bind m k).
Proof.
  intros Hm Hk s. unfold SE.bind.
  destruct (Hm s) as [tr (Hc & Hs & Hf & Ht & Ha)].
  destruct (m s) as [[a|e] s']; simpl in *.
  - destruct (Hk a s') as [tr' (Hc' & Hs' & Hf' & Ht' & Ha')].
    exists (tr ++ tr'). rewrite Hc', Hs', Hf', Ht', Hc, Hs, Hf, Ht.
    rewrite attempted_app, Ha, Ha', app_assoc. repeat split; reflexivity.
  - exists tr. repeat split; assumption.
Qed.

Lemma quiet_flag (f : state -> state) :
  (forall s, cfg (f s) = cfg s /\ success_count (f s) = success_count s
             /\ failed_count (f s) = failed_count s /\ trace (f s) = trace s) ->
  quiet (SE.modify f).
Proof.
  intros Hf s. exists []. simpl. destruct (Hf s) as (-> & -> & -> & ->).
  rewrite app_nil_r. repeat split; reflexivity.
Qed.

Lemma is_step_launch_browser E : is_step (_launch_browser E).
Proof.
  unfold _launch_browser.
  apply is_step_bind; [apply is_step_config_get | intros headless].
  apply is_step_bind; [apply is_step_call; reflexivity | intros _].
  apply is_step_call; reflexivity.
Qed.

Lemma is_step_perform_authentication E : is_step (_perform_authentication E).
Proof.
  unfold _perform_authentication.
  apply is_step_bind; [apply is_step_config_get | intros email].
  apply is_step_bind; [apply is_step_lift, read_only_get_password | intros pw].
  destruct (_ || _); [apply is_step_raise | apply is_step_call; reflexivity].
Qed.

Lemma quiet_acquire_and_login E : quiet (acquire_and_login E).
Proof.
  unfold acquire_and_login.
  apply quiet_bind; [apply quiet_of_step, is_step_call; reflexivity | intros _].
  apply quiet_bind; [apply quiet_flag; intros s; repeat split | intros _].
  apply quiet_bind; [apply quiet_of_step, is_step_call; reflexivity | intros _].
  apply quiet_bind; [apply quiet_flag; intros s; repeat split | intros _].
  apply quiet_bind; [apply quiet_of_step, is_step_launch_browser | intros _].
  apply quiet_bind; [apply quiet_flag; intros s; repeat split | intros _].
  apply quiet_bind; [apply quiet_of_step, is_step_call; reflexivity | intros _].
  apply quiet_of_step, is_step_perform_authentication.
Qed.

Lemma quiet_gets {A} (f : state -> A) : quiet (SE.gets f).
Proof.
  intros s. exists []. simpl. rewrite app_nil_r. repeat split; reflexivity.
Qed.

Lemma is_step_guarded_call ev o :
  started_index ev = None ->
  is_step (SE.try_except (call ev o) (SE.ret tt)).
Proof.
  intros Hev. apply is_step_try_except; [apply is_step_call, Hev | apply is_step_ret].
Qed.

Lemma quiet_cleanup E : quiet (cleanup E).
Proof.
  unfold cleanup.
  apply quiet_bind; [apply quiet_gets | intros has_session].
  apply quiet_bind.
  { destruct has_session; apply quiet_of_step;
      [apply is_step_call; reflexivity | apply is_step_ret]. }
  intros _.
  apply quiet_bind; [apply quiet_gets | intros has_context].
  apply quiet_bind.
  { destruct has_context; apply quiet_of_step;
      [apply is_step_guarded_call; reflexivity | apply is_step_ret]. }
  intros _.
  apply quiet_bind; [apply quiet_gets | intros has_playwright].
  destruct has_playwright; apply quiet_of_step;
    [apply is_step_guarded_call; reflexivity | apply is_step_ret].
Qed.

(** When closing the session does not raise, the [finally] block ends
    normally: the two later steps swallow their own [Exception]s. *)
Lemma guarded_call_returns ev o s :
  (forall e, o = Some e -> is_Exception e = true) ->
  fst (SE.try_except (call ev o) (SE.ret tt) s) = Ret tt.
Proof.
  intros Ho. unfold SE.try_except, call, SE.bind, emit, SE.modify, outcome.
  simpl. destruct o as [e|]; simpl; [|reflexivity].
  rewrite (Ho e eq_refl). reflexivity.
Qed.

Lemma read_only_health_check E : SE.read_only (_health_check E).
Proof.
  intros s. unfold _health_check, SE.try_except, SE.bind, lift_cfg.
  pose proof (read_only_validate (config_env E) (cfg s)) as Hv.
  destruct (ConfigManager.validate (config_env E) (cfg s)) as [[r|e] w'];
    simpl in *; subst w'.
  - destruct s; reflexivity.
  - destruct (is_Exception e); destruct s; reflexivity.
Qed.

(** C6: with a passing health check and an empty queue, [start_downloads]
    returns [False] having made no call at all on the HTTP session, the
    browser engine, the browser or its context: the trace is empty and none
    of [session], [playwright], [context] is set. *)
Theorem empty_queue_fails_without_acquiring (E : env) (w : ConfigManager.world) :
  fst (_health_check E (init w)) = Ret true ->
  CourseUrlManager.get_all (url_manager E) = [] ->
  fst (start_downloads E (init w)) = Ret false
  /\ trace (snd (start_downloads E (init w))) = []
  /\ forallb (fun ev => negb (is_acquisition ev))
       (trace (snd (start_downloads E (init w)))) = true
  /\ session (snd (start_downloads E (init w))) = false
  /\ playwright (snd (start_downloads E (init w))) = false
  /\ context (snd (start_downloads E (init w))) = false.
Proof.
  intros Hhealth Hempty.
  assert (Hrun : start_downloads E (init w) = (Ret false, init w)).
  { unfold start_downloads, SE.bind.
    pose proof (read_only_health_check E (init w)) as Hro.
    destruct (_health_check E (init w)) as [r s']. simpl in *. subst.
    rewrite Hempty. reflexivity. }
  rewrite Hrun. repeat split; reflexivity.
Qed.

Lemma bind_returns {A B} (m : M A) (k : A -> M B) s (b : B) :
  fst (SE.bind m k s) = Ret b ->
  exists a s', m s = (Ret a, s') /\ fst (k a s') = Ret b.
Proof.
  unfold SE.bind. destruct (m s) as [[a|e] s']; simpl; [|discriminate].
  intros H. exists a, s'. split; [reflexivity | exact H].
Qed.

(** [_process_course] answers [True] only if a processor call did. *)
Lemma process_course_true E i u s :
  fst (_process_course E i u s) = Ret true ->
  exists p, run_processor E i p u = Ret true.
Proof.
  unfold _process_course. intros H.
  apply bind_returns in H as (dt & s1 & _ & H).
  unfold returning_false_on_error in H.
  destruct (process_course_body E i u dt s1) as [[b|e] s2] eqn:Hbody;
    simpl in H; [|discriminate].
  injection H as ->.
  assert (Hb : fst (process_course_body E i u dt s1) = Ret true)
    by (rewrite Hbody; reflexivity).
  unfold process_course_body in Hb.
  apply bind_returns in Hb as (p & s3 & _ & Hb).
  apply bind_returns in Hb as (_ & s4 & _ & Hb).
  apply bind_returns in Hb as (success & s5 & Hrun & Hb).
  apply bind_returns in Hb as (_ & s6 & _ & Hb).
  simpl in Hb. injection Hb as ->.
  exists p. unfold process_with, SE.bind, emit, SE.modify in Hrun. simpl in Hrun.
  destruct (run_processor E i p u) as [b|e]; simpl in Hrun; [|discriminate].
  injection Hrun as -> _. reflexivity.
Qed.

Lemma processor_raises_fails E w i c :
  processor_raises E i c -> course_fails E w i c = true.
Proof.
  intros Hraise. unfold course_fails.
  destruct (fst (_process_course E i (url c) (init w))) as [[|]|e] eqn:H;
    try reflexivity.
  apply process_course_true in H as [p Hp].
  destruct (Hraise p) as [e He]. congruence.
Qed.

Lemma failing_from_elem E w queue : forall k i c,
  queue !! i = Some c -> course_fails E w (k + i) c = true ->
  (k + i) ∈ failing_from E w k queue.
Proof.
  induction queue as [|c' rest IH]; intros k i c Hi Hf; [discriminate|].
  simpl. apply elem_of_app. destruct i as [|i]; simpl in Hi.
  - injection Hi as ->. left. rewrite Nat.add_0_r in *. rewrite Hf.
    apply list_elem_of_singleton. reflexivity.
  - right. replace (k + S i) with (S k + i) in * by lia.
    apply (IH (S k) i c Hi Hf).
Qed.

Lemma cleanup_returns_ok E s : cleanup_returns E -> fst (cleanup E s) = Ret tt.
Proof.
  intros (Hs & Hc & Hp).
  unfold cleanup, SE.bind, SE.gets, SE.try_except, call, SE.bind, emit,
    SE.modify, outcome, SE.ret, SE.raise.
  rewrite Hs.
  destruct (close_context E) as [ec|]; [rewrite (Hc ec eq_refl) in *|];
    (destruct (stop_playwright E) as [ep|]; [rewrite (Hp ep eq_refl) in *|]);
    destruct (session s), (context s), (playwright s); simpl;
    rewrite ?(Hc _ eq_refl), ?(Hp _ eq_refl); reflexivity.
Qed.

(** C3: in a run that reaches the queue (health check, acquisition and login
    succeed) and sees no cancellation, every queued course is attempted, in
    order, whatever happened to the ones before it; each course whose
    processing fails, by returning [False] or by raising, adds exactly one to
    the failure count; a course whose processor raises is among them; and the
    boolean result is [True] exactly when the failure count is zero. *)
Theorem failures_are_counted_and_isolated (E : env) (w : ConfigManager.world) :
  fst (_health_check E (init w)) = Ret true ->
  fst (acquire_and_login E (init w)) = Ret tt ->
  no_cancellation E ->
  CourseUrlManager.get_all (url_manager E) <> [] ->
  attempted (trace (snd (start_downloads E (init w))))
    = seq 1 (length (CourseUrlManager.get_all (url_manager E)))
  /\ failed_count (snd (start_downloads E (init w)))
     = length (failing_from E w 1 (CourseUrlManager.get_all (url_manager E)))
  /\ success_count (snd (start_downloads E (init w)))
     + failed_count (snd (start_downloads E (init w)))
     = length (CourseUrlManager.get_all (url_manager E))
  /\ (forall i c,
        CourseUrlManager.get_all (url_manager E) !! i = Some c ->
        processor_raises E (S i) c ->
        S i ∈ failing_from E w 1 (CourseUrlManager.get_all (url_manager E)))
  /\ (cleanup_returns E ->
      fst (start_downloads E (init w))
      = Ret (failed_count (snd (start_downloads E (init w))) =? 0)%nat)
  /\ (forall b, fst (start_downloads E (init w)) = Ret b ->
        (b = true <-> failed_count (snd (start_downloads E (init w))) = 0)).
Proof.
  intros Hhealth Hacq Hnc Hqueue.
  set (queue := CourseUrlManager.get_all (url_manager E)) in *.
  (* the body of the [try] block *)
  destruct (quiet_acquire_and_login E (init w)) as [tr1 (Hc1 & Hs1 & Hf1 & Ht1 & Ha1)].
  destruct (acquire_and_login E (init w)) as [r1 s1] eqn:Hacq1.
  simpl in Hacq, Hc1, Hs1, Hf1, Ht1. subst r1.
  destruct (process_queue_spec E (length queue) Hnc queue 1 s1) as [tr2 [Hloop Ha2]].
  set (s2 := {| cfg := cfg s1; trace := trace s1 ++ tr2; session := session s1;
                playwright := playwright s1; context := context s1;
                success_count :=
                  success_count s1
                  + (length queue - length (failing_from E (cfg s1) 1 queue));
                failed_count :=
                  failed_count s1 + length (failing_from E (cfg s1) 1 queue) |}) in *.
  set (s3 := snd (emit (FinalReport (success_count s2) (failed_count s2)
                          (length queue)) s2)).
  assert (Hbody : run_body E queue (init w)
                  = (Ret (failed_count s2 =? 0)%nat, s3)).
  { unfold run_body, SE.bind. rewrite Hacq1, Hloop. reflexivity. }
  destruct (quiet_cleanup E s3) as [tr4 (Hc4 & Hs4 & Hf4 & Ht4 & Ha4)].
  assert (Hrun : start_downloads E (init w)
                 = (match fst (cleanup E s3) with
                    | Ret _ => Ret (failed_count s2 =? 0)%nat
                    | Raise e => Raise e
                    end, snd (cleanup E s3))).
  { unfold start_downloads, SE.bind.
    pose proof (read_only_health_check E (init w)) as Hro.
    destruct (_health_check E (init w)) as [r s']. simpl in Hhealth, Hro. subst.
    cbn [negb]. fold queue.
    destruct queue as [|c cs] eqn:Hq; [contradiction|].
    unfold try_finally, returning_false_on_any. rewrite Hbody.
    destruct (cleanup E s3) as [[u|e] s4]; reflexivity. }
  rewrite Hrun. cbn [fst snd].
  assert (Hfailed : failed_count (snd (cleanup E s3))
                    = length (failing_from E w 1 queue)).
  { rewrite Hf4. unfold s3, s2. simpl. rewrite Hf1, Hc1. reflexivity. }
  pose proof (failing_from_length E w 1 queue) as Hle.
  split; [|split; [|split; [|split; [|split]]]].
  - rewrite Ht4. unfold s3, s2. simpl. rewrite Ht1.
    rewrite !attempted_app, Ha1, Ha2, Ha4. simpl. rewrite ?app_nil_r. reflexivity.
  - exact Hfailed.
  - rewrite Hfailed, Hs4. unfold s3, s2. simpl. rewrite Hs1, Hc1. simpl. lia.
  - intros i c Hi Hraise.
    apply (failing_from_elem E w queue 1 i c Hi).
    apply processor_raises_fails, Hraise.
  - intros Hclean. rewrite (cleanup_returns_ok E s3 Hclean).
    f_equal. f_equal. rewrite Hfailed. unfold s2. simpl. rewrite Hf1, Hc1. reflexivity.
  - intros b Hb. destruct (fst (cleanup E s3)); [|discriminate].
    injection Hb as <-. rewrite Hfailed.
    unfold s2. simpl. rewrite Hf1, Hc1. simpl. apply Nat.eqb_eq.
Qed.

(** C1, evaluated on the code. Take any configuration of kind "pdf" whose
    [pdfConfig] section has the keys of the default configuration, with the
    extras flag defined there ([baixarMateriaisDeVideo]) set to true. Then no
    video processor is constructed or run for any course, whatever the PDF
    processor does: [_process_course] looks for the flag under another key,
    [baixarExtrasComPdf], which the section does not have. *)
Theorem default_extras_flag_is_not_read (E : env) (i : nat) (u : string)
    (w : ConfigManager.world) (entries pdf : list (string * value))
    (folder : string) :
  ConfigManager.config w = VDict entries ->
  Py.lookup entries "downloadType" = Some (VStr "pdf") ->
  Py.lookup entries "pdfConfig" = Some (VDict pdf) ->
  Py.lookup pdf "pastaDownloads" = Some (VStr folder) ->
  Py.lookup pdf "baixarMateriaisDeVideo" = Some (VBool true) ->
  Py.lookup pdf "baixarExtrasComPdf" = None ->
  fst (ConfigManager.get ["pdfConfig"; "baixarMateriaisDeVideo"] (VBool false) w)
    = Ret (VBool true)
  /\ forallb (fun ev => negb (is_video_event ev))
       (trace (snd (_process_course E i u (init w)))) = true
  /\ (forall pdf_type,
        Py.dict_get pdf "pdfType" (VNum 2) = pdf_type ->
        construct E i (PDFProcessor folder pdf_type) = None ->
        run_processor E i (PDFProcessor folder pdf_type) u = Ret true ->
        fst (_process_course E i u (init w)) = Ret true).
Proof.
  intros Hcfg Hkind Hpdf Hfolder Hflag Hkey.
  destruct w as [c d k]. simpl in Hcfg. subst c.
  assert (Hk1 : forall v, Py.dict_get entries "downloadType" v = VStr "pdf")
    by (intros v; unfold Py.dict_get; rewrite Hkind; reflexivity).
  assert (Hk2 : forall v, Py.dict_get entries "pdfConfig" v = VDict pdf)
    by (intros v; unfold Py.dict_get; rewrite Hpdf; reflexivity).
  assert (Hk3 : forall v, Py.dict_get pdf "pastaDownloads" v = VStr folder)
    by (intros v; unfold Py.dict_get; rewrite Hfolder; reflexivity).
  assert (Hk4 : Py.dict_get pdf "baixarExtrasComPdf" (VBool false) = VBool false)
    by (unfold Py.dict_get; rewrite Hkey; reflexivity).
  assert (Hk5 : forall v, Py.dict_get pdf "baixarMateriaisDeVideo" v = VBool true)
    by (intros v; unfold Py.dict_get; rewrite Hflag; reflexivity).
  split.
  { unfold ConfigManager.get, SE.gets. cbn -[Py.dict_get].
    rewrite Hk2, Hk5. reflexivity. }
  unfold _process_course, returning_false_on_error, process_course_body,
    _create_pdf_processor, propagate_cancel, process_with, call, outcome,
    as_path, emit, lift_cfg, ConfigManager.config_get, ConfigManager.get,
    SE.bind, SE.gets, SE.modify, SE.ret, SE.raise.
  repeat (progress (cbn -[Py.dict_get]; rewrite ?Hk1, ?Hk2, ?Hk3, ?Hk4)).
  set (pdf_type := Py.dict_get pdf "pdfType" (VNum 2)).
  split.
  - destruct (construct E i (PDFProcessor folder pdf_type)); [reflexivity|].
    destruct (cancel_requested E i 1);
      (destruct (run_processor E i (PDFProcessor folder pdf_type) u) as [[|]|e];
       [|reflexivity|reflexivity]);
      repeat (progress (cbn -[Py.dict_get]; rewrite ?Hk1, ?Hk2, ?Hk3, ?Hk4));
      reflexivity.
  - intros pt <- Hnew Hrun. fold pdf_type in Hnew, Hrun. rewrite Hnew.
    destruct (cancel_requested E i 1);
      repeat (progress (cbn -[Py.dict_get]; rewrite ?Hrun, ?Hk1, ?Hk2, ?Hk3, ?Hk4));
      reflexivity.
Qed.

(** Closing the session is the one cleanup step without a handler of its own:
    when it raises, the [finally] block stops there. *)
Lemma cleanup_stops_at_session_close E s e :
  session s = true -> close_session E = Some e ->
  cleanup E s = (Raise e, add_trace [CloseSession] s).
Proof.
  intros Hs He.
  unfold cleanup, SE.bind, SE.gets, call, SE.bind, emit, SE.modify, outcome,
    SE.raise.
  rewrite Hs, He. reflexivity.
Qed.

(** C2, evaluated on the code: however the [try] block [body] ends, if the
    session was acquired and [session.close()] raises, then neither
    [context.close()] nor [playwright.stop()] is attempted (after the block
    the trace gains the call that closes the session and nothing else, the
    context and the engine stay as they were) and the exception leaves
    [start_downloads] in place of the block's result. *)
Theorem session_close_failure_skips_cleanup (E : env) (body : M bool)
    (s : state) (e : exn) :
  session (snd (body s)) = true ->
  close_session E = Some e ->
  fst (try_finally body (cleanup E) s) = Raise e
  /\ trace (snd (try_finally body (cleanup E) s))
     = trace (snd (body s)) ++ [CloseSession]
  /\ context (snd (try_finally body (cleanup E) s)) = context (snd (body s))
  /\ playwright (snd (try_finally body (cleanup E) s)) = playwright (snd (body s)).
Proof.
  intros Hs He. unfold try_finally.
  destruct (body s) as [r s'] eqn:Hbody. simpl in Hs.
  rewrite (cleanup_stops_at_session_close E s' e Hs He).
  repeat split; reflexivity.
Qed.

End RunFacts.

(** Three courses, only the second throws: the third is attempted, one
    failure is counted and the run answers [False]. *)
Lemma failures_are_counted_and_isolated_witness :
  let E := Sample.env_with Sample.three_courses Sample.second_throws None in
  let final := DownloadManager.start_downloads E (DownloadManager.init Sample.ready) in
  DownloadManager.attempted (DownloadManager.trace (snd final)) = [1; 2; 3]
  /\ DownloadManager.failed_count (snd final) = 1
  /\ DownloadManager.success_count (snd final) = 2
  /\ 2 ∈ DownloadManager.failing_from E Sample.ready 1 Sample.three_courses
  /\ fst final = Ret false.
Proof.
  intros E final.
  assert (Hhealth : fst (DownloadManager._health_check E
                           (DownloadManager.init Sample.ready)) = Ret true)
    by (vm_compute; reflexivity).
  assert (Hacq : fst (DownloadManager.acquire_and_login E
                        (DownloadManager.init Sample.ready)) = Ret tt)
    by (vm_compute; reflexivity).
  assert (Hnc : DownloadManager.no_cancellation E).
  { split; [intros i; reflexivity | intros cb i total e H; discriminate]. }
  assert (Hq : CourseUrlManager.get_all (DownloadManager.url_manager E) <> [])
    by discriminate.
  assert (Hclean : DownloadManager.cleanup_returns E).
  { split; [reflexivity | split; intros e H; discriminate]. }
  assert (Hthrows : DownloadManager.processor_raises E 2 (Sample.course_at "civil")).
  { intros p. exists ExException. reflexivity. }
  destruct (failures_are_counted_and_isolated E Sample.ready Hhealth Hacq Hnc Hq)
    as (Hall & Hfailed & Hsum & Hin & Hres & _).
  assert (Hcount : DownloadManager.failed_count (snd final) = 1).
  { unfold final. rewrite Hfailed. vm_compute. reflexivity. }
  split; [exact Hall|]. split; [exact Hcount|]. split.
  { unfold final in *. rewrite Hcount in Hsum. simpl in Hsum. lia. }
  split; [exact (Hin 1 (Sample.course_at "civil") eq_refl Hthrows)|].
  unfold final in *. rewrite (Hres Hclean), Hcount. reflexivity.
Defined.

Lemma empty_queue_fails_without_acquiring_witness :
  let E := Sample.env_with [] Sample.all_succeed None in
  fst (DownloadManager._health_check E (DownloadManager.init Sample.ready)) = Ret true
  /\ CourseUrlManager.get_all (DownloadManager.url_manager E) = []
  /\ fst (DownloadManager.start_downloads E (DownloadManager.init Sample.ready))
     = Ret false
  /\ DownloadManager.trace
       (snd (DownloadManager.start_downloads E (DownloadManager.init Sample.ready)))
     = [].
Proof.
  intros E.
  assert (Hhealth : fst (DownloadManager._health_check E
                           (DownloadManager.init Sample.ready)) = Ret true)
    by (vm_compute; reflexivity).
  split; [exact Hhealth|]. split; [reflexivity|].
  destruct (empty_queue_fails_without_acquiring E Sample.ready Hhealth eq_refl)
    as (Hres & Htrace & _).
  split; [exact Hres | exact Htrace].
Defined.

(** The failing input of C1: the default configuration with an e-mail and the
    extras flag of its [pdfConfig] section set to true. *)
Lemma default_extras_flag_is_not_read_witness :
  let E := Sample.env_with Sample.three_courses Sample.all_succeed None in
  let u := url (Sample.course_at "penal") in
  let run := DownloadManager._process_course E 1 u (DownloadManager.init Sample.flagged) in
  fst (ConfigManager.get ["pdfConfig"; "baixarMateriaisDeVideo"] (VBool false)
         Sample.flagged) = Ret (VBool true)
  /\ forallb (fun ev => negb (DownloadManager.is_video_event ev))
       (DownloadManager.trace (snd run)) = true
  /\ fst run = Ret true.
Proof.
  intros E u run.
  destruct (default_extras_flag_is_not_read E 1 u Sample.flagged
              _ _ "/home/ana/Downloads/Estrategia_PDFs"
              eq_refl eq_refl eq_refl eq_refl eq_refl eq_refl)
    as (Hflag & Hnone & Hok).
  split; [exact Hflag|]. split; [exact Hnone|].
  exact (Hok (VNum 2) eq_refl eq_refl eq_refl).
Defined.

(** The same course with the flag stored under the key the code reads: the
    extras-only video processor is built on the PDF folder and run after the
    PDF processor. *)
Example extras_run_under_the_key_the_code_reads :
  let E := Sample.env_with Sample.three_courses Sample.all_succeed None in
  let pdf := DownloadManager.PDFProcessor "/home/ana/Downloads/Estrategia_PDFs" (VNum 2) in
  let extras :=
    DownloadManager.VideoProcessor "/home/ana/Downloads/Estrategia_PDFs"
      (VStr "360p") (VBool true) true in
  DownloadManager.trace
    (snd (DownloadManager._process_course E 1 "u" (DownloadManager.init Sample.code_key)))
  = [DownloadManager.Construct pdf; DownloadManager.ProcessCourse pdf "u";
     DownloadManager.Construct extras; DownloadManager.ProcessCourse extras "u"].
Proof. vm_compute. reflexivity. Qed.

(** The failing input of C2: a run of three courses that all succeed, in
    which closing the session raises. *)
Lemma session_close_failure_skips_cleanup_witness :
  let E := Sample.env_with Sample.three_courses Sample.all_succeed (Some ExException) in
  let body := DownloadManager.returning_false_on_any
                (DownloadManager.run_body E Sample.three_courses) in
  let s := DownloadManager.init Sample.ready in
  DownloadManager.session (snd (body s)) = true
  /\ fst (body s) = Ret true
  /\ DownloadManager.start_downloads E s
     = DownloadManager.try_finally body (DownloadManager.cleanup E) s
  /\ fst (DownloadManager.try_finally body (DownloadManager.cleanup E) s)
     = Raise ExException
  /\ DownloadManager.trace
       (snd (DownloadManager.try_finally body (DownloadManager.cleanup E) s))
     = DownloadManager.trace (snd (body s)) ++ [DownloadManager.CloseSession].
Proof.
  intros E body s.
  assert (Hs : DownloadManager.session (snd (body s)) = true)
    by (vm_compute; reflexivity).
  split; [exact Hs|]. split; [vm_compute; reflexivity|].
  split; [vm_compute; reflexivity|].
  destruct (session_close_failure_skips_cleanup E body s ExException Hs eq_refl)
    as (Hres & Htrace & _).
  split; [exact Hres | exact Htrace].
Defined.



(** * Further properties of the code *)

(** ** ConfigManager: [set], [get], [save_config], [load] *)

Section ConfigStoreFacts.

Import ConfigManager.

Lemma lookup_dict_set_eq entries k v : Py.lookup (Py.dict_set entries k v) k = Some v.
Proof.
  induction entries as [|[k' v'] rest IH]; simpl.
  - rewrite String.eqb_refl. reflexivity.
  - destruct (String.eqb k' k) eqn:Hk; simpl; rewrite Hk; [reflexivity | exact IH].
Qed.

Lemma lookup_dict_set_ne entries k k' v :
  k <> k' -> Py.lookup (Py.dict_set entries k v) k' = Py.lookup entries k'.
Proof.
  intros Hne. induction entries as [|[k0 v0] rest IH]; simpl.
  - apply String.eqb_neq in Hne. rewrite Hne. reflexivity.
  - destruct (String.eqb k0 k) eqn:Hk; simpl.
    + apply String.eqb_eq in Hk. subst k0.
      apply String.eqb_neq in Hne. rewrite Hne. reflexivity.
    + destruct (String.eqb k0 k'); [reflexivity | exact IH].
Qed.

Lemma get_from_set_in path : forall entries last_key v d,
  get_from (VDict (set_in entries path last_key v)) (path ++ [last_key]) d = v.
Proof.
  induction path as [|k ks IH]; intros entries last_key v d; simpl.
  - unfold Py.dict_get. rewrite lookup_dict_set_eq. reflexivity.
  - unfold Py.dict_get. rewrite lookup_dict_set_eq. apply IH.
Qed.

Lemma last_of_keys (path : list string) (k : string) :
  List.last (map Some (path ++ [k])) None = Some k.
Proof. rewrite map_app. simpl. apply last_last. Qed.

Lemma set_on_dict path last_key v w entries :
  config w = VDict entries ->
  set (path ++ [last_key]) v w
  = (Ret tt, with_config (VDict (set_in entries path last_key v)) w).
Proof.
  intros Hc. unfold set. rewrite last_of_keys, Hc, removelast_last. reflexivity.
Qed.

Lemma keys_split (keys : list string) :
  keys <> [] -> exists path last_key, keys = path ++ [last_key].
Proof.
  intros Hne. destruct (exists_last Hne) as [path [k Hk]]. exists path, k. exact Hk.
Qed.

(** X1: on a configuration that is a mapping, [set] along a non-empty path
    returns normally and a [get] along the same path then yields the value
    written, whatever the default and whatever was stored on the way before
    (missing sections are created, values that are not mappings are
    replaced). *)
Theorem set_then_get (keys : list string) (v d : value) (w : world)
    (entries : list (string * value)) :
  config w = VDict entries ->
  keys <> [] ->
  fst (set keys v w) = Ret tt
  /\ fst (get keys d (snd (set keys v w))) = Ret v
  /\ disk (snd (set keys v w)) = disk w
  /\ keyring (snd (set keys v w)) = keyring w.
Proof.
  intros Hc Hne. destruct (keys_split keys Hne) as (path & last_key & ->).
  rewrite (set_on_dict path last_key v w entries Hc). simpl.
  repeat split. unfold get, SE.gets. simpl. f_equal. apply get_from_set_in.
Qed.

(** The walk of [set] and the walk of [get] leave a sibling alone: below a
    common prefix that leads through mappings, a key other than the one [set]
    follows keeps what it had. *)
Lemma set_in_frame prefix : forall entries sub a rest last_key v b qs d,
  descend (VDict entries) prefix = Some (VDict sub) ->
  a <> b ->
  (get_from (VDict (set_in entries (prefix ++ a :: rest) last_key v))
     (prefix ++ b :: qs) d
   = get_from (VDict entries) (prefix ++ b :: qs) d)
  /\ (get_from (VDict (set_in entries prefix a v)) (prefix ++ b :: qs) d
      = get_from (VDict entries) (prefix ++ b :: qs) d).
Proof.
  induction prefix as [|k ks IH]; intros entries sub a rest last_key v b qs d Hwalk Hab.
  - simpl. unfold Py.dict_get. rewrite !lookup_dict_set_ne by exact Hab.
    split; reflexivity.
  - simpl in Hwalk. destruct (Py.lookup entries k) as [x|] eqn:Hk; [|discriminate].
    destruct ks as [|k2 ks2].
    + simpl in Hwalk. injection Hwalk as ->.
      simpl. unfold Py.dict_get at 1 3 5 7. rewrite !lookup_dict_set_eq, Hk.
      cbn [get_from]. unfold Py.dict_get. rewrite !lookup_dict_set_ne by exact Hab.
      split; reflexivity.
    + destruct x as [| | | | |inner]; try discriminate.
      destruct (IH inner sub a rest last_key v b qs d Hwalk Hab) as [H1 H2].
      cbn [app set_in get_from]. unfold Py.dict_get at 1 3 5 7.
      rewrite !lookup_dict_set_eq, Hk. split; [exact H1 | exact H2].
Qed.

(** X2: [set] changes only its own path. If the configuration has mappings
    all the way down some prefix of the path, every other key below that
    prefix reads the same after the [set] as before. *)
Theorem set_leaves_siblings (prefix : list string) (a b : string)
    (rest qs : list string) (v d : value) (w : world)
    (entries sub : list (string * value)) :
  config w = VDict entries ->
  descend (VDict entries) prefix = Some (VDict sub) ->
  a <> b ->
  fst (get (prefix ++ b :: qs) d (snd (set (prefix ++ a :: rest) v w)))
  = fst (get (prefix ++ b :: qs) d w).
Proof.
  intros Hc Hwalk Hab. unfold get, SE.gets. simpl. f_equal. rewrite Hc.
  destruct (set_in_frame prefix entries sub a) with
    (rest := removelast rest) (last_key := List.last rest a) (v := v)
    (b := b) (qs := qs) (d := d) as [Hdeep Hlast]; try assumption.
  destruct rest as [|r rs].
  - rewrite (set_on_dict prefix a v w entries Hc). simpl. exact Hlast.
  - assert (Hsplit : prefix ++ a :: r :: rs
                     = (prefix ++ a :: removelast (r :: rs)) ++ [List.last (r :: rs) a]).
    { rewrite <- app_assoc, <- app_comm_cons. f_equal. f_equal.
      apply app_removelast_last. discriminate. }
    rewrite Hsplit, (set_on_dict _ _ v w entries Hc). simpl. exact Hdeep.
Qed.

Lemma backup_is_not_config : CONFIG_BACKUP <> CONFIG_FILE.
Proof. discriminate. Qed.

(** X3: [save_config] does not lose what was on disk. When [config.json]
    exists, its previous content is still on disk after the call, whatever
    step fails: under [config.json.bak] once the rename went through, under
    [config.json] itself when the rename raised (then nothing at all has
    changed). The configuration in memory and the keyring are untouched; a
    call in which every step succeeds leaves the configuration in
    [config.json]; one in which a step fails is reported by an exception. *)
Theorem save_config_keeps_previous (io : io_outcome) (w : world)
    (old : file_content) :
  disk w !! CONFIG_FILE = Some old ->
  (disk (snd (save_config io w)) !! CONFIG_BACKUP = Some old
   \/ disk (snd (save_config io w)) !! CONFIG_FILE = Some old)
  /\ (io <> IoFailRotate ->
      disk (snd (save_config io w)) !! CONFIG_BACKUP = Some old)
  /\ (io = IoFailRotate -> save_config io w = (Raise ExException, w))
  /\ config (snd (save_config io w)) = config w
  /\ keyring (snd (save_config io w)) = keyring w
  /\ (io = IoOk ->
      fst (save_config io w) = Ret tt
      /\ disk (snd (save_config io w)) !! CONFIG_FILE = Some (FJson (config w)))
  /\ (io <> IoOk -> fst (save_config io w) = Raise ExException).
Proof.
  intros Hold. unfold save_config. rewrite Hold.
  assert (Hne : CONFIG_FILE <> CONFIG_BACKUP)
    by (intros H; exact (backup_is_not_config (eq_sym H))).
  destruct io; simpl.
  - rewrite lookup_insert_ne by exact Hne.
    rewrite lookup_insert_eq.
    repeat split; try reflexivity; try congruence.
    + left. reflexivity.
    + apply lookup_insert_eq.
  - repeat split; try reflexivity; try congruence. right. exact Hold.
  - rewrite lookup_insert_eq.
    repeat split; try reflexivity; try discriminate. left. reflexivity.
  - rewrite lookup_insert_ne by exact Hne.
    rewrite lookup_insert_eq.
    repeat split; try reflexivity; try discriminate. left. reflexivity.
Qed.

(** X4: what a successful [save_config] wrote is what a new manager loads:
    the reloaded configuration equals the saved one, and the reload writes
    nothing. *)
Theorem save_then_load (E : env) (stamp : string) (rename_ok : bool)
    (io : io_outcome) (w : world) :
  load E true stamp rename_ok io (snd (save_config IoOk w))
  = (Ret tt, snd (save_config IoOk w))
  /\ config (snd (load E true stamp rename_ok io (snd (save_config IoOk w))))
     = config w.
Proof.
  assert (H : load E true stamp rename_ok io (snd (save_config IoOk w))
              = (Ret tt, snd (save_config IoOk w))).
  { unfold load, SE.bind, _load_config, save_config. simpl.
    rewrite lookup_insert_eq. reflexivity. }
  split; [exact H|]. rewrite H. reflexivity.
Qed.

Lemma timestamped_is_not_config stamp : backup_path stamp <> CONFIG_FILE.
Proof. unfold backup_path, CONFIG_FILE. simpl. discriminate. Qed.

(** X5: a [config.json] that does not decode never makes [load] raise: the
    manager starts from the default configuration. When the file is text but
    not JSON, the repair runs: if the rename and the write succeed, the
    corrupt text is kept under the time-stamped backup name and
    [config.json] holds the default configuration; if the rename fails, the
    disk is left as it was. When the file is not even text, there is no
    repair: no backup is made and the file stays as it is. *)
Theorem corrupt_config_is_backed_up (E : env) (stamp : string)
    (rename_ok : bool) (io : io_outcome) (w : world) :
  (disk w !! CONFIG_FILE = Some FGarbage ->
   fst (load E true stamp rename_ok io w) = Ret tt
   /\ config (snd (load E true stamp rename_ok io w)) = _get_default_config E
   /\ keyring (snd (load E true stamp rename_ok io w)) = keyring w
   /\ (rename_ok = true -> io = IoOk ->
       disk (snd (load E true stamp rename_ok io w)) !! backup_path stamp
       = Some FGarbage
       /\ disk (snd (load E true stamp rename_ok io w)) !! CONFIG_FILE
          = Some (FJson (_get_default_config E)))
   /\ (rename_ok = false ->
       disk (snd (load E true stamp rename_ok io w)) = disk w))
  /\ (disk w !! CONFIG_FILE = Some FNotText ->
      load E true stamp rename_ok io w
      = (Ret tt, with_config (_get_default_config E) w)).
Proof.
  split.
  - intros Hbad.
    assert (Hne : CONFIG_FILE <> backup_path stamp)
      by (intros H; exact (timestamped_is_not_config stamp (eq_sym H))).
    unfold load, SE.bind, _load_config. rewrite Hbad.
    unfold _backup_and_repair_config, SE.try_except, SE.bind, rename_to_backup.
    rewrite Hbad.
    destruct rename_ok; simpl.
    + unfold save_config. simpl.
      rewrite lookup_insert_ne by exact (timestamped_is_not_config stamp).
      rewrite lookup_delete_eq.
      destruct io; simpl; repeat split; try reflexivity; try discriminate.
      * rewrite lookup_insert_ne by exact Hne. apply lookup_insert_eq.
      * apply lookup_insert_eq.
    + repeat split; try reflexivity; discriminate.
  - intros Hbad. unfold load, SE.bind, _load_config. rewrite Hbad. reflexivity.
Qed.

Variable E : env.

Lemma config_get_on_dict k d w entries :
  config w = VDict entries ->
  config_get k d w = (Ret (Py.dict_get entries k d), w).
Proof. intros Hc. unfold config_get. rewrite Hc. reflexivity. Qed.

Lemma is_empty_false (s : string) : s <> EmptyString -> Text.is_empty s = false.
Proof. destruct s; [congruence | reflexivity]. Qed.

Lemma get_password_returns (w : world) (entries : list (string * value)) :
  config w = VDict entries -> exists r, get_password E w = (Ret r, w).
Proof.
  intros Hc. unfold get_password, SE.bind. rewrite (config_get_on_dict _ _ _ _ Hc).
  destruct (Py.truthy (Py.dict_get entries "email" VNone)); simpl;
    [|eexists; reflexivity].
  unfold SE.try_except, SE.bind, keyring_get_password.
  destruct (Py.dict_get entries "email" VNone); simpl; try (eexists; reflexivity).
  destruct (keyring_up E); simpl; [|eexists; reflexivity].
  destruct (keyring w !! (SERVICE_NAME, s)) as [c|]; simpl; [|eexists; reflexivity].
  destruct (Text.is_empty c); simpl; [eexists; reflexivity|].
  destruct (decrypt E c); simpl; eexists; reflexivity.
Qed.

Lemma get_password_no_email (w : world) (entries : list (string * value)) :
  config w = VDict entries ->
  Py.truthy (Py.dict_get entries "email" VNone) = false ->
  get_password E w = (Ret None, w).
Proof.
  intros Hc Hno. unfold get_password, SE.bind.
  rewrite (config_get_on_dict _ _ _ _ Hc), Hno. reflexivity.
Qed.

Lemma get_password_keyring_down (w : world) (entries : list (string * value)) :
  config w = VDict entries -> keyring_up E = false ->
  get_password E w = (Ret None, w).
Proof.
  intros Hc Hdown. unfold get_password, SE.bind.
  rewrite (config_get_on_dict _ _ _ _ Hc).
  destruct (Py.truthy (Py.dict_get entries "email" VNone)); simpl; [|reflexivity].
  unfold SE.try_except, SE.bind, keyring_get_password.
  destruct (Py.dict_get entries "email" VNone); simpl; try reflexivity.
  rewrite Hdown. reflexivity.
Qed.

Lemma get_password_on_entry (w : world) (entries : list (string * value))
    (u : string) :
  config w = VDict entries ->
  Py.dict_get entries "email" VNone = VStr u ->
  get_password E w
  = (Ret (if Py.truthy (VStr u) && keyring_up E then
            match keyring w !! (SERVICE_NAME, u) with
            | Some token => if Text.is_empty token then None else decrypt E token
            | None => None
            end
          else None), w).
Proof.
  intros Hc Hu. unfold get_password, SE.bind.
  rewrite (config_get_on_dict _ _ _ _ Hc), Hu.
  destruct (Py.truthy (VStr u)); simpl; [|reflexivity].
  unfold SE.try_except, SE.bind, keyring_get_password.
  destruct (keyring_up E); simpl; [|reflexivity].
  destruct (keyring w !! (SERVICE_NAME, u)) as [token|]; simpl; [|reflexivity].
  destruct (Text.is_empty token); simpl; [reflexivity|].
  destruct (decrypt E token); reflexivity.
Qed.

(** X6: on a configuration that is a mapping, [get_password] always returns
    (it never raises) and leaves the state alone; it answers [None] when no
    e-mail is set, when the keyring backend fails, when the keyring has no
    entry, and when the stored token does not decrypt. *)
Theorem get_password_never_raises (w : world) (entries : list (string * value)) :
  config w = VDict entries ->
  (exists r, get_password E w = (Ret r, w))
  /\ (Py.truthy (Py.dict_get entries "email" VNone) = false ->
      get_password E w = (Ret None, w))
  /\ (keyring_up E = false -> get_password E w = (Ret None, w))
  /\ (forall u, Py.dict_get entries "email" VNone = VStr u ->
        keyring w !! (SERVICE_NAME, u) = None ->
        get_password E w = (Ret None, w))
  /\ (forall u token, Py.dict_get entries "email" VNone = VStr u ->
        keyring w !! (SERVICE_NAME, u) = Some token ->
        decrypt E token = None ->
        get_password E w = (Ret None, w)).
Proof.
  intros Hc.
  split; [exact (get_password_returns w entries Hc)|].
  split; [exact (get_password_no_email w entries Hc)|].
  split; [exact (get_password_keyring_down w entries Hc)|].
  split.
  - intros u Hu Hnone. rewrite (get_password_on_entry w entries u Hc Hu), Hnone.
    destruct (_ && _); reflexivity.
  - intros u token Hu Hsome Hbad.
    rewrite (get_password_on_entry w entries u Hc Hu), Hsome, Hbad.
    destruct (_ && _); [|reflexivity]. destruct (Text.is_empty token); reflexivity.
Qed.

(** X7: a password stored by [set_password] is the one [get_password] gives
    back, when the keyring works and the cipher decrypts what it encrypted;
    storing it changes the keyring only: the configuration and every file are
    as before (the password is written to no file). *)
Theorem set_then_get_password (encrypt : string -> option string)
    (password token u : string) (w : world) (entries : list (string * value)) :
  config w = VDict entries ->
  Py.lookup entries "email" = Some (VStr u) ->
  u <> EmptyString ->
  password <> EmptyString ->
  keyring_up E = true ->
  encrypt password = Some token ->
  token <> EmptyString ->
  decrypt E token = Some password ->
  fst (set_password E encrypt password w) = Ret tt
  /\ fst (get_password E (snd (set_password E encrypt password w)))
     = Ret (Some password)
  /\ config (snd (set_password E encrypt password w)) = config w
  /\ disk (snd (set_password E encrypt password w)) = disk w.
Proof.
  intros Hc Hemail Hu Hpw Hup Henc Htok Hdec.
  assert (Hget : Py.dict_get entries "email" VNone = VStr u)
    by (unfold Py.dict_get; rewrite Hemail; reflexivity).
  assert (Hrun : set_password E encrypt password w
                 = (Ret tt,
                    {| config := config w; disk := disk w;
                       keyring := <[(SERVICE_NAME, u) := token]> (keyring w) |})).
  { unfold set_password, SE.bind. rewrite (config_get_on_dict _ _ _ _ Hc), Hget.
    simpl. rewrite (is_empty_false u Hu), (is_empty_false password Hpw). simpl.
    rewrite Henc. unfold keyring_set_password. rewrite Hup. reflexivity. }
  rewrite Hrun. simpl. repeat split.
  unfold get_password, SE.bind, config_get. simpl. rewrite Hc, Hget. simpl.
  rewrite (is_empty_false u Hu). simpl.
  unfold SE.try_except, SE.bind, keyring_get_password. rewrite Hup. simpl.
  rewrite lookup_insert_eq. simpl. rewrite (is_empty_false token Htok), Hdec.
  reflexivity.
Qed.

(** X8: [set_password] refuses to work without an e-mail or with an empty
    password: it raises and nothing is stored. *)
Theorem set_password_rejects (encrypt : string -> option string)
    (password : string) (w : world) (entries : list (string * value)) :
  config w = VDict entries ->
  Py.truthy (Py.dict_get entries "email" VNone) = false \/ password = EmptyString ->
  set_password E encrypt password w = (Raise ExException, w).
Proof.
  intros Hc Hbad. unfold set_password, SE.bind.
  rewrite (config_get_on_dict _ _ _ _ Hc).
  destruct (Py.truthy (Py.dict_get entries "email" VNone)); simpl; [|reflexivity].
  destruct Hbad as [Hbad | ->]; [discriminate | reflexivity].
Qed.

(** X9: [delete_password] never raises on a configuration that is a mapping
    and touches neither the configuration nor the files. When the keyring
    does not refuse the deletion, [get_password] finds nothing afterwards.
    When it refuses, [delete_password] returns all the same, without a sign
    to its caller, and the credential is still stored. *)
Theorem delete_then_get_password (refused : bool) (w : world)
    (entries : list (string * value)) :
  config w = VDict entries ->
  fst (delete_password E refused w) = Ret tt
  /\ config (snd (delete_password E refused w)) = config w
  /\ disk (snd (delete_password E refused w)) = disk w
  /\ (refused = false ->
      fst (get_password E (snd (delete_password E refused w))) = Ret None)
  /\ (refused = true -> delete_password E refused w = (Ret tt, w)).
Proof.
  intros Hc.
  pose proof (get_password_no_email w entries Hc) as Hnoemail.
  pose proof (get_password_keyring_down w entries Hc) as Hdown.
  unfold delete_password, SE.bind. rewrite (config_get_on_dict _ _ _ _ Hc).
  destruct (Py.truthy (Py.dict_get entries "email" VNone)) eqn:Htruthy; simpl.
  2:{ repeat split; try reflexivity. intros _. rewrite (Hnoemail eq_refl). reflexivity. }
  unfold SE.try_except, keyring_delete_password.
  destruct (Py.dict_get entries "email" VNone) as [| | |u| |] eqn:Hemail; simpl;
    try (repeat split; try reflexivity; intros _;
         unfold get_password, SE.bind; rewrite (config_get_on_dict _ _ _ _ Hc), Hemail;
         simpl in *; rewrite ?Htruthy; reflexivity).
  destruct (keyring_up E) eqn:Hup; simpl.
  2:{ repeat split; try reflexivity. intros _. rewrite (Hdown eq_refl). reflexivity. }
  destruct (keyring w !! (SERVICE_NAME, u)) as [c|] eqn:Hk; simpl.
  - destruct refused; simpl.
    + repeat split; try reflexivity. discriminate.
    + repeat split; try reflexivity; [|discriminate]. intros _.
      unfold get_password, SE.bind, config_get. simpl. rewrite Hc, Hemail.
      rewrite Htruthy. simpl.
      unfold SE.try_except, SE.bind, keyring_get_password. rewrite Hup. simpl.
      rewrite lookup_delete_eq. reflexivity.
  - repeat split; try reflexivity. intros _.
    rewrite (get_password_on_entry w entries u Hc Hemail), Hk.
    destruct (_ && _); reflexivity.
Qed.

Lemma app_nil_parts {A} (l1 l2 : list A) : l1 ++ l2 = [] -> l1 = [] /\ l2 = [].
Proof. destruct l1; simpl; [intros ->; split; reflexivity | discriminate]. Qed.

Lemma str_eq_true v s : Py.str_eq v s = true -> v = VStr s.
Proof.
  destruct v; simpl; try discriminate. intros H. apply String.eqb_eq in H.
  congruence.
Qed.

(** What a "valid" answer of [validate] was computed from. *)
Lemma validate_ok_parts (w : world) (errors : list config_error) :
  fst (validate E w) = Ret (true, errors) ->
  errors = []
  /\ exists entries pw,
       config w = VDict entries
       /\ Py.truthy (Py.dict_get entries "email" VNone) = true
       /\ get_password E w = (Ret pw, w)
       /\ password_missing pw = false
       /\ Py.str_eq (Py.dict_get entries "downloadType" VNone) "pdf"
          || Py.str_eq (Py.dict_get entries "downloadType" VNone) "video" = true
       /\ check_folder E (get_from (VDict entries) ["pdfConfig"; "pastaDownloads"] VNone)
            PdfParentMissing PdfPathInvalid = []
       /\ check_folder E (get_from (VDict entries) ["videoConfig"; "pastaDownloads"] VNone)
            VideoParentMissing VideoPathInvalid = [].
Proof.
  unfold validate, SE.bind at 1.
  destruct (config w) as [| | | | |entries] eqn:Hc;
    try (unfold config_get; rewrite Hc; discriminate).
  rewrite (config_get_on_dict _ _ _ _ Hc).
  set (email := Py.dict_get entries "email" VNone).
  destruct (get_password_returns w entries Hc) as [pw Hpw].
  unfold SE.bind.
  destruct (Py.truthy email) eqn:Htruthy; simpl.
  2:{ rewrite Hpw, (config_get_on_dict _ _ _ _ Hc). simpl. discriminate. }
  destruct (contains_at email w) as [[has_at|e] w1] eqn:Hat; [|discriminate].
  assert (Hw1 : w1 = w).
  { pose proof (read_only_contains_at email w) as Hro. rewrite Hat in Hro. exact Hro. }
  subst w1. simpl. rewrite Hpw, (config_get_on_dict _ _ _ _ Hc).
  unfold get, SE.gets, SE.ret. simpl. rewrite Hc.
  set (dt := Py.dict_get entries "downloadType" VNone).
  intros H. injection H as Hok Herr.
  match type of Herr with ?l = errors => destruct l eqn:Hl; [|discriminate] end.
  subst errors. split; [reflexivity|].
  apply app_nil_parts in Hl as [_ Hl].
  apply app_nil_parts in Hl as [Hpwd Hl].
  apply app_nil_parts in Hl as [Hkind Hl].
  apply app_nil_parts in Hl as [Hpdf Hvideo].
  exists entries, pw. split; [reflexivity|]. split; [exact Htruthy|].
  split; [reflexivity|].
  split; [destruct (password_missing pw); [discriminate | reflexivity]|].
  split; [destruct (_ || _); [reflexivity | discriminate]|].
  split; [exact Hpdf | exact Hvideo].
Qed.

(** X10: [validate] answers "valid" only when nothing is wrong: the error list
    is empty, an e-mail is set, [get_password] yields a non-empty password,
    the download kind is "pdf" or "video", and neither folder check found a
    problem. *)
Theorem validate_ok_means (w : world) (errors : list config_error) :
  fst (validate E w) = Ret (true, errors) ->
  errors = []
  /\ exists entries,
       config w = VDict entries
       /\ Py.truthy (Py.dict_get entries "email" VNone) = true
       /\ (exists pw, get_password E w = (Ret (Some pw), w) /\ pw <> EmptyString)
       /\ (Py.dict_get entries "downloadType" VNone = VStr "pdf"
           \/ Py.dict_get entries "downloadType" VNone = VStr "video")
       /\ check_folder E (get_from (config w) ["pdfConfig"; "pastaDownloads"] VNone)
            PdfParentMissing PdfPathInvalid = []
       /\ check_folder E (get_from (config w) ["videoConfig"; "pastaDownloads"] VNone)
            VideoParentMissing VideoPathInvalid = [].
Proof.
  intros Hok.
  destruct (validate_ok_parts w errors Hok)
    as (Herr & entries & pw & Hc & Hemail & Hpw & Hmiss & Hkind & Hpdf & Hvideo).
  split; [exact Herr|]. exists entries. rewrite Hc.
  split; [reflexivity|]. split; [exact Hemail|].
  split; [|split; [|split; [exact Hpdf | exact Hvideo]]].
  - destruct pw as [p|]; [|discriminate]. exists p. split; [exact Hpw|].
    intros ->. discriminate.
  - apply orb_true_iff in Hkind as [H|H]; [left | right]; apply str_eq_true, H.
Qed.

(** X11: [validate] runs all five checks on every call and reports what
    each of them found, in the order e-mail, password, download kind, PDF
    folder, video folder: a failing check never hides a later one. On a
    configuration that is a mapping whose e-mail, if set, is a string, the
    error list is exactly the findings of the five checks put together, and
    the answer is "valid" exactly when that list is empty. *)
Theorem validate_collects_all (w : world) (entries : list (string * value))
    (email_errors : list config_error) :
  config w = VDict entries ->
  (Py.truthy (Py.dict_get entries "email" VNone) = false
   /\ email_errors = [EmailNotConfigured])
  \/ (exists s, Py.dict_get entries "email" VNone = VStr s
                /\ s <> EmptyString
                /\ email_errors = if Text.contains "@" s then [] else [EmailInvalid]) ->
  exists pw errors,
    get_password E w = (Ret pw, w)
    /\ validate E w
       = (Ret (match errors with [] => true | _ => false end, errors), w)
    /\ errors
       = email_errors
         ++ (if password_missing pw then [PasswordNotConfigured] else [])
         ++ (if Py.str_eq (Py.dict_get entries "downloadType" VNone) "pdf"
                || Py.str_eq (Py.dict_get entries "downloadType" VNone) "video"
             then []
             else [InvalidDownloadType (Py.dict_get entries "downloadType" VNone)])
         ++ check_folder E (get_from (config w) ["pdfConfig"; "pastaDownloads"] VNone)
              PdfParentMissing PdfPathInvalid
         ++ check_folder E (get_from (config w) ["videoConfig"; "pastaDownloads"] VNone)
              VideoParentMissing VideoPathInvalid
    /\ (forall e, In e email_errors -> In e errors)
    /\ (password_missing pw = true -> In PasswordNotConfigured errors)
    /\ (Py.str_eq (Py.dict_get entries "downloadType" VNone) "pdf" = false ->
        Py.str_eq (Py.dict_get entries "downloadType" VNone) "video" = false ->
        In (InvalidDownloadType (Py.dict_get entries "downloadType" VNone)) errors)
    /\ (forall e,
          In e (check_folder E (get_from (config w) ["pdfConfig"; "pastaDownloads"] VNone)
                  PdfParentMissing PdfPathInvalid) -> In e errors)
    /\ (forall e,
          In e (check_folder E (get_from (config w) ["videoConfig"; "pastaDownloads"] VNone)
                  VideoParentMissing VideoPathInvalid) -> In e errors).
Proof.
  intros Hc Hemail.
  destruct (get_password_returns w entries Hc) as [pw Hpw].
  exists pw. eexists. split; [exact Hpw|].
  assert (Hrun : validate E w
                 = (Ret (match email_errors
                               ++ (if password_missing pw then [PasswordNotConfigured] else [])
                               ++ (if Py.str_eq (Py.dict_get entries "downloadType" VNone) "pdf"
                                      || Py.str_eq (Py.dict_get entries "downloadType" VNone) "video"
                                   then []
                                   else [InvalidDownloadType
                                           (Py.dict_get entries "downloadType" VNone)])
                               ++ check_folder E
                                    (get_from (config w) ["pdfConfig"; "pastaDownloads"] VNone)
                                    PdfParentMissing PdfPathInvalid
                               ++ check_folder E
                                    (get_from (config w) ["videoConfig"; "pastaDownloads"] VNone)
                                    VideoParentMissing VideoPathInvalid
                         with [] => true | _ => false end,
                         email_errors
                         ++ (if password_missing pw then [PasswordNotConfigured] else [])
                         ++ (if Py.str_eq (Py.dict_get entries "downloadType" VNone) "pdf"
                                || Py.str_eq (Py.dict_get entries "downloadType" VNone) "video"
                             then []
                             else [InvalidDownloadType
                                     (Py.dict_get entries "downloadType" VNone)])
                         ++ check_folder E
                              (get_from (config w) ["pdfConfig"; "pastaDownloads"] VNone)
                              PdfParentMissing PdfPathInvalid
                         ++ check_folder E
                              (get_from (config w) ["videoConfig"; "pastaDownloads"] VNone)
                              VideoParentMissing VideoPathInvalid), w)).
  { unfold validate, SE.bind at 1. rewrite (config_get_on_dict _ _ _ _ Hc).
    unfold SE.bind at 1.
    destruct Hemail as [[Hfalsy ->] | (s & Hs & Hne & ->)].
    - rewrite Hfalsy. simpl. unfold SE.bind.
      rewrite Hpw, (config_get_on_dict _ _ _ _ Hc).
      unfold get, SE.gets, SE.ret. reflexivity.
    - rewrite Hs. simpl. rewrite (is_empty_false s Hne). simpl.
      unfold SE.bind, SE.ret.
      rewrite Hpw, (config_get_on_dict _ _ _ _ Hc).
      unfold get, SE.gets. reflexivity. }
  split; [exact Hrun|]. split; [reflexivity|].
  split; [|split; [|split; [|split]]].
  - intros e He. apply in_or_app. left. exact He.
  - intros Hmiss. rewrite Hmiss. apply in_or_app. right. left. reflexivity.
  - intros H1 H2. rewrite H1, H2. simpl.
    apply in_or_app. right. apply in_or_app. right. left. reflexivity.
  - intros e He. do 3 (apply in_or_app; right). apply in_or_app. left. exact He.
  - intros e He. do 4 (apply in_or_app; right). exact He.
Qed.

End ConfigStoreFacts.

(** ** ProgressManager: the ledger and its file *)

Section LedgerFacts.

Import ProgressManager.

(** X12: [mark_completed] changes the answer for its own key only, and a key
    that was never marked is not completed. *)
Theorem mark_completed_touches_one_key (io : save_outcome) (k k' : string)
    (w : world) :
  k <> k' ->
  is_completed k' (mark_completed io k w) = is_completed k' w
  /\ (progress w !! k' = None -> is_completed k' (mark_completed io k w) = false).
Proof.
  intros Hne. unfold is_completed, mark_completed, save_progress. simpl.
  rewrite lookup_insert_ne by exact Hne. split; [reflexivity|].
  intros ->. reflexivity.
Qed.

Lemma save_progress_twice io w :
  save_progress io (save_progress io w) = save_progress io w.
Proof.
  unfold save_progress. simpl. f_equal.
  destruct io.
  - apply map_eq. intros p.
    destruct (decide (p = PROGRESS_FILE)) as [->|Hp].
    + rewrite !lookup_insert_eq. reflexivity.
    + rewrite !lookup_insert_ne by congruence.
      destruct (decide (p = TEMP_FILE)) as [->|Ht].
      * rewrite !lookup_delete_eq. reflexivity.
      * rewrite !lookup_delete_ne by congruence.
        rewrite lookup_insert_ne by congruence.
        rewrite lookup_delete_ne by congruence. reflexivity.
  - reflexivity.
  - apply insert_insert_eq.
  - apply insert_insert_eq.
Qed.

(** X13: [mark_completed] is idempotent: marking a key a second time (with
    the same fate for the write) leaves the ledger and the files exactly as
    the first marking left them. *)
Theorem mark_completed_idempotent (io : save_outcome) (k : string) (w : world) :
  mark_completed io k (mark_completed io k w) = mark_completed io k w.
Proof.
  unfold mark_completed.
  replace {| progress := <[k:=true]> (progress (save_progress io
               {| progress := <[k:=true]> (progress w); disk := disk w |}));
             disk := disk (save_progress io
               {| progress := <[k:=true]> (progress w); disk := disk w |}) |}
    with (save_progress io {| progress := <[k:=true]> (progress w); disk := disk w |}).
  - apply save_progress_twice.
  - unfold save_progress. simpl. f_equal. symmetry. apply insert_insert_eq.
Qed.

Lemma save_progress_file io w :
  (io = SaveOk /\ disk (save_progress io w) !! PROGRESS_FILE = Some (LJson (progress w)))
  \/ (io <> SaveOk /\ disk (save_progress io w) !! PROGRESS_FILE = disk w !! PROGRESS_FILE).
Proof.
  unfold save_progress. destruct io; simpl.
  - left. split; [reflexivity | apply lookup_insert_eq].
  - right. split; [discriminate | reflexivity].
  - right. split; [discriminate|]. apply lookup_insert_ne. discriminate.
  - right. split; [discriminate|]. apply lookup_insert_ne. discriminate.
Qed.

Lemma step_keeps_file_intact o w : file_intact w -> file_intact (step o w).
Proof.
  unfold file_intact. intros Hw.
  destruct o as [k io|io]; cbn [step]; unfold mark_completed, clear;
    match goal with
    | |- disk (save_progress ?io ?w0) !! _ <> _ =>
        destruct (save_progress_file io w0) as [[_ H]|[_ H]]; rewrite H
    end; simpl; try discriminate; exact Hw.
Qed.

(** X14: the ledger file is written atomically. A save that fails in any way
    leaves [progress.json] exactly as it was; one that succeeds makes it the
    whole current ledger, which a restarted manager reads back unchanged; so
    no sequence of [mark_completed] and [clear] calls, with whatever write
    failures, ever leaves a [progress.json] that does not decode. *)
Theorem ledger_file_is_never_torn (w : world) (io : save_outcome) (ops : list op) :
  file_intact w ->
  (io <> SaveOk ->
   disk (save_progress io w) !! PROGRESS_FILE = disk w !! PROGRESS_FILE)
  /\ progress (restart true (save_progress SaveOk w)) = progress w
  /\ file_intact (run ops w).
Proof.
  intros Hw. split; [|split].
  - intros Hio. destruct (save_progress_file io w) as [[H _]|[_ H]];
      [contradiction | exact H].
  - unfold restart, _load_progress, save_progress. simpl.
    rewrite lookup_insert_eq. reflexivity.
  - revert w Hw. induction ops as [|o ops IH]; intros w Hw; simpl; [exact Hw|].
    apply IH, step_keeps_file_intact, Hw.
Qed.

(** X15: in [get_stats] the number of completed items never exceeds the number
    of items tracked; marking a key that was not tracked adds one to both;
    after [clear] both are zero. *)
Theorem get_stats_counts (io : save_outcome) (k : string) (w : world) :
  snd (get_stats w) <= fst (get_stats w)
  /\ get_stats (clear io w) = (0, 0)
  /\ (progress w !! k = None ->
      get_stats (mark_completed io k w)
      = (S (fst (get_stats w)), S (snd (get_stats w)))).
Proof.
  unfold get_stats. simpl. split; [|split].
  - apply map_size_filter.
  - unfold clear, save_progress. simpl.
    rewrite map_filter_empty, map_size_empty. reflexivity.
  - intros Hnew. unfold mark_completed, save_progress. simpl.
    rewrite map_size_insert_None by exact Hnew.
    rewrite map_filter_insert_True by reflexivity.
    rewrite map_size_insert_None; [reflexivity|].
    apply map_lookup_filter_None. left. exact Hnew.
Qed.

End LedgerFacts.

(** ** CourseUrlManager: the queue and its invariant *)

Section QueueStoreFacts.

Import CourseUrlManager.

Variable L : pylib.

Lemma add_url_cases io u w :
  (fst (add_url L io u w) = true
   /\ _validate_url L (strip L u) = true
   /\ has_url (strip L u) (urls w) = false
   /\ snd (add_url L io u w)
      = save_urls io
          {| urls := urls w ++ [{| url := strip L u;
                                   title := _extract_title_from_url (strip L u) |}];
             disk := disk w; writes := writes w |})
  \/ (add_url L io u w = (false, w)
      /\ (_validate_url L (strip L u) = false
          \/ has_url (strip L u) (urls w) = true)).
Proof.
  unfold add_url.
  destruct (_validate_url L (strip L u)); simpl.
  - destruct (has_url (strip L u) (urls w)); simpl.
    + right. split; [reflexivity | right; reflexivity].
    + left. repeat split; reflexivity.
  - right. split; [reflexivity | left; reflexivity].
Qed.

(** X16: an [add_url] that succeeds appends one entry at the end of the queue:
    the entries that were there keep their place, the new entry carries the
    trimmed URL and, for an ASCII URL, the title derived from it; the new
    list is handed to [_save_raw] once, and it is what the file holds when
    that write succeeds. *)
Theorem add_url_appends (io : io_outcome) (u : string) (w : world) :
  fst (add_url L io u w) = true ->
  exists t,
    urls (snd (add_url L io u w)) = urls w ++ [{| url := strip L u; title := t |}]
    /\ (Text.is_ascii (strip L u) = true ->
        t = _extract_title_from_url (strip L u))
    /\ length (urls (snd (add_url L io u w))) = S (length (urls w))
    /\ writes (snd (add_url L io u w))
       = writes w ++ [urls (snd (add_url L io u w))]
    /\ (io = IoOk ->
        disk (snd (add_url L io u w)) !! URLS_FILE
        = Some (UJson (urls (snd (add_url L io u w))))).
Proof.
  intros Hok.
  destruct (add_url_cases io u w) as [(_ & _ & _ & ->)|[Hno _]];
    [|rewrite Hno in Hok; discriminate].
  exists (_extract_title_from_url (strip L u)).
  unfold save_urls, _save_raw. simpl. repeat split.
  - rewrite length_app. simpl. lia.
  - intros ->. apply lookup_insert_eq.
Qed.

(** X17: adding the same URL twice adds it once: after an [add_url] that
    succeeded, a second [add_url] of the same text answers [False] and
    changes nothing. *)
Theorem add_url_twice (io io' : io_outcome) (u : string) (w : world) :
  fst (add_url L io u w) = true ->
  add_url L io' u (snd (add_url L io u w)) = (false, snd (add_url L io u w)).
Proof.
  intros Hok.
  destruct (add_url_cases io u w) as [(_ & Hvalid & _ & Hsnd)|[Hno _]];
    [|rewrite Hno in Hok; discriminate].
  rewrite Hsnd. unfold add_url. rewrite Hvalid. simpl.
  unfold has_url. rewrite existsb_app. simpl.
  rewrite String.eqb_refl, orb_true_r. reflexivity.
Qed.

Lemma filter_none_match u cs :
  has_url u cs = false ->
  List.filter (fun c => negb (String.eqb (url c) u)) cs = cs.
Proof.
  intros H. apply filter_all_kept. unfold has_url in H.
  induction cs as [|c cs IH]; simpl in *; [reflexivity|].
  apply orb_false_elim in H as [Hc Hcs].
  rewrite negb_involutive, Hc. simpl. apply IH, Hcs.
Qed.

Lemma remove_url_urls io u w :
  urls (snd (remove_url io u w))
  = List.filter (fun c => negb (String.eqb (url c) u)) (urls w).
Proof. unfold remove_url. cbn [urls]. destruct (_ <? _)%nat; reflexivity. Qed.

(** X18: [remove_url] undoes [add_url]: removing the trimmed URL right after
    it was added answers [True] and gives back the queue as it was before the
    addition. *)
Theorem add_then_remove (io io' : io_outcome) (u : string) (w : world) :
  fst (add_url L io u w) = true ->
  fst (remove_url io' (strip L u) (snd (add_url L io u w))) = true
  /\ urls (snd (remove_url io' (strip L u) (snd (add_url L io u w)))) = urls w.
Proof.
  intros Hok.
  destruct (add_url_cases io u w) as [(_ & _ & Hfresh & Hsnd)|[Hno _]];
    [|rewrite Hno in Hok; discriminate].
  rewrite Hsnd. split.
  - rewrite removed_flag. unfold save_urls, _save_raw, has_url. simpl.
    rewrite existsb_app. simpl. rewrite String.eqb_refl, orb_true_r. reflexivity.
  - rewrite remove_url_urls. unfold save_urls, _save_raw. simpl.
    rewrite List.filter_app. simpl. rewrite String.eqb_refl. simpl.
    rewrite app_nil_r. apply filter_none_match, Hfresh.
Qed.

End QueueStoreFacts.

Section QueueInvariantFacts.

Import CourseUrlManager.

Variable L : pylib.

Lemma has_url_false_not_in u cs : has_url u cs = false -> u ∉ map url cs.
Proof.
  intros H Hin. apply list_elem_of_In, in_map_iff in Hin as [c [Hc Hin]].
  assert (Htrue : has_url u cs = true).
  { unfold has_url. apply existsb_exists. exists c. split; [exact Hin|].
    apply String.eqb_eq, Hc. }
  congruence.
Qed.

Lemma unique_after_append u t cs :
  unique_urls cs -> has_url u cs = false ->
  unique_urls (cs ++ [{| url := u; title := t |}]).
Proof.
  unfold unique_urls. intros Hcs Hfresh. rewrite map_app. simpl.
  apply NoDup_app. split; [exact Hcs|]. split.
  - intros x Hx Hx'. apply list_elem_of_singleton in Hx'. subst x.
    exact (has_url_false_not_in u cs Hfresh Hx).
  - apply NoDup_singleton.
Qed.

Lemma unique_after_filter (p : course -> bool) cs :
  unique_urls cs -> unique_urls (List.filter p cs).
Proof.
  unfold unique_urls. induction cs as [|c cs IH]; simpl; [trivial|].
  intros Hcs. apply NoDup_cons in Hcs as [Hc Hcs].
  destruct (p c); simpl; [|exact (IH Hcs)].
  apply NoDup_cons. split; [|exact (IH Hcs)].
  intros Hin. apply Hc.
  apply list_elem_of_In, in_map_iff in Hin as [c' [Hu Hin]].
  apply filter_In in Hin as [Hin _].
  apply list_elem_of_In, in_map_iff. exists c'. split; assumption.
Qed.

Lemma add_url_keeps_unique io u w :
  unique_urls (urls w) -> unique_urls (urls (snd (add_url L io u w))).
Proof.
  intros Hw. unfold add_url.
  destruct (_validate_url L (strip L u)); simpl; [|exact Hw].
  destruct (has_url (strip L u) (urls w)) eqn:Hdup; simpl; [exact Hw|].
  apply unique_after_append; assumption.
Qed.

Lemma remove_url_keeps_unique io u w :
  unique_urls (urls w) -> unique_urls (urls (snd (remove_url io u w))).
Proof.
  intros Hw. unfold remove_url. cbn [urls].
  destruct (_ <? _)%nat; simpl; apply unique_after_filter, Hw.
Qed.

Lemma step_keeps_unique o w :
  unique_urls (urls w) -> unique_urls (urls (step L o w)).
Proof.
  intros Hw. destruct o as [u io|u io|io]; cbn [step].
  - apply add_url_keeps_unique, Hw.
  - apply remove_url_keeps_unique, Hw.
  - unfold clear, save_urls, _save_raw, unique_urls. simpl. apply NoDup_nil_2.
Qed.

(** X19: no URL is ever queued twice. Starting from a queue without duplicate
    URLs (the empty one, for instance), every sequence of [add_url],
    [remove_url] and [clear] calls, with whatever write failures, leaves a
    queue without duplicate URLs. *)
Theorem queue_urls_stay_unique (ops : list op) (w : world) :
  unique_urls (urls w) -> unique_urls (urls (run L ops w)).
Proof.
  revert w. induction ops as [|o ops IH]; intros w Hw; simpl; [exact Hw|].
  apply IH, step_keeps_unique, Hw.
Qed.

Lemma migrate_urls items :
  map url (fst (migrate items)) = omap item_url items.
Proof.
  induction items as [|item rest IH]; simpl; [reflexivity|].
  destruct (migrate rest) as [cs changed]. simpl in *.
  destruct item; simpl; rewrite ?IH; reflexivity.
Qed.

Lemma migrate_changed items :
  snd (migrate items) = existsb is_legacy items.
Proof.
  induction items as [|item rest IH]; simpl; [reflexivity|].
  destruct (migrate rest) as [cs changed]. simpl in *.
  destruct item; simpl; rewrite ?IH; reflexivity.
Qed.




Lemma omap_item_url_strings l : omap item_url (map RawStr l) = l.
Proof.
  induction l as [|x l IH]; [reflexivity|].
  change (x :: omap item_url (map RawStr l) = x :: l). rewrite IH. reflexivity.
Qed.

Lemma chars_of_not_nil a rest : chars_of (String a rest) <> [].
Proof.
  cbn [chars_of]. destruct (chars_of rest) as [|point points]; [discriminate|].
  destruct (Text.starts_with_continuation rest); discriminate.
Qed.

(** The code points of a text, put together again, are the text. *)
Lemma chars_of_concat text : String.concat "" (chars_of text) = text.
Proof.
  induction text as [|a rest IH]; [reflexivity|].
  cbn [chars_of]. destruct (chars_of rest) as [|point points] eqn:Hrest.
  - simpl in IH. subst rest. reflexivity.
  - destruct (Text.starts_with_continuation rest).
    + rewrite <- IH. destruct points; reflexivity.
    + rewrite <- IH. destruct points; reflexivity.
Qed.

(** X21: a queue file that is not a list. When the file is missing,
    unreadable, not JSON, or a JSON number, boolean or null, [_load_urls]
    gives the empty queue and writes nothing: the load never fails. But a
    JSON string is iterated like a list: each of its characters (code
    points) becomes the URL of an entry, and the file is overwritten with
    those entries. *)
Theorem queue_file_that_is_not_a_list (io : io_outcome) (readable : bool)
    (file : option raw_file) (text : string) (w : world) :
  (file = None \/ readable = false \/ file = Some RawGarbage
   \/ file = Some RawScalar ->
   _load_urls io readable file w = ([], w))
  /\ map url (fst (_load_urls io true (Some (RawString text)) w)) = chars_of text
  /\ String.concat "" (map url (fst (_load_urls io true (Some (RawString text)) w)))
     = text
  /\ (Text.is_ascii text = true ->
      length (fst (_load_urls io true (Some (RawString text)) w))
      = String.length text)
  /\ (text <> EmptyString ->
      writes (snd (_load_urls io true (Some (RawString text)) w))
      = writes w ++ [fst (_load_urls io true (Some (RawString text)) w)]).
Proof.
  assert (Hurls : map url (fst (_load_urls io true (Some (RawString text)) w))
                  = chars_of text).
  { unfold _load_urls. cbn [iterate].
    pose proof (migrate_urls (map RawStr (chars_of text))) as Hurls.
    destruct (migrate _) as [cs changed]. simpl in *.
    rewrite Hurls. apply omap_item_url_strings. }
  split; [|split; [|split; [|split]]].
  - unfold _load_urls. intros [Hf | [Hr | [Hf | Hf]]].
    + rewrite Hf. reflexivity.
    + rewrite Hr. destruct file; reflexivity.
    + rewrite Hf. destruct readable; reflexivity.
    + rewrite Hf. destruct readable; reflexivity.
  - exact Hurls.
  - rewrite Hurls. apply chars_of_concat.
  - intros Hascii. rewrite <- (length_map url), Hurls.
    clear Hurls. induction text as [|a rest IH]; [reflexivity|].
    cbn [Text.is_ascii] in Hascii. apply andb_true_iff in Hascii as [Ha Hrest].
    specialize (IH Hrest). cbn [chars_of String.length].
    destruct (chars_of rest) as [|point points] eqn:Hc.
    + simpl in *. rewrite <- IH. reflexivity.
    + assert (Hstart : Text.starts_with_continuation rest = false).
      { destruct rest as [|b rest']; [reflexivity|].
        cbn [Text.is_ascii] in Hrest. apply andb_true_iff in Hrest as [Hb _].
        unfold Text.starts_with_continuation, Text.is_continuation.
        apply Nat.ltb_lt in Hb.
        destruct (128 <=? Text.code b)%nat eqn:Hge; [|reflexivity].
        apply Nat.leb_le in Hge. lia. }
      rewrite Hstart. simpl in *. rewrite IH. reflexivity.
  - intros Htext. unfold _load_urls. cbn [iterate].
    pose proof (migrate_changed (map RawStr (chars_of text))) as Hchanged.
    destruct (migrate _) as [cs changed]. simpl in *. subst changed.
    destruct text as [|a rest]; [congruence|].
    pose proof (chars_of_not_nil a rest) as Hne.
    destruct (chars_of (String a rest)); [congruence | reflexivity].
Qed.

(** The JSON string ["é"] (two bytes in UTF-8) loads as one entry. *)
Example accented_letter_is_one_entry :
  chars_of "é" = ["é"] /\ chars_of "aé" = ["a"; "é"] /\ chars_of "éa" = ["é"; "a"].
Proof. repeat split; reflexivity. Qed.

End QueueInvariantFacts.

(** ** DownloadManager: failures before the queue, cancellation, cleanup *)

Section OrchestratorFacts.

Import DownloadManager.

Lemma mild_ret {S A} (a : A) : SE.mild (@SE.ret S A a).
Proof. intros s e s' H. discriminate. Qed.

Lemma mild_raise {S A} : SE.mild (@SE.raise S A ExException).
Proof. intros s e s' H. injection H as <- _. reflexivity. Qed.

Lemma mild_gets {S A} (f : S -> A) : SE.mild (SE.gets f).
Proof. intros s e s' H. discriminate. Qed.

Lemma mild_bind {S A B} (m : SE.M S A) (k : A -> SE.M S B) :
  SE.mild m -> (forall a, SE.mild (k a)) -> SE.mild (SE.bind m k).
Proof.
  intros Hm Hk s e s' H. unfold SE.bind in H.
  destruct (m s) as [[a|e0] s0] eqn:Hms.
  - exact (Hk a s0 e s' H).
  - injection H as <- _. exact (Hm s e0 s0 Hms).
Qed.

Lemma mild_try_except {S A} (body handler : SE.M S A) :
  SE.mild body -> SE.mild handler -> SE.mild (SE.try_except body handler).
Proof.
  intros Hb Hh s e s' H. unfold SE.try_except in H.
  destruct (body s) as [[a|e0] s0] eqn:Hbs; [discriminate|].
  rewrite (Hb s e0 s0 Hbs) in H. exact (Hh s0 e s' H).
Qed.

Lemma mild_config_get k d : SE.mild (ConfigManager.config_get k d).
Proof.
  intros w e w' H. unfold ConfigManager.config_get in H.
  destruct (ConfigManager.config w); try discriminate;
    injection H as <- _; reflexivity.
Qed.

Lemma mild_keyring_get_password cE user :
  SE.mild (ConfigManager.keyring_get_password cE user).
Proof.
  intros w e w' H. unfold ConfigManager.keyring_get_password in H.
  destruct user; try (injection H as <- _; reflexivity).
  destruct (ConfigManager.keyring_up cE); [discriminate|].
  injection H as <- _. reflexivity.
Qed.

Lemma mild_get_password cE : SE.mild (ConfigManager.get_password cE).
Proof.
  unfold ConfigManager.get_password.
  apply mild_bind; [apply mild_config_get | intros email].
  destruct (negb (Py.truthy email)); [apply mild_ret|].
  apply mild_try_except; [|apply mild_ret].
  apply mild_bind; [apply mild_keyring_get_password | intros [c|]]; [|apply mild_ret].
  destruct (Text.is_empty c); [apply mild_ret|].
  destruct (ConfigManager.decrypt cE c); [apply mild_ret | apply mild_raise].
Qed.

Lemma mild_contains_at email : SE.mild (ConfigManager.contains_at email).
Proof. destruct email; simpl; first [apply mild_ret | apply mild_raise]. Qed.

Lemma mild_validate cE : SE.mild (ConfigManager.validate cE).
Proof.
  unfold ConfigManager.validate.
  apply mild_bind; [apply mild_config_get | intros email].
  apply mild_bind.
  { destruct (negb (Py.truthy email)); [apply mild_ret|].
    apply mild_bind; [apply mild_contains_at | intros b; apply mild_ret]. }
  intros e_email.
  apply mild_bind; [apply mild_get_password | intros pw].
  apply mild_bind; [apply mild_config_get | intros dt].
  apply mild_bind; [apply mild_gets | intros pdf].
  apply mild_bind; [apply mild_gets | intros video].
  apply mild_ret.
Qed.

Lemma health_check_returns E s : exists b, fst (_health_check E s) = Ret b.
Proof.
  unfold _health_check, SE.try_except, SE.bind, lift_cfg.
  destruct (ConfigManager.validate (config_env E) (cfg s)) as [[r|e] w'] eqn:Hv; simpl.
  - eexists. reflexivity.
  - rewrite (mild_validate (config_env E) (cfg s) e w' Hv). eexists. reflexivity.
Qed.

(** X22: a configuration problem stops the run before anything is acquired:
    the health check never raises, and when [validate] does not answer
    "valid" (it reports problems, or raises), [start_downloads] returns
    [False] without a single call on the session, the browser or a
    processor. *)
Theorem invalid_configuration_stops_the_run (E : env) (w : ConfigManager.world) :
  (forall errors,
     fst (ConfigManager.validate (config_env E) w) <> Ret (true, errors)) ->
  fst (_health_check E (init w)) = Ret false
  /\ start_downloads E (init w) = (Ret false, init w).
Proof.
  intros Hbad.
  assert (Hh : fst (_health_check E (init w)) = Ret false).
  { destruct (health_check_returns E (init w)) as [b Hb]. rewrite Hb. f_equal.
    destruct b; [|reflexivity]. exfalso.
    unfold _health_check, SE.try_except, SE.bind, lift_cfg in Hb. simpl in Hb.
    destruct (ConfigManager.validate (config_env E) w) as [[[ok errors]|e] w'] eqn:Hv;
      simpl in *.
    - injection Hb as ->. exact (Hbad errors eq_refl).
    - destruct (is_Exception e); simpl in Hb; discriminate. }
  split; [exact Hh|].
  unfold start_downloads, SE.bind.
  pose proof (read_only_health_check E (init w)) as Hro.
  destruct (_health_check E (init w)) as [r s']. simpl in *. subst. reflexivity.
Qed.


Lemma cleanup_when_it_returns E s :
  cleanup_returns E -> cleanup E s = (Ret tt, add_trace (closing s) s).
Proof.
  intros (Hs & Hc & Hp).
  unfold cleanup, closing, SE.bind, SE.gets, SE.try_except, call, SE.bind, emit,
    SE.modify, outcome, SE.ret, SE.raise, add_trace.
  rewrite Hs.
  destruct s as [w tr ss pw cx sc fc]. simpl.
  destruct (close_context E) as [ec|] eqn:Hec;
    destruct (stop_playwright E) as [ep|] eqn:Hep;
    destruct ss, cx, pw; simpl;
    rewrite ?(Hc _ eq_refl), ?(Hp _ eq_refl); simpl;
    rewrite <- ?app_assoc, ?app_nil_r; reflexivity.
Qed.

(** X23: when closing the session does not raise, the [finally] block closes
    exactly what was acquired, in the order session, context, engine, and
    returns normally: an [Exception] raised by [context.close()] or by
    [playwright.stop()] is swallowed and does not keep the next step from
    running. A [CancelledError] from [context.close()] is not swallowed: it
    leaves the block and [playwright.stop()] is not attempted. *)
Theorem cleanup_closes_what_was_acquired (E : env) (s : state) :
  close_session E = None ->
  ((forall e, close_context E = Some e -> is_Exception e = true) ->
   (forall e, stop_playwright E = Some e -> is_Exception e = true) ->
   fst (cleanup E s) = Ret tt
   /\ trace (snd (cleanup E s)) = trace s ++ closing s
   /\ (session s = true -> context s = true -> playwright s = true ->
       trace (snd (cleanup E s))
       = trace s ++ [CloseSession; CloseContext; StopPlaywright]))
  /\ (context s = true -> close_context E = Some ExCancelled ->
      fst (cleanup E s) = Raise ExCancelled
      /\ trace (snd (cleanup E s))
         = trace s ++ (if session s then [CloseSession] else []) ++ [CloseContext]).
Proof.
  intros Hs. split.
  - intros Hc Hp.
    rewrite (cleanup_when_it_returns E s (conj Hs (conj Hc Hp))). simpl.
    repeat split. intros H1 H2 H3. unfold closing. rewrite H1, H2, H3. reflexivity.
  - intros Hcx Hec.
    unfold cleanup, SE.bind, SE.gets, SE.try_except, call, SE.bind, emit,
      SE.modify, outcome, SE.ret, SE.raise.
    rewrite Hs, Hec. destruct s as [w tr ss pw cx sc fc]. simpl in *. subst cx.
    destruct ss; simpl; rewrite <- ?app_assoc; split; reflexivity.
Qed.

(** X24: a failure while acquiring the session, the browser or the page, or
    while logging in, is fatal to the run but not to the cleanup: no course
    is attempted, nothing is counted, the [finally] block closes what had
    been acquired by then, and the run answers [False]. *)
Theorem acquisition_failure_aborts_the_run (E : env) (w : ConfigManager.world)
    (e : exn) :
  fst (_health_check E (init w)) = Ret true ->
  CourseUrlManager.get_all (url_manager E) <> [] ->
  fst (acquire_and_login E (init w)) = Raise e ->
  cleanup_returns E ->
  fst (start_downloads E (init w)) = Ret false
  /\ attempted (trace (snd (start_downloads E (init w)))) = []
  /\ trace (snd (start_downloads E (init w)))
     = trace (snd (acquire_and_login E (init w)))
       ++ closing (snd (acquire_and_login E (init w)))
  /\ success_count (snd (start_downloads E (init w))) = 0
  /\ failed_count (snd (start_downloads E (init w))) = 0.
Proof.
  intros Hhealth Hqueue Hacq Hclean.
  destruct (quiet_acquire_and_login E (init w)) as [tr1 (Hc1 & Hs1 & Hf1 & Ht1 & Ha1)].
  destruct (acquire_and_login E (init w)) as [r1 s1] eqn:Hacq1.
  simpl in Hacq, Hc1, Hs1, Hf1, Ht1. subst r1.
  assert (Hrun : start_downloads E (init w) = (Ret false, add_trace (closing s1) s1)).
  { unfold start_downloads, SE.bind.
    pose proof (read_only_health_check E (init w)) as Hro.
    destruct (_health_check E (init w)) as [r s']. simpl in Hhealth, Hro. subst.
    cbn [negb].
    destruct (CourseUrlManager.get_all (url_manager E)) as [|c cs] eqn:Hq;
      [contradiction|].
    unfold try_finally, returning_false_on_any, run_body, SE.bind.
    rewrite Hacq1.
    destruct e; simpl; rewrite (cleanup_when_it_returns E s1 Hclean); reflexivity. }
  rewrite Hrun. simpl. rewrite Hs1, Hf1, Ht1. simpl.
  repeat split. rewrite attempted_app, Ha1. simpl.
  unfold closing. destruct (session s1), (context s1), (playwright s1); reflexivity.
Qed.

Lemma lift_on_cfg {A} (m : SE.M ConfigManager.world A) (r : res A) s :
  m (cfg s) = (r, cfg s) -> lift_cfg m s = (r, s).
Proof. intros H. unfold lift_cfg. rewrite H. destruct s; reflexivity. Qed.

(** X25: a passing health check settles the credentials: afterwards
    [_perform_authentication] does not fail for want of an e-mail or a
    password; it goes on to the login call with the configured e-mail, and
    raises only if that call does. *)
Theorem health_check_settles_credentials (E : env) (s : state) :
  fst (_health_check E s) = Ret true ->
  exists entries,
    ConfigManager.config (cfg s) = VDict entries
    /\ _perform_authentication E s
       = call (Login (Py.dict_get entries "email" VNone)) (ensure_logged_in E) s.
Proof.
  intros Hhealth.
  unfold _health_check, SE.try_except, SE.bind, lift_cfg in Hhealth.
  destruct (ConfigManager.validate (config_env E) (cfg s)) as [[[ok errors]|e] w'] eqn:Hv;
    simpl in Hhealth.
  2:{ destruct (is_Exception e); simpl in Hhealth; discriminate. }
  injection Hhealth as ->.
  assert (Hok : fst (ConfigManager.validate (config_env E) (cfg s)) = Ret (true, errors))
    by (rewrite Hv; reflexivity).
  destruct (validate_ok_parts (config_env E) (cfg s) errors Hok)
    as (_ & entries & pw & Hc & Hemail & Hpw & Hmiss & _).
  exists entries. split; [exact Hc|].
  unfold _perform_authentication, SE.bind.
  rewrite (lift_on_cfg _ _ s (config_get_on_dict "email" VNone (cfg s) entries Hc)).
  rewrite (lift_on_cfg _ _ s Hpw). rewrite Hemail, Hmiss. reflexivity.
Qed.

Lemma report_progress_benign E i total s :
  callback_is_benign E -> fst (report_progress E i total s) = Ret tt.
Proof.
  intros Hcb. unfold report_progress.
  destruct (progress_callback E) as [cb|] eqn:Hp; [|reflexivity].
  unfold SE.try_except, call, SE.bind, emit, SE.modify, outcome. simpl.
  destruct (cb i total) as [e|] eqn:Hc; simpl; [|reflexivity].
  rewrite (Hcb cb i total e Hp Hc). reflexivity.
Qed.

(** One turn of the loop when the flag is not set. *)
Lemma process_queue_one E total i c rest s :
  cancel_requested E i 0 = false ->
  callback_is_benign E ->
  exists tr,
    process_queue E total i (c :: rest) s
    = process_queue E total (S i) rest
        {| cfg := cfg s; trace := trace s ++ tr; session := session s;
           playwright := playwright s; context := context s;
           success_count :=
             success_count s + (if course_fails E (cfg s) i c then 0 else 1);
           failed_count :=
             failed_count s + (if course_fails E (cfg s) i c then 1 else 0) |}
    /\ attempted tr = [i].
Proof.
  intros Hflag Hcb.
  cbn [process_queue]. rewrite Hflag.
  destruct (is_step_process_course E i (url c)) as [Hpc Hpca].
  destruct (is_step_report_progress E i total) as [Hrp Hrpa].
  unfold SE.bind at 1. cbn [emit SE.modify].
  unfold SE.bind at 1. unfold attempt at 1. rewrite Hpc. cbn [cfg].
  set (tr0 := snd (effect (_process_course E i (url c)) (cfg s))).
  set (trp := snd (effect (report_progress E i total) (cfg s))).
  assert (Hprog : fst (effect (report_progress E i total) (cfg s)) = Ret tt)
    by (apply report_progress_benign, Hcb).
  assert (Hatt : attempted ([CourseStarted i c] ++ tr0 ++ trp) = [i]).
  { rewrite !attempted_app. unfold tr0, trp. rewrite Hpca, Hrpa. reflexivity. }
  exists ([CourseStarted i c] ++ tr0 ++ trp). split; [|exact Hatt].
  unfold course_fails.
  change (fst (_process_course E i (url c) (init (cfg s))))
    with (fst (effect (_process_course E i (url c)) (cfg s))).
  destruct (fst (effect (_process_course E i (url c)) (cfg s))) as [[|]|e] eqn:Hres.
  - unfold SE.bind at 1. cbn [count_success SE.modify].
    unfold SE.bind at 1. rewrite Hrp. cbn [cfg add_trace]. rewrite Hprog.
    cbn [fst]. unfold add_trace.
    cbn [cfg trace session playwright context success_count failed_count].
    fold tr0 trp. f_equal. f_equal.
    all: try (rewrite <- !app_assoc; reflexivity); lia.
  - unfold SE.bind at 1. cbn [count_failure SE.modify].
    unfold SE.bind at 1. rewrite Hrp. cbn [cfg add_trace]. rewrite Hprog.
    cbn [fst]. unfold add_trace.
    cbn [cfg trace session playwright context success_count failed_count].
    fold tr0 trp. f_equal. f_equal.
    all: try (rewrite <- !app_assoc; reflexivity); lia.
  - assert (He : is_Exception e = true).
    { apply (process_course_raises E i (url c) (init (cfg s)) e). exact Hres. }
    rewrite He.
    unfold SE.bind at 1. cbn [count_failure SE.modify].
    unfold SE.bind at 1. rewrite Hrp. cbn [cfg add_trace]. rewrite Hprog.
    cbn [fst]. unfold add_trace.
    cbn [cfg trace session playwright context success_count failed_count].
    fold tr0 trp. f_equal. f_equal.
    all: try (rewrite <- !app_assoc; reflexivity); lia.
Qed.

(** The loop up to the first course at which the flag is seen. *)
Lemma process_queue_until E total :
  callback_is_benign E ->
  forall pre i s rest,
    (forall j, j < length pre -> cancel_requested E (i + j) 0 = false) ->
    exists tr,
      process_queue E total i (pre ++ rest) s
      = process_queue E total (i + length pre) rest
          {| cfg := cfg s; trace := trace s ++ tr; session := session s;
             playwright := playwright s; context := context s;
             success_count :=
               success_count s
               + (length pre - length (failing_from E (cfg s) i pre));
             failed_count :=
               failed_count s + length (failing_from E (cfg s) i pre) |}
      /\ attempted tr = seq i (length pre).
Proof.
  intros Hcb. induction pre as [|c pre IH]; intros i s rest Hflags.
  - exists []. simpl. split; [|reflexivity].
    rewrite app_nil_r, !Nat.add_0_r. destruct s; reflexivity.
  - assert (Hfirst : cancel_requested E i 0 = false).
    { rewrite <- (Nat.add_0_r i). apply Hflags. simpl. lia. }
    destruct (process_queue_one E total i c (pre ++ rest) s Hfirst Hcb)
      as [tr1 [Hstep Ha1]].
    cbn [app]. rewrite Hstep.
    match goal with
    | |- context [process_queue E total (S i) (pre ++ rest) ?s1] =>
        destruct (IH (S i) s1 rest) as [tr2 [Hrest Ha2]]
    end.
    { intros j Hj. replace (S i + j) with (i + S j) by lia.
      apply Hflags. simpl. lia. }
    rewrite Hrest. exists (tr1 ++ tr2). split.
    + cbn [cfg trace session playwright context success_count failed_count].
      pose proof (failing_from_length E (cfg s) (S i) pre) as Hlen.
      cbn [failing_from length]. rewrite length_app.
      replace (i + S (length pre)) with (S i + length pre) by lia.
      f_equal. f_equal.
      * rewrite app_assoc. reflexivity.
      * destruct (course_fails E (cfg s) i c); simpl; lia.
      * destruct (course_fails E (cfg s) i c); simpl; lia.
    + rewrite attempted_app, Ha1, Ha2. reflexivity.
Qed.

(** X26: cancellation is observed at the top of the loop and skips the rest.
    If the flag is first seen set when course [k] is about to start, the
    courses before it have been attempted and counted as usual, course [k]
    and all later ones are neither attempted nor counted, and the run answers
    [True] exactly when none of the attempted courses failed (so a run
    cancelled before its first course answers [True]). *)
Theorem cancellation_skips_the_rest (E : env) (w : ConfigManager.world)
    (pre : list course) (c : course) (rest : list course) :
  fst (_health_check E (init w)) = Ret true ->
  fst (acquire_and_login E (init w)) = Ret tt ->
  callback_is_benign E ->
  CourseUrlManager.get_all (url_manager E) = pre ++ c :: rest ->
  (forall j, j < length pre -> cancel_requested E (1 + j) 0 = false) ->
  cancel_requested E (1 + length pre) 0 = true ->
  attempted (trace (snd (start_downloads E (init w)))) = seq 1 (length pre)
  /\ failed_count (snd (start_downloads E (init w)))
     = length (failing_from E w 1 pre)
  /\ success_count (snd (start_downloads E (init w)))
     + failed_count (snd (start_downloads E (init w))) = length pre
  /\ (cleanup_returns E ->
      fst (start_downloads E (init w))
      = Ret (length (failing_from E w 1 pre) =? 0)%nat).
Proof.
  intros Hhealth Hacq Hcb Hqueue Hflags Hcancel.
  destruct (quiet_acquire_and_login E (init w)) as [tr1 (Hc1 & Hs1 & Hf1 & Ht1 & Ha1)].
  destruct (acquire_and_login E (init w)) as [r1 s1] eqn:Hacq1.
  simpl in Hacq, Hc1, Hs1, Hf1, Ht1. subst r1.
  destruct (process_queue_until E (length (pre ++ c :: rest)) Hcb pre 1 s1
              (c :: rest) Hflags) as [tr2 [Hloop Ha2]].
  set (s2 := {| cfg := cfg s1; trace := trace s1 ++ tr2; session := session s1;
                playwright := playwright s1; context := context s1;
                success_count :=
                  success_count s1
                  + (length pre - length (failing_from E (cfg s1) 1 pre));
                failed_count :=
                  failed_count s1 + length (failing_from E (cfg s1) 1 pre) |}) in *.
  assert (Hstop : process_queue E (length (pre ++ c :: rest)) (1 + length pre)
                    (c :: rest) s2 = (Ret tt, s2)).
  { cbn [process_queue]. rewrite Hcancel. reflexivity. }
  set (s3 := snd (emit (FinalReport (success_count s2) (failed_count s2)
                          (length (pre ++ c :: rest))) s2)).
  assert (Hbody : run_body E (pre ++ c :: rest) (init w)
                  = (Ret (failed_count s2 =? 0)%nat, s3)).
  { unfold run_body, SE.bind. rewrite Hacq1, Hloop, Hstop. reflexivity. }
  destruct (quiet_cleanup E s3) as [tr4 (Hc4 & Hs4 & Hf4 & Ht4 & Ha4)].
  assert (Hrun : start_downloads E (init w)
                 = (match fst (cleanup E s3) with
                    | Ret _ => Ret (failed_count s2 =? 0)%nat
                    | Raise e => Raise e
                    end, snd (cleanup E s3))).
  { unfold start_downloads, SE.bind.
    pose proof (read_only_health_check E (init w)) as Hro.
    destruct (_health_check E (init w)) as [r s']. simpl in Hhealth, Hro. subst.
    cbn [negb]. rewrite Hqueue.
    destruct (pre ++ c :: rest) as [|c0 cs0] eqn:Hq;
      [destruct pre; discriminate|].
    unfold try_finally, returning_false_on_any. rewrite Hbody.
    destruct (cleanup E s3) as [[u|e] s4]; reflexivity. }
  rewrite Hrun. cbn [fst snd].
  assert (Hfailed : failed_count s2 = length (failing_from E w 1 pre)).
  { unfold s2. simpl. rewrite Hf1, Hc1. reflexivity. }
  pose proof (failing_from_length E w 1 pre) as Hle.
  split; [|split; [|split]].
  - rewrite Ht4. unfold s3, s2. simpl. rewrite Ht1.
    rewrite !attempted_app, Ha1, Ha2, Ha4. simpl. rewrite ?app_nil_r. reflexivity.
  - rewrite Hf4. exact Hfailed.
  - assert (Hsucc : success_count s2
                    = length pre - length (failing_from E w 1 pre)).
    { unfold s2. simpl. rewrite Hs1, Hc1. reflexivity. }
    assert (Hf3 : failed_count s3 = failed_count s2) by reflexivity.
    assert (Hs3 : success_count s3 = success_count s2) by reflexivity.
    rewrite Hf4, Hs4, Hf3, Hs3, Hfailed, Hsucc. lia.
  - intros Hclean. rewrite (cleanup_returns_ok E s3 Hclean), Hfailed. reflexivity.
Qed.

(** Unfold [_process_course] down to the state-passing functions. *)
Ltac run_course :=
  unfold _process_course, returning_false_on_error, process_course_body,
    _create_pdf_processor, _create_video_processor,
    _create_video_processor_for_extras, propagate_cancel, process_with, call,
    outcome, as_path, emit, lift_cfg, ConfigManager.config_get,
    ConfigManager.get, SE.bind, SE.gets, SE.modify, SE.ret, SE.raise.

(** X27: the extras pass. For a course of kind "pdf" whose PDF processor
    answers [True], with the key [baixarExtrasComPdf] of [pdfConfig] truthy:
    a second processor is built on the PDF folder, in skip-video mode with
    extras on, and run on the same course after the PDF processor; what it
    answers is ignored, but if it raises the course counts as failed although
    its PDFs were downloaded. *)
Theorem extras_pass_follows_the_pdf_pass (E : env) (i : nat) (u : string)
    (w : ConfigManager.world) (entries : list (string * value))
    (folder : string) :
  let pdf := PDFProcessor folder
               (ConfigManager.get_from (ConfigManager.config w)
                  ["pdfConfig"; "pdfType"] (VNum 2)) in
  let extras := VideoProcessor folder (VStr "360p") (VBool true) true in
  ConfigManager.config w = VDict entries ->
  Py.str_eq (Py.dict_get entries "downloadType" (VStr "pdf")) "pdf" = true ->
  ConfigManager.get_from (ConfigManager.config w)
    ["pdfConfig"; "pastaDownloads"] VNone = VStr folder ->
  Py.truthy (ConfigManager.get_from (ConfigManager.config w)
               ["pdfConfig"; "baixarExtrasComPdf"] (VBool false)) = true ->
  construct E i pdf = None ->
  run_processor E i pdf u = Ret true ->
  construct E i extras = None ->
  trace (snd (_process_course E i u (init w)))
  = [Construct pdf]
    ++ (if cancel_requested E i 1 then [RequestCancel pdf] else [])
    ++ [ProcessCourse pdf u; Construct extras]
    ++ (if cancel_requested E i 2 then [RequestCancel extras] else [])
    ++ [ProcessCourse extras u]
  /\ fst (_process_course E i u (init w))
     = Ret (match run_processor E i extras u with
            | Ret _ => true
            | Raise _ => false
            end).
Proof.
  intros pdf extras Hcfg Hkind Hfolder Hflag Hnew Hrun Hnew2.
  destruct w as [c d k]. simpl in Hcfg. subst c.
  unfold pdf in Hnew, Hrun. cbn [ConfigManager.config] in *.
  run_course.
  repeat (progress (cbn -[Py.dict_get ConfigManager.get_from Py.str_eq Py.truthy];
                    rewrite ?Hkind, ?Hfolder, ?Hflag, ?Hnew, ?Hrun)).
  destruct (cancel_requested E i 1);
    repeat (progress (cbn -[Py.dict_get ConfigManager.get_from Py.str_eq Py.truthy];
                      rewrite ?Hkind, ?Hfolder, ?Hflag, ?Hnew, ?Hrun));
    fold extras; rewrite ?Hnew2;
    repeat (progress (cbn -[Py.dict_get ConfigManager.get_from Py.str_eq Py.truthy];
                      rewrite ?Hkind, ?Hfolder, ?Hflag, ?Hnew, ?Hrun));
    destruct (cancel_requested E i 2);
    cbn -[Py.dict_get ConfigManager.get_from Py.str_eq Py.truthy];
    destruct (run_processor E i extras u) as [b|e]; split; reflexivity.
Qed.

(** X28: every kind other than "pdf" is handled as video. One
    [VideoProcessor] is built from [videoConfig] (resolution "720p" and
    extras on when the keys are absent, video download not skipped) and run
    once; the course succeeds exactly when that call answers [True]; no
    second processor is built, whatever [pdfConfig] says. *)
Theorem other_kinds_run_one_video_processor (E : env) (i : nat) (u : string)
    (w : ConfigManager.world) (entries : list (string * value))
    (folder : string) :
  let video := VideoProcessor folder
                 (ConfigManager.get_from (ConfigManager.config w)
                    ["videoConfig"; "resolucaoEscolhida"] (VStr "720p"))
                 (ConfigManager.get_from (ConfigManager.config w)
                    ["videoConfig"; "baixarExtras"] (VBool true))
                 false in
  ConfigManager.config w = VDict entries ->
  Py.str_eq (Py.dict_get entries "downloadType" (VStr "pdf")) "pdf" = false ->
  ConfigManager.get_from (ConfigManager.config w)
    ["videoConfig"; "pastaDownloads"] VNone = VStr folder ->
  construct E i video = None ->
  trace (snd (_process_course E i u (init w)))
  = [Construct video]
    ++ (if cancel_requested E i 1 then [RequestCancel video] else [])
    ++ [ProcessCourse video u]
  /\ fst (_process_course E i u (init w))
     = Ret (match run_processor E i video u with
            | Ret b => b
            | Raise _ => false
            end).
Proof.
  intros video Hcfg Hkind Hfolder Hnew.
  destruct w as [c d k]. simpl in Hcfg. subst c.
  unfold video in Hnew. cbn [ConfigManager.config] in *.
  run_course.
  repeat (progress (cbn -[Py.dict_get ConfigManager.get_from Py.str_eq Py.truthy];
                    rewrite ?Hkind, ?Hfolder, ?Hnew)).
  fold video.
  destruct (cancel_requested E i 1);
    cbn -[Py.dict_get ConfigManager.get_from Py.str_eq Py.truthy];
    destruct (run_processor E i video u) as [b|e];
    cbn -[Py.dict_get ConfigManager.get_from Py.str_eq Py.truthy];
    rewrite ?Hkind, ?andb_false_r; split; reflexivity.
Qed.

(** X29: a course cannot start without a download folder. When the folder
    of the kind at hand is missing or is not a string, [_process_course]
    answers [False] at once: no processor is constructed, none is run, and
    the state is as before. *)
Theorem missing_folder_fails_the_course (E : env) (i : nat) (u : string)
    (w : ConfigManager.world) (entries : list (string * value)) :
  ConfigManager.config w = VDict entries ->
  (forall folder,
     ConfigManager.get_from (ConfigManager.config w)
       [folder_section (Py.dict_get entries "downloadType" (VStr "pdf"));
        "pastaDownloads"] VNone <> VStr folder) ->
  forall s, cfg s = w -> _process_course E i u s = (Ret false, s).
Proof.
  intros Hcfg Hfolder s Hs. destruct s as [w0 tr se pl ct sc fc].
  simpl in Hs. subst w0.
  destruct w as [c d k]. simpl in Hcfg. subst c.
  cbn [ConfigManager.config] in *. unfold folder_section in Hfolder.
  run_course.
  cbn -[Py.dict_get ConfigManager.get_from Py.str_eq Py.truthy].
  destruct (Py.str_eq (Py.dict_get entries "downloadType" (VStr "pdf")) "pdf");
    cbn -[Py.dict_get ConfigManager.get_from Py.str_eq Py.truthy];
    match goal with
    | |- context [ConfigManager.get_from ?v ?ks ?dflt] =>
        destruct (ConfigManager.get_from v ks dflt) as [| | |p| |] eqn:Hget
    end;
    try reflexivity; exfalso; exact (Hfolder p eq_refl).
Qed.

Lemma process_course_returns E i u s entries :
  ConfigManager.config (cfg s) = VDict entries ->
  exists b, fst (_process_course E i u s) = Ret b.
Proof.
  intros Hcfg.
  unfold _process_course, SE.bind, lift_cfg, ConfigManager.config_get.
  rewrite Hcfg. unfold returning_false_on_error.
  destruct (process_course_body _ _ _ _ _) as [[b|e] s']; eexists; reflexivity.
Qed.

(** X30: [_process_course] never raises on a configuration that is a
    mapping, not even when a processor is cancelled: it answers a boolean,
    and that boolean is [True] only if a processor call on this course
    answered [True]; the configuration and the counters are left alone and
    no other course is started. *)
Theorem process_course_contains_every_failure (E : env) (i : nat) (u : string)
    (s : state) (entries : list (string * value)) :
  ConfigManager.config (cfg s) = VDict entries ->
  (exists b, fst (_process_course E i u s) = Ret b)
  /\ ((forall p, run_processor E i p u <> Ret true) ->
      fst (_process_course E i u s) = Ret false)
  /\ cfg (snd (_process_course E i u s)) = cfg s
  /\ success_count (snd (_process_course E i u s)) = success_count s
  /\ failed_count (snd (_process_course E i u s)) = failed_count s
  /\ attempted (trace (snd (_process_course E i u s))) = attempted (trace s).
Proof.
  intros Hcfg.
  destruct (process_course_returns E i u s entries Hcfg) as [b Hb].
  split; [exists b; exact Hb|]. split.
  - intros Hnone. rewrite Hb. destruct b; [|reflexivity].
    apply process_course_true in Hb as [p Hp]. exfalso. exact (Hnone p Hp).
  - destruct (is_step_process_course E i u) as [Hstep Hatt].
    rewrite (Hstep s). cbn [snd add_trace cfg success_count failed_count trace].
    repeat split. rewrite attempted_app, Hatt, app_nil_r. reflexivity.
Qed.

End OrchestratorFacts.

(** ** Concrete runs *)

(** Setting the video resolution on the sample configuration, then reading
    it back. *)
Lemma set_then_get_witness :
  let keys := ["videoConfig"; "resolucaoEscolhida"] in
  let w' := snd (ConfigManager.set keys (VStr "1080p") Sample.ready) in
  fst (ConfigManager.set keys (VStr "1080p") Sample.ready) = Ret tt
  /\ fst (ConfigManager.get keys VNone w') = Ret (VStr "1080p").
Proof.
  intros keys w'.
  destruct (set_then_get keys (VStr "1080p") VNone Sample.ready _ eq_refl)
    as (Hret & Hget & _); [discriminate|].
  split; [exact Hret | exact Hget].
Defined.

(** Changing the PDF type leaves the PDF folder as it was. *)
Lemma set_leaves_siblings_witness :
  fst (ConfigManager.get ["pdfConfig"; "pastaDownloads"] VNone
         (snd (ConfigManager.set ["pdfConfig"; "pdfType"] (VNum 3) Sample.ready)))
  = fst (ConfigManager.get ["pdfConfig"; "pastaDownloads"] VNone Sample.ready).
Proof.
  refine (set_leaves_siblings ["pdfConfig"] "pdfType" "pastaDownloads" [] []
            (VNum 3) VNone Sample.ready _ _ eq_refl eq_refl _).
  discriminate.
Defined.

(** A second save whose write breaks midway: the first save survives in the
    backup file. And one whose rename fails: nothing has changed. *)
Lemma save_config_keeps_previous_witness :
  let w := snd (ConfigManager.save_config ConfigManager.IoOk Sample.ready) in
  let w' := Sample.configure ["headless"] (VBool true) w in
  ConfigManager.disk w' !! ConfigManager.CONFIG_FILE
  = Some (ConfigManager.FJson (ConfigManager.config Sample.ready))
  /\ ConfigManager.disk (snd (ConfigManager.save_config ConfigManager.IoFailMidway w'))
       !! ConfigManager.CONFIG_BACKUP
     = Some (ConfigManager.FJson (ConfigManager.config Sample.ready))
  /\ fst (ConfigManager.save_config ConfigManager.IoFailMidway w') = Raise ExException
  /\ ConfigManager.save_config ConfigManager.IoFailRotate w' = (Raise ExException, w').
Proof.
  intros w w'.
  assert (Hold : ConfigManager.disk w' !! ConfigManager.CONFIG_FILE
                 = Some (ConfigManager.FJson (ConfigManager.config Sample.ready)))
    by (vm_compute; reflexivity).
  split; [exact Hold|].
  destruct (save_config_keeps_previous ConfigManager.IoFailMidway w' _ Hold)
    as (_ & Hbak & _ & _ & _ & _ & Hfail).
  destruct (save_config_keeps_previous ConfigManager.IoFailRotate w' _ Hold)
    as (_ & _ & Hrotate & _).
  split; [apply Hbak; discriminate|].
  split; [apply Hfail; discriminate|].
  exact (Hrotate eq_refl).
Defined.

(** A [config.json] that is not JSON, on a machine where the repair
    succeeds. *)
Lemma corrupt_config_is_backed_up_witness :
  let w := ConfigManager.with_disk
             {[ ConfigManager.CONFIG_FILE := ConfigManager.FGarbage ]} Sample.ready in
  let w' := snd (ConfigManager.load Sample.cfg_env true "20240101_120000" true
                   ConfigManager.IoOk w) in
  ConfigManager.config w' = ConfigManager._get_default_config Sample.cfg_env
  /\ ConfigManager.disk w' !! "config.json.20240101_120000.bak"
     = Some ConfigManager.FGarbage
  /\ ConfigManager.disk w' !! ConfigManager.CONFIG_FILE
     = Some (ConfigManager.FJson (ConfigManager._get_default_config Sample.cfg_env)).
Proof.
  intros w w'.
  assert (Hbad : ConfigManager.disk w !! ConfigManager.CONFIG_FILE
                 = Some ConfigManager.FGarbage) by (vm_compute; reflexivity).
  destruct (proj1 (corrupt_config_is_backed_up Sample.cfg_env "20240101_120000" true
                     ConfigManager.IoOk w) Hbad) as (_ & Hcfg & _ & Hdisk & _).
  destruct (Hdisk eq_refl eq_refl) as [Hbak Hnew].
  split; [exact Hcfg|]. split; [exact Hbak | exact Hnew].
Defined.

(** On a first start no e-mail is set: [get_password] answers [None]. *)
Lemma get_password_never_raises_witness :
  ConfigManager.get_password Sample.cfg_env Sample.blank = (Ret None, Sample.blank).
Proof.
  destruct (get_password_never_raises Sample.cfg_env Sample.blank _ eq_refl)
    as (_ & Hnone & _).
  exact (Hnone eq_refl).
Defined.

(** Storing a password for the sample account and reading it back. *)
Lemma set_then_get_password_witness :
  let encrypt := fun _ : string => Some "tok" in
  let w' := snd (ConfigManager.set_password Sample.cfg_env encrypt "plain:tok"
                   Sample.ready) in
  fst (ConfigManager.get_password Sample.cfg_env w') = Ret (Some "plain:tok")
  /\ ConfigManager.disk w' = ConfigManager.disk Sample.ready.
Proof.
  intros encrypt w'.
  assert (H : fst (ConfigManager.set_password Sample.cfg_env encrypt "plain:tok"
                     Sample.ready) = Ret tt
              /\ fst (ConfigManager.get_password Sample.cfg_env w') = Ret (Some "plain:tok")
              /\ ConfigManager.config w' = ConfigManager.config Sample.ready
              /\ ConfigManager.disk w' = ConfigManager.disk Sample.ready).
  { refine (set_then_get_password Sample.cfg_env encrypt "plain:tok" "tok"
              Sample.email Sample.ready _ eq_refl eq_refl _ _ eq_refl eq_refl _ eq_refl);
      discriminate. }
  destruct H as (_ & Hget & _ & Hdisk). split; [exact Hget | exact Hdisk].
Defined.

(** An empty password is refused. *)
Lemma set_password_rejects_witness :
  ConfigManager.set_password Sample.cfg_env (fun _ => Some "tok") "" Sample.ready
  = (Raise ExException, Sample.ready).
Proof.
  refine (set_password_rejects Sample.cfg_env (fun _ => Some "tok") ""
            Sample.ready _ eq_refl _).
  right. reflexivity.
Defined.

(** Deleting the stored credential of the sample account; and a keyring
    that refuses the deletion. *)
Lemma delete_then_get_password_witness :
  fst (ConfigManager.get_password Sample.cfg_env Sample.ready) = Ret (Some "plain:token")
  /\ fst (ConfigManager.get_password Sample.cfg_env
            (snd (ConfigManager.delete_password Sample.cfg_env false Sample.ready)))
     = Ret None
  /\ ConfigManager.delete_password Sample.cfg_env true Sample.ready
     = (Ret tt, Sample.ready).
Proof.
  split; [vm_compute; reflexivity|].
  destruct (delete_then_get_password Sample.cfg_env false Sample.ready _ eq_refl)
    as (_ & _ & _ & Hget & _).
  destruct (delete_then_get_password Sample.cfg_env true Sample.ready _ eq_refl)
    as (_ & _ & _ & _ & Hkept).
  split; [exact (Hget eq_refl) | exact (Hkept eq_refl)].
Defined.

(** The sample configuration is valid, hence has an e-mail and a kind. *)
Lemma validate_ok_means_witness :
  fst (ConfigManager.validate Sample.cfg_env Sample.ready) = Ret (true, [])
  /\ exists entries,
       ConfigManager.config Sample.ready = VDict entries
       /\ Py.truthy (Py.dict_get entries "email" VNone) = true.
Proof.
  assert (Hok : fst (ConfigManager.validate Sample.cfg_env Sample.ready)
                = Ret (true, [])) by (vm_compute; reflexivity).
  split; [exact Hok|].
  destruct (validate_ok_means Sample.cfg_env Sample.ready [] Hok)
    as (_ & entries & Hc & Hemail & _).
  exists entries. split; [exact Hc | exact Hemail].
Defined.

(** On a first start both the e-mail and the password are reported. *)
Lemma validate_collects_all_witness :
  exists errors,
    ConfigManager.validate Sample.cfg_env Sample.blank
    = (Ret (false, errors), Sample.blank)
    /\ In ConfigManager.EmailNotConfigured errors
    /\ In ConfigManager.PasswordNotConfigured errors.
Proof.
  destruct (validate_collects_all Sample.cfg_env Sample.blank _
              [ConfigManager.EmailNotConfigured] eq_refl
              (or_introl (conj eq_refl eq_refl)))
    as (pw & errors & Hpw & Hrun & _ & Hemail & Hpwd & _).
  assert (Hnone : ConfigManager.get_password Sample.cfg_env Sample.blank
                  = (Ret None, Sample.blank)) by (vm_compute; reflexivity).
  rewrite Hnone in Hpw. injection Hpw as <-.
  pose proof (Hemail ConfigManager.EmailNotConfigured (or_introl eq_refl)) as Hin.
  exists errors. split; [|split; [exact Hin | exact (Hpwd eq_refl)]].
  rewrite Hrun. destruct errors; [destruct Hin | reflexivity].
Defined.

(** Marking one lesson does not mark another. *)
Lemma mark_completed_touches_one_key_witness :
  ProgressManager.is_completed "aula-02.pdf"
    (ProgressManager.mark_completed ProgressManager.SaveOk "aula-01.pdf"
       Sample.fresh_ledger) = false.
Proof.
  refine (proj2 (mark_completed_touches_one_key ProgressManager.SaveOk
                   "aula-01.pdf" "aula-02.pdf" Sample.fresh_ledger _) eq_refl).
  discriminate.
Defined.

(** Two markings whose writes fail, then a clear that succeeds. *)
Lemma ledger_file_is_never_torn_witness :
  let ops := [ProgressManager.MarkCompleted "aula-01.pdf" ProgressManager.SaveFailWrite;
              ProgressManager.MarkCompleted "aula-02.pdf" ProgressManager.SaveFailRename;
              ProgressManager.Clear ProgressManager.SaveOk] in
  ProgressManager.file_intact Sample.fresh_ledger
  /\ ProgressManager.file_intact (ProgressManager.run ops Sample.fresh_ledger).
Proof.
  intros ops.
  assert (Hw : ProgressManager.file_intact Sample.fresh_ledger)
    by (intros H; vm_compute in H; discriminate H).
  split; [exact Hw|].
  exact (proj2 (proj2 (ledger_file_is_never_torn Sample.fresh_ledger
                         ProgressManager.SaveOk ops Hw))).
Defined.

(** Adding the sample URL to the empty queue. *)
Lemma add_url_appends_witness :
  let L := CPython.lib (fun _ => true) in
  let w' := snd (CourseUrlManager.add_url L CourseUrlManager.IoOk Sample.platform_url
                   Sample.empty_queue) in
  fst (CourseUrlManager.add_url L CourseUrlManager.IoOk Sample.platform_url
         Sample.empty_queue) = true
  /\ CourseUrlManager.urls w'
     = [{| url := strip L Sample.platform_url;
           title := CourseUrlManager._extract_title_from_url
                      (strip L Sample.platform_url) |}]
  /\ CourseUrlManager.disk w' !! CourseUrlManager.URLS_FILE
     = Some (CourseUrlManager.UJson (CourseUrlManager.urls w')).
Proof.
  intros L w'.
  assert (Hok : fst (CourseUrlManager.add_url L CourseUrlManager.IoOk
                       Sample.platform_url Sample.empty_queue) = true)
    by (vm_compute; reflexivity).
  split; [exact Hok|].
  destruct (add_url_appends L CourseUrlManager.IoOk Sample.platform_url
              Sample.empty_queue Hok) as (t & Hurls & Htitle & _ & _ & Hdisk).
  assert (Hascii : Text.is_ascii (strip L Sample.platform_url) = true)
    by (vm_compute; reflexivity).
  split; [|exact (Hdisk eq_refl)].
  unfold w'. rewrite Hurls, (Htitle Hascii). reflexivity.
Defined.

(** Adding the sample URL a second time. *)
Lemma add_url_twice_witness :
  let L := CPython.lib (fun _ => true) in
  let w' := snd (CourseUrlManager.add_url L CourseUrlManager.IoOk Sample.platform_url
                   Sample.empty_queue) in
  CourseUrlManager.add_url L CourseUrlManager.IoOk Sample.platform_url w' = (false, w').
Proof.
  intros L w'.
  refine (add_url_twice L CourseUrlManager.IoOk CourseUrlManager.IoOk
            Sample.platform_url Sample.empty_queue _).
  vm_compute; reflexivity.
Defined.

(** Adding the sample URL and removing it again. *)
Lemma add_then_remove_witness :
  let L := CPython.lib (fun _ => true) in
  let w' := snd (CourseUrlManager.add_url L CourseUrlManager.IoOk Sample.platform_url
                   Sample.empty_queue) in
  CourseUrlManager.urls
    (snd (CourseUrlManager.remove_url CourseUrlManager.IoOk
            (strip L Sample.platform_url) w')) = [].
Proof.
  intros L w'.
  refine (proj2 (add_then_remove L CourseUrlManager.IoOk CourseUrlManager.IoOk
                   Sample.platform_url Sample.empty_queue _)).
  vm_compute; reflexivity.
Defined.

(** The same URL added twice, with a failing write in between. *)
Lemma queue_urls_stay_unique_witness :
  let L := CPython.lib (fun _ => true) in
  let ops := [CourseUrlManager.AddUrl Sample.platform_url CourseUrlManager.IoFailMidway;
              CourseUrlManager.AddUrl Sample.platform_url CourseUrlManager.IoOk;
              CourseUrlManager.RemoveUrl "https://example.org" CourseUrlManager.IoOk] in
  CourseUrlManager.unique_urls
    (CourseUrlManager.urls (CourseUrlManager.run L ops Sample.empty_queue)).
Proof.
  intros L ops.
  refine (queue_urls_stay_unique L ops Sample.empty_queue _).
  apply NoDup_nil_2.
Defined.

(** A first start: nothing is configured, nothing is acquired. *)
Lemma invalid_configuration_stops_the_run_witness :
  let E := Sample.env_with Sample.three_courses Sample.all_succeed None in
  DownloadManager.start_downloads E (DownloadManager.init Sample.blank)
  = (Ret false, DownloadManager.init Sample.blank).
Proof.
  intros E.
  refine (proj2 (invalid_configuration_stops_the_run E Sample.blank _)).
  intros errors H. vm_compute in H. discriminate H.
Defined.

(** The [finally] block after a run that acquired everything. *)
Lemma cleanup_closes_what_was_acquired_witness :
  let E := Sample.env_with Sample.three_courses Sample.all_succeed None in
  let s := snd (DownloadManager.acquire_and_login E (DownloadManager.init Sample.ready)) in
  DownloadManager.trace (snd (DownloadManager.cleanup E s))
  = DownloadManager.trace s
    ++ [DownloadManager.CloseSession; DownloadManager.CloseContext;
        DownloadManager.StopPlaywright].
Proof.
  intros E s.
  destruct (cleanup_closes_what_was_acquired E s eq_refl) as [Hok _].
  destruct Hok as (_ & _ & Hall).
  - intros e H. discriminate H.
  - intros e H. discriminate H.
  - apply Hall; vm_compute; reflexivity.
Defined.

(** A login that raises: the three courses are not touched, and what was
    opened is closed. *)
Lemma acquisition_failure_aborts_the_run_witness :
  let E := Sample.env_login_fails Sample.three_courses in
  let final := DownloadManager.start_downloads E (DownloadManager.init Sample.ready) in
  fst (DownloadManager.acquire_and_login E (DownloadManager.init Sample.ready))
  = Raise ExException
  /\ fst final = Ret false
  /\ DownloadManager.attempted (DownloadManager.trace (snd final)) = []
  /\ DownloadManager.failed_count (snd final) = 0.
Proof.
  intros E final.
  assert (Hhealth : fst (DownloadManager._health_check E
                           (DownloadManager.init Sample.ready)) = Ret true)
    by (vm_compute; reflexivity).
  assert (Hacq : fst (DownloadManager.acquire_and_login E
                        (DownloadManager.init Sample.ready)) = Raise ExException)
    by (vm_compute; reflexivity).
  assert (Hq : CourseUrlManager.get_all (DownloadManager.url_manager E) <> [])
    by discriminate.
  assert (Hclean : DownloadManager.cleanup_returns E).
  { split; [reflexivity | split; intros e H; discriminate]. }
  destruct (acquisition_failure_aborts_the_run E Sample.ready ExException
              Hhealth Hq Hacq Hclean) as (Hres & Hnone & _ & _ & Hfailed).
  split; [exact Hacq|]. split; [exact Hres|]. split; [exact Hnone | exact Hfailed].
Defined.

(** After the health check passed on the sample configuration, the login is
    called with the configured e-mail. *)
Lemma health_check_settles_credentials_witness :
  let E := Sample.env_with Sample.three_courses Sample.all_succeed None in
  exists entries,
    ConfigManager.config Sample.ready = VDict entries
    /\ DownloadManager._perform_authentication E (DownloadManager.init Sample.ready)
       = DownloadManager.call
           (DownloadManager.Login (Py.dict_get entries "email" VNone))
           (DownloadManager.ensure_logged_in E) (DownloadManager.init Sample.ready).
Proof.
  intros E.
  refine (health_check_settles_credentials E (DownloadManager.init Sample.ready) _).
  vm_compute; reflexivity.
Defined.

(** Three courses, cancelled when the second is about to start: only the
    first is attempted, and the run answers [True]. *)
Lemma cancellation_skips_the_rest_witness :
  let E := Sample.env_cancelled_at 2 Sample.three_courses in
  let final := DownloadManager.start_downloads E (DownloadManager.init Sample.ready) in
  DownloadManager.attempted (DownloadManager.trace (snd final)) = [1]
  /\ DownloadManager.success_count (snd final)
     + DownloadManager.failed_count (snd final) = 1
  /\ fst final = Ret true.
Proof.
  intros E final.
  assert (Hhealth : fst (DownloadManager._health_check E
                           (DownloadManager.init Sample.ready)) = Ret true)
    by (vm_compute; reflexivity).
  assert (Hacq : fst (DownloadManager.acquire_and_login E
                        (DownloadManager.init Sample.ready)) = Ret tt)
    by (vm_compute; reflexivity).
  assert (Hcb : DownloadManager.callback_is_benign E).
  { intros cb i total e H. discriminate H. }
  assert (Hclean : DownloadManager.cleanup_returns E).
  { split; [reflexivity | split; intros e H; discriminate]. }
  assert (Hflags : forall j, j < length [Sample.course_at "penal"] ->
                     DownloadManager.cancel_requested E (1 + j) 0 = false).
  { intros j Hj. destruct j as [|j]; [reflexivity | simpl in Hj; lia]. }
  destruct (cancellation_skips_the_rest E Sample.ready
              [Sample.course_at "penal"] (Sample.course_at "civil")
              [Sample.course_at "tributario"] Hhealth Hacq Hcb eq_refl Hflags eq_refl)
    as (Hatt & _ & Hsum & Hres).
  split; [exact Hatt|]. split; [exact Hsum|].
  unfold final. rewrite (Hres Hclean). vm_compute. reflexivity.
Defined.

(** The sample course with the key the code reads switched on, and an
    extras processor that raises: the course fails. *)
Lemma extras_pass_follows_the_pdf_pass_witness :
  let run := fun (_ : nat) (p : DownloadManager.processor) (_ : string) =>
               match p with
               | DownloadManager.PDFProcessor _ _ => Ret true
               | DownloadManager.VideoProcessor _ _ _ _ => Raise ExCancelled
               end in
  let E := Sample.env_with Sample.three_courses run None in
  let pdf := DownloadManager.PDFProcessor "/home/ana/Downloads/Estrategia_PDFs" (VNum 2) in
  let extras := DownloadManager.VideoProcessor "/home/ana/Downloads/Estrategia_PDFs"
                  (VStr "360p") (VBool true) true in
  DownloadManager.trace
    (snd (DownloadManager._process_course E 1 "u" (DownloadManager.init Sample.code_key)))
  = [DownloadManager.Construct pdf; DownloadManager.ProcessCourse pdf "u";
     DownloadManager.Construct extras; DownloadManager.ProcessCourse extras "u"]
  /\ fst (DownloadManager._process_course E 1 "u" (DownloadManager.init Sample.code_key))
     = Ret false.
Proof.
  intros run E pdf extras.
  exact (extras_pass_follows_the_pdf_pass E 1 "u" Sample.code_key _
           "/home/ana/Downloads/Estrategia_PDFs"
           eq_refl eq_refl eq_refl eq_refl eq_refl eq_refl eq_refl).
Defined.

(** The sample course on a configuration of kind "video". *)
Lemma other_kinds_run_one_video_processor_witness :
  let E := Sample.env_with Sample.three_courses Sample.all_succeed None in
  let video := DownloadManager.VideoProcessor "/home/ana/Downloads/Estrategia_Videos"
                 (VStr "720p") (VBool true) false in
  DownloadManager.trace
    (snd (DownloadManager._process_course E 1 "u" (DownloadManager.init Sample.video_kind)))
  = [DownloadManager.Construct video; DownloadManager.ProcessCourse video "u"]
  /\ fst (DownloadManager._process_course E 1 "u" (DownloadManager.init Sample.video_kind))
     = Ret true.
Proof.
  intros E video.
  exact (other_kinds_run_one_video_processor E 1 "u" Sample.video_kind _
           "/home/ana/Downloads/Estrategia_Videos" eq_refl eq_refl eq_refl eq_refl).
Defined.

(** The sample course on a configuration whose PDF folder is [null]. *)
Lemma missing_folder_fails_the_course_witness :
  let E := Sample.env_with Sample.three_courses Sample.all_succeed None in
  DownloadManager._process_course E 1 "u" (DownloadManager.init Sample.no_folder)
  = (Ret false, DownloadManager.init Sample.no_folder).
Proof.
  intros E.
  refine (missing_folder_fails_the_course E 1 "u" Sample.no_folder _ eq_refl _
            (DownloadManager.init Sample.no_folder) eq_refl).
  intros folder H. vm_compute in H. discriminate H.
Defined.

(** A processor that is cancelled on every course: [_process_course]
    answers [False]. *)
Lemma process_course_contains_every_failure_witness :
  let E := Sample.env_with Sample.three_courses (fun _ _ _ => Raise ExCancelled) None in
  fst (DownloadManager._process_course E 1 "u" (DownloadManager.init Sample.ready))
  = Ret false.
Proof.
  intros E.
  destruct (process_course_contains_every_failure E 1 "u"
              (DownloadManager.init Sample.ready) _ eq_refl) as (_ & Hfalse & _).
  apply Hfalse. intros p H. discriminate H.
Defined.
